(** * The ingestion-and-dispatch webhook of the media bot (src/bot.py)

    A shallow embedding of [telegram_webhook], of the nested
    [get_or_create_content_entry] and of [send_notification_to_channel],
    together with the part of the document store, of the job scheduler and of
    the messaging API that they drive.

    - A MongoDB document of the [movies] collection is a record whose fields
      are the keys that every creation path of the source writes; a key whose
      value may be [None] is an [option].
    - The collection is the list of its documents in insertion order:
      [find_one] returns the first match, [update_one] rewrites the first
      match, [insert_one] appends.
    - A Python string is held as its UTF-8 encoding; white space, decimal
      digits and the case of letters are those of Unicode, as [str.split],
      [int] and a regular expression with the option [i] take them.
    - The handler runs in a state-and-exception monad over the collection,
      the pending jobs and the log of HTTP calls that were attempted.
    - Everything the handler receives from outside (the two helpers
      [parse_filename] and [get_tmdb_details_from_api], which the handler
      calls but which are defined elsewhere, the id generated for an inserted
      document, the clock, the answers of the messaging API) is a field of
      [env]. *)

From Stdlib Require Import ZArith QArith Ascii String List.
From stdpp Require Import base list strings pretty gmap.
From stdpp Require Import sorting.

Local Open Scope string_scope.
Local Open Scope list_scope.
Local Open Scope Z_scope.

(** ** Unicode text

    A Python [str] is a sequence of code points.  It is held here as its
    UTF-8 encoding, one [ascii] per byte, which is also what a string
    literal of this file is.  The tables are those of Unicode 14.0, the
    version of CPython 3.11. *)

Module Unicode.

(** The code points that [str.isspace] accepts: the separators of
    [str.split()]. *)
Definition white_space : list N :=
  [9; 10; 11; 12; 13; 28; 29; 30; 31; 32;
   133; 160; 5760; 8192; 8193; 8194; 8195; 8196; 8197; 8198;
   8199; 8200; 8201; 8202; 8232; 8233; 8239; 8287; 12288]%N.

(** The zero of every run of ten decimal digits (category [Nd]). *)
Definition decimal_zeros : list N :=
  [48; 1632; 1776; 1984; 2406; 2534; 2662; 2790;
   2918; 3046; 3174; 3302; 3430; 3558; 3664; 3792;
   3872; 4160; 4240; 6112; 6160; 6470; 6608; 6784;
   6800; 6992; 7088; 7232; 7248; 42528; 43216; 43264;
   43472; 43504; 43600; 44016; 65296; 66720; 68912; 69734;
   69872; 69942; 70096; 70384; 70736; 70864; 71248; 71360;
   71472; 71904; 72016; 72784; 73040; 73120; 92768; 92864;
   93008; 120782; 120792; 120802; 120812; 120822; 123200; 123632;
   125264; 130032]%N.

(** Simple case folding (the entries of status C and S of CaseFolding.txt),
    in runs: every [step]-th code point from [first] to [last] folds to
    itself plus [offset]. *)
Definition case_folding : list (Z * Z * Z * Z) :=
  [(65, 90, 1, 32); (181, 181, 1, 775); (192, 214, 1, 32);
   (216, 222, 1, 32); (256, 302, 2, 1); (306, 310, 2, 1);
   (313, 327, 2, 1); (330, 374, 2, 1); (376, 376, 1, -121);
   (377, 381, 2, 1); (383, 383, 1, -268); (385, 385, 1, 210);
   (386, 388, 2, 1); (390, 390, 1, 206); (391, 391, 1, 1);
   (393, 394, 1, 205); (395, 395, 1, 1); (398, 398, 1, 79);
   (399, 399, 1, 202); (400, 400, 1, 203); (401, 401, 1, 1);
   (403, 403, 1, 205); (404, 404, 1, 207); (406, 406, 1, 211);
   (407, 407, 1, 209); (408, 408, 1, 1); (412, 412, 1, 211);
   (413, 413, 1, 213); (415, 415, 1, 214); (416, 420, 2, 1);
   (422, 422, 1, 218); (423, 423, 1, 1); (425, 425, 1, 218);
   (428, 428, 1, 1); (430, 430, 1, 218); (431, 431, 1, 1);
   (433, 434, 1, 217); (435, 437, 2, 1); (439, 439, 1, 219);
   (440, 440, 1, 1); (444, 444, 1, 1); (452, 452, 1, 2);
   (453, 453, 1, 1); (455, 455, 1, 2); (456, 456, 1, 1);
   (458, 458, 1, 2); (459, 475, 2, 1); (478, 494, 2, 1);
   (497, 497, 1, 2); (498, 500, 2, 1); (502, 502, 1, -97);
   (503, 503, 1, -56); (504, 542, 2, 1); (544, 544, 1, -130);
   (546, 562, 2, 1); (570, 570, 1, 10795); (571, 571, 1, 1);
   (573, 573, 1, -163); (574, 574, 1, 10792); (577, 577, 1, 1);
   (579, 579, 1, -195); (580, 580, 1, 69); (581, 581, 1, 71);
   (582, 590, 2, 1); (837, 837, 1, 116); (880, 882, 2, 1);
   (886, 886, 1, 1); (895, 895, 1, 116); (902, 902, 1, 38);
   (904, 906, 1, 37); (908, 908, 1, 64); (910, 911, 1, 63);
   (913, 929, 1, 32); (931, 939, 1, 32); (962, 962, 1, 1);
   (975, 975, 1, 8); (976, 976, 1, -30); (977, 977, 1, -25);
   (981, 981, 1, -15); (982, 982, 1, -22); (984, 1006, 2, 1);
   (1008, 1008, 1, -54); (1009, 1009, 1, -48); (1012, 1012, 1, -60);
   (1013, 1013, 1, -64); (1015, 1015, 1, 1); (1017, 1017, 1, -7);
   (1018, 1018, 1, 1); (1021, 1023, 1, -130); (1024, 1039, 1, 80);
   (1040, 1071, 1, 32); (1120, 1152, 2, 1); (1162, 1214, 2, 1);
   (1216, 1216, 1, 15); (1217, 1229, 2, 1); (1232, 1326, 2, 1);
   (1329, 1366, 1, 48); (4256, 4293, 1, 7264); (4295, 4295, 1, 7264);
   (4301, 4301, 1, 7264); (5112, 5117, 1, -8); (7296, 7296, 1, -6222);
   (7297, 7297, 1, -6221); (7298, 7298, 1, -6212); (7299, 7300, 1, -6210);
   (7301, 7301, 1, -6211); (7302, 7302, 1, -6204); (7303, 7303, 1, -6180);
   (7304, 7304, 1, 35267); (7312, 7354, 1, -3008); (7357, 7359, 1, -3008);
   (7680, 7828, 2, 1); (7835, 7835, 1, -58); (7838, 7838, 1, -7615);
   (7840, 7934, 2, 1); (7944, 7951, 1, -8); (7960, 7965, 1, -8);
   (7976, 7983, 1, -8); (7992, 7999, 1, -8); (8008, 8013, 1, -8);
   (8025, 8031, 2, -8); (8040, 8047, 1, -8); (8072, 8079, 1, -8);
   (8088, 8095, 1, -8); (8104, 8111, 1, -8); (8120, 8121, 1, -8);
   (8122, 8123, 1, -74); (8124, 8124, 1, -9); (8126, 8126, 1, -7173);
   (8136, 8139, 1, -86); (8140, 8140, 1, -9); (8152, 8153, 1, -8);
   (8154, 8155, 1, -100); (8168, 8169, 1, -8); (8170, 8171, 1, -112);
   (8172, 8172, 1, -7); (8184, 8185, 1, -128); (8186, 8187, 1, -126);
   (8188, 8188, 1, -9); (8486, 8486, 1, -7517); (8490, 8490, 1, -8383);
   (8491, 8491, 1, -8262); (8498, 8498, 1, 28); (8544, 8559, 1, 16);
   (8579, 8579, 1, 1); (9398, 9423, 1, 26); (11264, 11311, 1, 48);
   (11360, 11360, 1, 1); (11362, 11362, 1, -10743); (11363, 11363, 1, -3814);
   (11364, 11364, 1, -10727); (11367, 11371, 2, 1); (11373, 11373, 1, -10780);
   (11374, 11374, 1, -10749); (11375, 11375, 1, -10783); (11376, 11376, 1, -10782);
   (11378, 11378, 1, 1); (11381, 11381, 1, 1); (11390, 11391, 1, -10815);
   (11392, 11490, 2, 1); (11499, 11501, 2, 1); (11506, 11506, 1, 1);
   (42560, 42604, 2, 1); (42624, 42650, 2, 1); (42786, 42798, 2, 1);
   (42802, 42862, 2, 1); (42873, 42875, 2, 1); (42877, 42877, 1, -35332);
   (42878, 42886, 2, 1); (42891, 42891, 1, 1); (42893, 42893, 1, -42280);
   (42896, 42898, 2, 1); (42902, 42920, 2, 1); (42922, 42922, 1, -42308);
   (42923, 42923, 1, -42319); (42924, 42924, 1, -42315); (42925, 42925, 1, -42305);
   (42926, 42926, 1, -42308); (42928, 42928, 1, -42258); (42929, 42929, 1, -42282);
   (42930, 42930, 1, -42261); (42931, 42931, 1, 928); (42932, 42946, 2, 1);
   (42948, 42948, 1, -48); (42949, 42949, 1, -42307); (42950, 42950, 1, -35384);
   (42951, 42953, 2, 1); (42960, 42960, 1, 1); (42966, 42968, 2, 1);
   (42997, 42997, 1, 1); (43888, 43967, 1, -38864); (65313, 65338, 1, 32);
   (66560, 66599, 1, 40); (66736, 66771, 1, 40); (66928, 66964, 2, 39);
   (66929, 66937, 2, 39); (66941, 66953, 2, 39); (66957, 66961, 2, 39);
   (66965, 66965, 1, 39); (68736, 68786, 1, 64); (71840, 71871, 1, 32);
   (93760, 93791, 1, 32); (125184, 125217, 1, 34)].

Definition is_space (c : N) : bool := bool_decide (c ∈ white_space).

(** The value of a decimal digit. *)
Definition decimal (c : N) : option Z :=
  match List.find (fun z => (z <=? c) && (c <? z + 10))%N decimal_zeros with
  | Some z => Some (Z.of_N (c - z))
  | None => None
  end.

Definition in_run (c : Z) (r : Z * Z * Z * Z) : bool :=
  let '(first, last, step, _) := r in
  (first <=? c) && (c <=? last) && ((c - first) mod step =? 0).

Definition fold (c : N) : N :=
  match List.find (in_run (Z.of_N c)) case_folding with
  | Some (_, _, _, offset) => Z.to_N (Z.of_N c + offset)
  | None => c
  end.

End Unicode.

Module Utf8.

Definition continuation (c : ascii) : bool :=
  let n := N_of_ascii c in ((128 <=? n) && (n <? 192))%N.

(** The number of continuation bytes that the lead byte [c] announces. *)
Definition trail (c : ascii) : nat :=
  let n := N_of_ascii c in
  if (n <? 192)%N then 0
  else if (n <? 224)%N then 1
  else if (n <? 240)%N then 2
  else if (n <? 248)%N then 3
  else 0.

(** The code points of [s], each as the bytes that encode it.  A lead
    byte whose continuation bytes are not all there stands alone. *)
Fixpoint chars (s : string) : list string :=
  match s with
  | EmptyString => []
  | String a s1 =>
      match trail a, s1 with
      | 1%nat, String b s2 =>
          if continuation b then String a (String b "") :: chars s2
          else String a "" :: chars s1
      | 2%nat, String b (String c s3) =>
          if continuation b && continuation c
          then String a (String b (String c "")) :: chars s3
          else String a "" :: chars s1
      | 3%nat, String b (String c (String d s4)) =>
          if continuation b && continuation c && continuation d
          then String a (String b (String c (String d ""))) :: chars s4
          else String a "" :: chars s1
      | _, _ => String a "" :: chars s1
      end
  end.

Definition payload (c : ascii) : N := (N_of_ascii c - 128)%N.

(** The code point that the bytes [g] encode, [None] when they are not
    the encoding of one code point. *)
Definition decode (g : string) : option N :=
  match g with
  | String a "" =>
      if (N_of_ascii a <? 128)%N then Some (N_of_ascii a) else None
  | String a (String b "") =>
      let n := ((N_of_ascii a - 192) * 64 + payload b)%N in
      if (trail a =? 1)%nat && continuation b && (128 <=? n)%N then Some n else None
  | String a (String b (String c "")) =>
      let n := ((N_of_ascii a - 224) * 4096 + payload b * 64 + payload c)%N in
      if (trail a =? 2)%nat && continuation b && continuation c && (2048 <=? n)%N
      then Some n else None
  | String a (String b (String c (String d ""))) =>
      let n := ((N_of_ascii a - 240) * 262144 + payload b * 4096
                + payload c * 64 + payload d)%N in
      if (trail a =? 3)%nat && continuation b && continuation c && continuation d
         && (65536 <=? n)%N && (n <=? 1114111)%N
      then Some n else None
  | _ => None
  end.

(** Every group of [s] is the encoding of a code point. *)
Definition valid (s : string) : bool :=
  forallb (fun g => bool_decide (is_Some (decode g))) (chars s).

End Utf8.

(** ** Python string helpers used by the handler *)

Module Py.

(** [len(s)] *)
Definition len (s : string) : nat := length (Utf8.chars s).

(** A separator of [str.split()]. *)
Definition is_space (g : string) : bool :=
  match Utf8.decode g with
  | Some c => Unicode.is_space c
  | None => false
  end.

(** One pass of [str.split()] over the code points: [cur] is the word
    being read. *)
Fixpoint split_ws_go (cs : list string) (cur : string) : list string :=
  let flush := match cur with
               | EmptyString => []
               | _ => [cur]
               end in
  match cs with
  | [] => flush
  | g :: cs' =>
      if is_space g then flush ++ split_ws_go cs' ""
      else split_ws_go cs' (cur +:+ g)
  end.

(** [s.split()] *)
Definition split_ws (s : string) : list string := split_ws_go (Utf8.chars s) "".

(** One pass of [s.split(sep)] for a one-character separator. *)
Fixpoint split_go (sep : ascii) (s : string) (cur : list ascii) : list string :=
  match s with
  | EmptyString => [string_of_list_ascii (rev cur)]
  | String c s' =>
      if Ascii.eqb c sep then string_of_list_ascii (rev cur) :: split_go sep s' []
      else split_go sep s' (c :: cur)
  end.

(** [s.split(sep)] *)
Definition split (sep : ascii) (s : string) : list string := split_go sep s [].

(** [sep.join(l)] *)
Fixpoint join (sep : string) (l : list string) : string :=
  match l with
  | [] => ""
  | [x] => x
  | x :: l' => x +:+ sep +:+ join sep l'
  end.

(** The value of a decimal digit, of any script. *)
Definition digit (g : string) : option Z := Utf8.decode g ≫= Unicode.decimal.

Fixpoint digits (cs : list string) (acc : Z) : option Z :=
  match cs with
  | [] => Some acc
  | g :: cs' =>
      match digit g with
      | Some d => digits cs' (10 * acc + d)
      | None => None
      end
  end.

Definition unsigned (s : string) : option Z :=
  match Utf8.chars s with
  | [] => None
  | cs => digits cs 0
  end.

(** [int(s)] for a string that holds no white space and no underscore: an
    optional sign and at least one decimal digit, of any script; [None]
    stands for [ValueError].  The handler applies [int] to parts of a
    token, which [split()] and [split('_')] leave without white space and
    without underscore, so the white space that [int] strips and the
    underscores that it allows between digits are not modelled. *)
Definition int (s : string) : option Z :=
  match s with
  | String "-" s' => Z.opp <$> unsigned s'
  | String "+" s' => unsigned s'
  | _ => unsigned s
  end.

(** [str(x)] for an integer that may be [None]. *)
Definition str (x : option Z) : string :=
  match x with
  | Some z => pretty z
  | None => "None"
  end.

(** Truthiness of a string that may be [None]. *)
Definition nonempty (s : option string) : option string :=
  match s with
  | Some "" => None
  | _ => s
  end.

(** [{k1: v1, k2: v2, ..}]: the items are entered from left to right, so
    the last value given for a key is the one the dictionary holds. *)
Definition dict {V} (items : list (string * V)) : gmap string V :=
  foldl (λ m kv, <[kv.1 := kv.2]> m) ∅ items.

End Py.

(** ** Object ids *)

Module Bson.

(** The value of a hexadecimal digit. *)
Definition hex (c : ascii) : option N :=
  let n := N_of_ascii c in
  if ((48 <=? n) && (n <=? 57))%N then Some (n - 48)%N
  else if ((97 <=? n) && (n <=? 102))%N then Some (n - 87)%N
  else if ((65 <=? n) && (n <=? 70))%N then Some (n - 55)%N
  else None.

(** The white space that [bytes.fromhex] skips. *)
Definition isspace (c : ascii) : bool :=
  let n := N_of_ascii c in ((9 <=? n) && (n <=? 13) || (n =? 32))%N.

(** [bytes.fromhex(s)]: pairs of hexadecimal digits, white space skipped
    before a pair; [None] stands for [ValueError]. *)
Fixpoint fromhex (s : string) : option (list N) :=
  match s with
  | EmptyString => Some []
  | String c s1 =>
      if isspace c then fromhex s1
      else
        match hex c, s1 with
        | Some top, String c' s2 =>
            match hex c' with
            | Some bot => cons (16 * top + bot)%N <$> fromhex s2
            | None => None
            end
        | _, _ => None
        end
  end.

(** An [ObjectId] holds bytes: the twelve bytes of an id, read here as
    one number, or fewer bytes when it was made from a string with white
    space. *)
Inductive t :=
| full (value : N)
| short (binary : list N).

Definition value (binary : list N) : N := foldl (fun acc b => 256 * acc + b)%N 0%N binary.

(** [ObjectId(oid)] for a string: the length of the string is checked,
    not that of the bytes; [None] stands for [InvalidId]. *)
Definition ObjectId (oid : string) : option t :=
  if (Py.len oid =? 24)%nat then
    match fromhex oid with
    | Some binary =>
        Some (if (length binary =? 12)%nat then full (value binary) else short binary)
    | None => None
    end
  else None.

End Bson.

Coercion Bson.full : N >-> Bson.t.
Bind Scope N_scope with Bson.t.

(** ** Data model *)

(** An element of [files]: [{"quality": .., "message_id": ..}].  Message
    ids are Telegram message ids, positive integers. *)
Module File.
Record t := mk { quality : string; message_id : positive }.
End File.

(** An element of [episodes]. *)
Module Episode.
Record t := mk { season : Z; episode_number : Z; message_id : positive }.
Definition key (e : t) : Z * Z := (season e, episode_number e).
End Episode.

(** An element of [season_packs]. *)
Module Pack.
Record t := mk { season : Z; quality : string; message_id : positive }.
Definition key (p : t) : Z * string := (season p, quality p).
End Pack.

(** The dictionary returned by [get_tmdb_details_from_api]; its keys are the
    ones the shell document of the source mirrors.  Catalog ids are positive
    integers. *)
Module Tmdb.
Record t := mk {
  tmdb_id : option positive;
  title : string;
  overview : option string;
  poster : option string;
  release_date : option string;
  vote_average : Q;
  genres : list string;
  trailer_key : option string }.
End Tmdb.

(** The dictionary returned by [parse_filename].  [None] is an absent key. *)
Module Parsed.
Record t := mk {
  title : option string;
  type : string;
  year : option Z;
  season : option Z;
  episode : option Z;
  quality : option string;
  languages : list string }.
End Parsed.

(** A document of the [movies] collection. *)
Record doc := mkdoc {
  _id : N;
  tmdb_id : option positive;
  title : string;
  overview : option string;
  poster : option string;
  release_date : option string;
  vote_average : Q;
  genres : list string;
  trailer_key : option string;
  type : string;
  languages : list string;
  episodes : list Episode.t;
  season_packs : list Pack.t;
  files : list File.t;
  categories : list string }.

Definition set_languages (v : list string) (d : doc) : doc :=
  mkdoc (_id d) (tmdb_id d) (title d) (overview d) (poster d) (release_date d)
        (vote_average d) (genres d) (trailer_key d) (type d)
        v (episodes d) (season_packs d) (files d) (categories d).

Definition set_episodes (v : list Episode.t) (d : doc) : doc :=
  mkdoc (_id d) (tmdb_id d) (title d) (overview d) (poster d) (release_date d)
        (vote_average d) (genres d) (trailer_key d) (type d)
        (languages d) v (season_packs d) (files d) (categories d).

Definition set_season_packs (v : list Pack.t) (d : doc) : doc :=
  mkdoc (_id d) (tmdb_id d) (title d) (overview d) (poster d) (release_date d)
        (vote_average d) (genres d) (trailer_key d) (type d)
        (languages d) (episodes d) v (files d) (categories d).

Definition set_files (v : list File.t) (d : doc) : doc :=
  mkdoc (_id d) (tmdb_id d) (title d) (overview d) (poster d) (release_date d)
        (vote_average d) (genres d) (trailer_key d) (type d)
        (languages d) (episodes d) (season_packs d) v (categories d).

(** The fields that reconciliation must leave alone. *)
Definition metadata (d : doc) :=
  (title d, overview d, poster d, release_date d, vote_average d, genres d,
   type d, tmdb_id d).

(** ** The document store *)

Module Mongo.

(** [movies.find_one(query)] *)
Definition find_one (query : doc -> bool) (movies : list doc) : option doc :=
  List.find query movies.

(** [movies.insert_one(d)] *)
Definition insert_one (d : doc) (movies : list doc) : list doc := movies ++ [d].

(** [movies.update_one(query, update)] *)
Fixpoint update_one (query : doc -> bool) (update : doc -> doc)
    (movies : list doc) : list doc :=
  match movies with
  | [] => []
  | d :: rest =>
      if query d then update d :: rest
      else d :: update_one query update rest
  end.

(** [{"_id": oid}]: the id of a stored document has twelve bytes, so an
    [ObjectId] of fewer bytes is the id of none. *)
Definition by_id (oid : Bson.t) (d : doc) : bool :=
  match oid with
  | Bson.full i => bool_decide (_id d = i)
  | Bson.short _ => false
  end.

(** [{"tmdb_id": i}] *)
Definition by_tmdb_id (i : positive) (d : doc) : bool :=
  bool_decide (tmdb_id d = Some i).

(** A code point as the regular expression engine compares it under the
    option [i]: by its simple case folding.  Bytes that encode no code
    point are compared as they are. *)
Definition folded (g : string) : N + string :=
  match Utf8.decode g with
  | Some c => inl (Unicode.fold c)
  | None => inr g
  end.

(** [a] and [b] are equal up to the case of their letters, code point by
    code point. *)
Definition caseless (a b : string) : bool :=
  bool_decide (folded <$> Utf8.chars a = folded <$> Utf8.chars b).

(** [s] without the line feed that ends it. *)
Fixpoint chomp (s : string) : option string :=
  match s with
  | EmptyString => None
  | String c EmptyString => if Ascii.eqb c "010" then Some "" else None
  | String c s' => String c <$> chomp s'
  end.

(** [{"title": {"$regex": "^" + re.escape(t) + "$", "$options": "i"},
      "tmdb_id": None}]: the pattern is the escaped title between anchors,
    so it matches a title that is [t] up to case, and, [$] standing also
    before a final line feed, such a title followed by one line feed. *)
Definition by_shell_title (t : string) (d : doc) : bool :=
  (caseless t (title d) || from_option (caseless t) false (chomp (title d)))
  && bool_decide (tmdb_id d = None).

(** [{"$pull": {"files": {"quality": q}}}] *)
Definition pull_files (q : string) (d : doc) : doc :=
  set_files (List.filter (fun f => negb (String.eqb (File.quality f) q)) (files d)) d.

(** [{"$pull": {"season_packs": {"season": s, "quality": q}}}] *)
Definition pull_season_packs (s : Z) (q : string) (d : doc) : doc :=
  set_season_packs
    (List.filter (fun p => negb ((Pack.season p =? s) && String.eqb (Pack.quality p) q))
                 (season_packs d)) d.

(** [{"$pull": {"episodes": {"season": s, "episode_number": e}}}] *)
Definition pull_episodes (s e : Z) (d : doc) : doc :=
  set_episodes
    (List.filter (fun x => negb ((Episode.season x =? s) && (Episode.episode_number x =? e)))
                 (episodes d)) d.

(** [$addToSet] with [$each]: every value not yet in the array is
    appended, in order. *)
Definition add_each (new old : list string) : list string :=
  fold_left (fun acc x => if bool_decide (x ∈ acc) then acc else acc ++ [x]) new old.

(** The one array element that [$push] appends. *)
Inductive push :=
| push_files (f : File.t)
| push_season_packs (p : Pack.t)
| push_episodes (e : Episode.t).

(** The dictionary [update_op]: the two operators that the handler may
    put in it. *)
Record update_op := mk_op {
  addToSet_languages : option (list string);
  op_push : option push }.

Definition is_empty (u : update_op) : bool :=
  match addToSet_languages u, op_push u with
  | None, None => true
  | _, _ => false
  end.

Definition apply_push (p : push) (d : doc) : doc :=
  match p with
  | push_files f => set_files (files d ++ [f]) d
  | push_season_packs x => set_season_packs (season_packs d ++ [x]) d
  | push_episodes e => set_episodes (episodes d ++ [e]) d
  end.

Definition apply (u : update_op) (d : doc) : doc :=
  let d1 := match addToSet_languages u with
            | Some l => set_languages (add_each l (languages d)) d
            | None => d
            end in
  match op_push u with
  | Some p => apply_push p d1
  | None => d1
  end.

(** [movies.delete_one(query)] *)
Fixpoint delete_one (query : doc -> bool) (movies : list doc) : list doc :=
  match movies with
  | [] => []
  | d :: rest => if query d then rest else d :: delete_one query rest
  end.

(** A condition of a filter on an array field: [{"f": v}] holds when the
    array has the value, [{"f": {"$nin": vs}}] when it has none of the
    values. *)
Inductive cond :=
| has (v : string)
| nin (vs : list string).

Definition holds (c : cond) (array : list string) : bool :=
  match c with
  | has v => bool_decide (v ∈ array)
  | nin vs => forallb (λ v, negb (bool_decide (v ∈ array))) vs
  end.

(** The array fields of a document by name; a field that is not there
    has no value. *)
Definition array_field (k : string) (d : doc) : list string :=
  if String.eqb k "categories" then categories d
  else if String.eqb k "genres" then genres d
  else if String.eqb k "languages" then languages d
  else [].

(** A filter holds when the condition under each of its keys does. *)
Definition matches (filter : gmap string cond) (d : doc) : bool :=
  forallb (λ kc, holds kc.2 (array_field kc.1 d)) (map_to_list filter).

(** [movies.find(filter)] *)
Definition find (filter : gmap string cond) (movies : list doc) : list doc :=
  List.filter (matches filter) movies.

(** [.sort('_id', -1)]: the greater id first. *)
Definition newer (d1 d2 : doc) : Prop := (_id d2 <= _id d1)%N.

#[global] Instance newer_dec : RelDecision newer :=
  fun d1 d2 => decide (_id d2 <= _id d1)%N.

Definition sort_id_desc (l : list doc) : list doc := merge_sort newer l.

(** [.limit(n)] *)
Definition limit (n : nat) (l : list doc) : list doc := take n l.

End Mongo.

(** ** The outside world *)

(** The caption of an announcement.  The Markdown text is not rendered:
    the constructor records the branch and the fields that enter it. *)
Inductive caption :=
| coming_soon_caption (title : string)
| new_content_caption (title : string) (year genres : option string) (rating : option Q).

(** The HTTP calls to the messaging API.  [button] is the inline keyboard:
    the detail page of a document for [sendPhoto], the site for
    [sendMessage]. *)
Inductive api_call :=
| sendPhoto (chat_id photo : string) (c : caption) (button : option N)
| pinChatMessage (chat_id : string) (message_id : positive)
| copyMessage (chat_id : Z) (from_chat_id : string) (message_id : positive)
              (title file_info_text : string)
| sendMessage (chat_id : Z) (text : string) (button : bool)
| deleteMessage (chat_id : Z) (message_id : positive).

(** What [requests.post(..).json()] gives back: an exception (connection
    error, timeout, undecodable body) or the decoded answer. *)
Inductive http (A : Type) :=
| raises
| returns (a : A).
Arguments raises {A}.
Arguments returns {A} a.

Record response := mkresp { ok : bool; result_message_id : option positive }.

Record env := mkenv {
  parse_filename : string -> option Parsed.t;
  get_tmdb_details_from_api : string -> string -> option Z -> option Tmdb.t;
  new_id : N;
  now : Z;
  telegram : api_call -> http response }.

Record config := mkconfig {
  ADMIN_CHANNEL_ID : string;
  NOTIFICATION_CHANNEL_ID : option string;
  BOT_USERNAME : string }.

Definition PLACEHOLDER_POSTER : string :=
  "https://via.placeholder.com/400x600.png?text=Poster+Not+Found".

(** A pending job of the background scheduler: [trigger='date'] with its
    [run_date], and the arguments of [delete_message_after_delay]. *)
Module Job.
Record t := mk { run_date : Z; chat_id : Z; message_id : positive }.
End Job.

(** The state the handler works on.  [jobs] is the job store of the
    scheduler, a dictionary from job id to job; [sent] logs every HTTP call
    that was attempted, oldest first. *)
Record world := mkworld {
  movies : list doc;
  jobs : gmap string Job.t;
  sent : list api_call }.

(** The world after the calls [cs] were attempted. *)
Definition log (cs : list api_call) (w : world) : world :=
  mkworld (movies w) (jobs w) (sent w ++ cs).

(** ** The state-and-exception monad *)

Inductive exn := KeyError | ValueError | AttributeError | InvalidId | RequestException.

Inductive result (A : Type) :=
| Ok (a : A)
| Raise (e : exn).
Arguments Ok {A} a.
Arguments Raise {A} e.

Definition M (A : Type) : Type := world -> result A * world.

#[global] Instance M_ret : MRet M := fun A (a : A) w => (Ok a, w).

#[global] Instance M_bind : MBind M := fun A B (k : A -> M B) (m : M A) w =>
  match m w with
  | (Ok a, w') => k a w'
  | (Raise e, w') => (Raise e, w')
  end.

Definition raise {A} (e : exn) : M A := fun w => (Raise e, w).

(** [try: m except Exception: h] *)
Definition try_except {A} (m : M A) (h : M A) : M A :=
  fun w => match m w with
           | (Ok a, w') => (Ok a, w')
           | (Raise _, w') => h w'
           end.

(** A computation that does not touch the state. *)
Definition lift {A} (r : result A) : M A := fun w => (r, w).

(** [d[k]] on a key that may be absent. *)
Definition item {A} (e : exn) (x : option A) : M A :=
  match x with
  | Some a => mret a
  | None => raise e
  end.

Definition db_find_one (query : doc -> bool) : M (option doc) :=
  fun w => (Ok (Mongo.find_one query (movies w)), w).

Definition db_insert_one (d : doc) : M unit :=
  fun w => (Ok tt, mkworld (Mongo.insert_one d (movies w)) (jobs w) (sent w)).

Definition db_update_one (query : doc -> bool) (update : doc -> doc) : M unit :=
  fun w => (Ok tt, mkworld (Mongo.update_one query update (movies w)) (jobs w) (sent w)).

(** [scheduler.add_job(.., id=id, replace_existing=True)] *)
Definition add_job (id : string) (j : Job.t) : M unit :=
  fun w => (Ok tt, mkworld (movies w) (<[id := j]> (jobs w)) (sent w)).

(** [f'del_{chat_id}_{new_msg_id}'] *)
Definition job_id (chat_id : Z) (new_msg_id : positive) : string :=
  "del_" +:+ pretty chat_id +:+ "_" +:+ pretty new_msg_id.

(** [timedelta(minutes=m)], in seconds. *)
Definition minutes (m : Z) : Z := 60 * m.

(** ** Events *)

(** A [video] or [document] object of a channel post. *)
Module Attachment.
Record t := mk { file_name : option string }.
End Attachment.

(** [data['channel_post']] *)
Module Post.
Record t := mk {
  chat_id : option Z;
  video : option Attachment.t;
  document : option Attachment.t;
  message_id : positive }.
End Post.

(** [data['message']] *)
Module Message.
Record t := mk { chat_id : Z; text : option string }.
End Message.

(** The JSON body of the request: the two keys the handler looks at. *)
Record update := mkupdate {
  channel_post : option Post.t;
  message : option Message.t }.

(** [jsonify(status=.., reason=..)] *)
Record reply := mkreply { status : string; reason : option string }.

Definition NOT_FOUND_TEXT : string := "Requested file/season not found.".
Definition COPY_FAILED_TEXT : string :=
  "Error sending file. It might have been deleted from the channel.".
Definition UNEXPECTED_TEXT : string := "An unexpected error occurred.".

(** [f"{n:02d}"] *)
Definition fmt_02d (n : Z) : string :=
  let s := pretty n in
  if (String.length s <? 2)%nat then "0" +:+ s else s.

(** ** The handlers *)

Section Handlers.

Variable cfg : config.
Variable E : env.

(** An HTTP call: logged, then answered by the environment. *)
Definition request (c : api_call) : M response :=
  fun w =>
    match telegram E c with
    | raises => (Raise RequestException, log [c] w)
    | returns r => (Ok r, log [c] w)
    end.

(** The body of the [try] block of [send_notification_to_channel]. *)
Definition notification_body (channel : string) (movie_data : doc) : M unit :=
  let title := title movie_data in
  let is_coming_soon := bool_decide ("Coming Soon" ∈ categories movie_data) in
  match Py.nonempty (poster movie_data) with
  | None => mret tt
  | Some poster_url =>
      if String.eqb poster_url PLACEHOLDER_POSTER then mret tt
      else
        '(caption, keyboard) ←
          (if is_coming_soon then mret (coming_soon_caption title, None)
           else
             release_date ← item AttributeError (release_date movie_data);
             let year := Py.nonempty (head (Py.split "-" release_date)) in
             let genres := Py.nonempty (Some (Py.join ", " (genres movie_data))) in
             let rating := if (Qnum (vote_average movie_data) =? 0) then None
                           else Some (vote_average movie_data) in
             mret (new_content_caption title year genres rating,
                   Some (_id movie_data)));
        response_data ← request (sendPhoto channel poster_url caption keyboard);
        if ok response_data then
          if bool_decide ("Trending Now" ∈ categories movie_data) && negb is_coming_soon
          then
            message_id ← item KeyError (result_message_id response_data);
            _ ← request (pinChatMessage channel message_id);
            mret tt
          else mret tt
        else mret tt
  end.

Definition send_notification_to_channel (movie_data : doc) : M unit :=
  match Py.nonempty (NOTIFICATION_CHANNEL_ID cfg) with
  | None => mret tt
  | Some channel => try_except (notification_body channel movie_data) (mret tt)
  end.

(** ["movie" if parsed_details['type'] == 'movie' else "series"] *)
Definition entry_type (parsed_details : Parsed.t) : string :=
  if String.eqb (Parsed.type parsed_details) "movie" then "movie" else "series".

(** [base_doc], with the [_id] that [insert_one] gives it. *)
Definition base_doc (tmdb_details : Tmdb.t) (parsed_details : Parsed.t) : doc :=
  {| _id := new_id E;
     tmdb_id := Tmdb.tmdb_id tmdb_details;
     title := Tmdb.title tmdb_details;
     overview := Tmdb.overview tmdb_details;
     poster := Tmdb.poster tmdb_details;
     release_date := Tmdb.release_date tmdb_details;
     vote_average := Tmdb.vote_average tmdb_details;
     genres := Tmdb.genres tmdb_details;
     trailer_key := Tmdb.trailer_key tmdb_details;
     type := entry_type parsed_details;
     languages := []; episodes := []; season_packs := []; files := [];
     categories := [] |}.

(** [shell_doc], with the [_id] that [insert_one] gives it. *)
Definition shell_doc (parsed_title : string) (parsed_details : Parsed.t) : doc :=
  {| _id := new_id E;
     tmdb_id := None;
     title := parsed_title;
     overview := Some "Details will be updated soon.";
     poster := Some PLACEHOLDER_POSTER;
     release_date := None;
     vote_average := 0%Q;
     genres := [];
     trailer_key := None;
     type := entry_type parsed_details;
     languages := []; episodes := []; season_packs := []; files := [];
     categories := [] |}.

(** The [else] branch of [get_or_create_content_entry]. *)
Definition get_or_create_shell (parsed_details : Parsed.t) : M (option doc) :=
  parsed_title ← item KeyError (Parsed.title parsed_details);
  existing_entry ← db_find_one (Mongo.by_shell_title parsed_title);
  match existing_entry with
  | None =>
      let shell_doc := shell_doc parsed_title parsed_details in
      _ ← db_insert_one shell_doc;
      newly_created_doc ← db_find_one (Mongo.by_id (_id shell_doc));
      match newly_created_doc with
      | Some d => _ ← send_notification_to_channel d; mret (Some d)
      | None => mret None
      end
  | Some existing_entry => mret (Some existing_entry)
  end.

Definition get_or_create_content_entry
    (tmdb_details : option Tmdb.t) (parsed_details : Parsed.t) : M (option doc) :=
  match tmdb_details with
  | Some details =>
      match Tmdb.tmdb_id details with
      | Some tmdb_id =>
          existing_entry ← db_find_one (Mongo.by_tmdb_id tmdb_id);
          match existing_entry with
          | None =>
              _ ← db_insert_one (base_doc details parsed_details);
              newly_created_doc ← db_find_one (Mongo.by_tmdb_id tmdb_id);
              match newly_created_doc with
              | Some d => _ ← send_notification_to_channel d; mret (Some d)
              | None => mret None
              end
          | Some existing_entry => mret (Some existing_entry)
          end
      | None => get_or_create_shell parsed_details
      end
  | None => get_or_create_shell parsed_details
  end.

(** The release merger: the statements of the handler from
    [update_op = {}] to the last [update_one]. *)
Definition merge_release
    (content_entry : doc) (parsed_info : Parsed.t) (message_id : positive) : M unit :=
  let this := Mongo.by_id (_id content_entry) in
  let addToSet := match Parsed.languages parsed_info with
                  | [] => None
                  | languages => Some languages
                  end in
  push ←
    (if String.eqb (Parsed.type parsed_info) "movie" then
       let new_file := File.mk (default "HD" (Parsed.quality parsed_info)) message_id in
       _ ← db_update_one this (Mongo.pull_files (File.quality new_file));
       mret (Some (Mongo.push_files new_file))
     else if String.eqb (Parsed.type parsed_info) "series_pack" then
       season ← item KeyError (Parsed.season parsed_info);
       quality ← item KeyError (Parsed.quality parsed_info);
       let new_pack := Pack.mk season quality message_id in
       _ ← db_update_one this
             (Mongo.pull_season_packs (Pack.season new_pack) (Pack.quality new_pack));
       mret (Some (Mongo.push_season_packs new_pack))
     else if String.eqb (Parsed.type parsed_info) "series" then
       season ← item KeyError (Parsed.season parsed_info);
       episode ← item KeyError (Parsed.episode parsed_info);
       let new_episode := Episode.mk season episode message_id in
       _ ← db_update_one this
             (Mongo.pull_episodes (Episode.season new_episode)
                                  (Episode.episode_number new_episode));
       mret (Some (Mongo.push_episodes new_episode))
     else mret None);
  let update_op := Mongo.mk_op addToSet push in
  if Mongo.is_empty update_op then mret tt
  else db_update_one this (Mongo.apply update_op).

(** The handler once the file name is parsed and the catalog has
    answered: reconcile, then merge. *)
Definition ingest
    (tmdb_data : option Tmdb.t) (parsed_info : Parsed.t) (message_id : positive) : M reply :=
  content_entry ← get_or_create_content_entry tmdb_data parsed_info;
  match content_entry with
  | None => mret (mkreply "error" (Some "db_entry_failed"))
  | Some content_entry =>
      _ ← merge_release content_entry parsed_info message_id;
      mret (mkreply "ok" None)
  end.

(** The [channel_post] branch of [telegram_webhook]. *)
Definition handle_channel_post (post : Post.t) : M reply :=
  if negb (String.eqb (Py.str (Post.chat_id post)) (ADMIN_CHANNEL_ID cfg))
  then mret (mkreply "ok" (Some "not_admin_channel"))
  else
    let file := match Post.video post with
                | Some v => Some v
                | None => Post.document post
                end in
    match file ≫= (fun f => Py.nonempty (Attachment.file_name f)) with
    | None => mret (mkreply "ok" (Some "no_file_in_post"))
    | Some filename =>
        match parse_filename E filename with
        | None => mret (mkreply "ok" (Some "parsing_failed"))
        | Some parsed_info =>
            match Py.nonempty (Parsed.title parsed_info) with
            | None => mret (mkreply "ok" (Some "parsing_failed"))
            | Some parsed_title =>
                let tmdb_data :=
                  get_tmdb_details_from_api E parsed_title (Parsed.type parsed_info)
                                            (Parsed.year parsed_info) in
                ingest tmdb_data parsed_info (Post.message_id post)
            end
        end
    end.

(** The deliverable a deep-link token points at: the id of the message
    to copy and [file_info_text].  [Ok None] when the matching branch finds
    nothing or no branch matches; [int] may raise. *)
Definition locate (content : doc) (payload_parts : list string)
    : result (option (positive * string)) :=
  match payload_parts with
  | [_; p1; p2] =>
      if String.prefix "S" p1 then
        match Py.int (String.substring 1 (String.length p1 - 1) p1) with
        | None => Raise ValueError
        | Some season_num =>
            let quality := p2 in
            match List.find (fun p => (Pack.season p =? season_num)
                                      && String.eqb (Pack.quality p) quality)
                            (season_packs content) with
            | Some pack =>
                Ok (Some (Pack.message_id pack,
                          "Complete Season " +:+ pretty season_num
                            +:+ " (" +:+ quality +:+ ")"))
            | None => Ok None
            end
        end
      else if String.eqb (type content) "series" then
        match Py.int p1, Py.int p2 with
        | Some s_num, Some e_num =>
            match List.find (fun ep => (Episode.season ep =? s_num)
                                       && (Episode.episode_number ep =? e_num))
                            (episodes content) with
            | Some episode =>
                Ok (Some (Episode.message_id episode,
                          "S" +:+ fmt_02d s_num +:+ "E" +:+ fmt_02d e_num))
            | None => Ok None
            end
        | _, _ => Raise ValueError
        end
      else Ok None
  | [_; p1] =>
      if String.eqb (type content) "movie" then
        let quality := p1 in
        match List.find (fun f => String.eqb (File.quality f) quality) (files content) with
        | Some file => Ok (Some (File.message_id file, "(" +:+ quality +:+ ")"))
        | None => Ok None
        end
      else Ok None
  | _ => Ok None
  end.

(** The body of the [try] block of the [/start] command. *)
Definition start_body (chat_id : Z) (token : string) : M unit :=
  let payload_parts := Py.split "_" token in
  let doc_id_str := default "" (head payload_parts) in
  oid ← item InvalidId (Bson.ObjectId doc_id_str);
  content ← db_find_one (Mongo.by_id oid);
  match content with
  | None => mret tt
  | Some content =>
      target ← lift (locate content payload_parts);
      match target with
      | Some (message_to_copy_id, file_info_text) =>
          res ← request (copyMessage chat_id (ADMIN_CHANNEL_ID cfg) message_to_copy_id
                                     (title content) file_info_text);
          if ok res then
            new_msg_id ← item KeyError (result_message_id res);
            add_job (job_id chat_id new_msg_id)
                    (Job.mk (now E + minutes 30) chat_id new_msg_id)
          else
            _ ← request (sendMessage chat_id COPY_FAILED_TEXT false);
            mret tt
      | None =>
          _ ← request (sendMessage chat_id NOT_FOUND_TEXT false);
          mret tt
      end
  end.

Definition welcome_message : string :=
  "👋 Welcome to " +:+ BOT_USERNAME cfg +:+ "!

Browse all our content on our website.".

(** The [message] branch of [telegram_webhook]. *)
Definition handle_message (message : Message.t) : M unit :=
  let chat_id := Message.chat_id message in
  let text := default "" (Message.text message) in
  if String.prefix "/start" text then
    match Py.split_ws text with
    | _ :: token :: _ =>
        try_except (start_body chat_id token)
                   (_ ← request (sendMessage chat_id UNEXPECTED_TEXT false); mret tt)
    | _ =>
        try_except (_ ← request (sendMessage chat_id welcome_message true); mret tt)
                   (_ ← request (sendMessage chat_id welcome_message false); mret tt)
    end
  else mret tt.

Definition telegram_webhook (data : update) : M reply :=
  match channel_post data with
  | Some post => handle_channel_post post
  | None =>
      match message data with
      | Some message => _ ← handle_message message; mret (mkreply "ok" None)
      | None => mret (mkreply "ok" None)
      end
  end.

(** [delete_message_after_delay]: the call is attempted, its failure is
    swallowed. *)
Definition delete_message_after_delay (chat_id : Z) (message_id : positive) : M unit :=
  try_except (_ ← request (deleteMessage chat_id message_id); mret tt) (mret tt).

(** The background scheduler (a [BackgroundScheduler] of APScheduler, an
    external library, with its default settings) when it wakes up at time
    [t], in seconds: every pending job whose [run_date] has come leaves the
    job store, its trigger being a date, and is run once, unless the
    scheduler is more than [misfire_grace_time] late for it: then the job
    is dropped without being run. *)
Definition due (t : Z) (j : Job.t) : bool := Job.run_date j <=? t.

Definition misfire_grace_time : Z := 1.

Definition in_time (t : Z) (j : Job.t) : bool := t - Job.run_date j <=? misfire_grace_time.

Definition run_jobs (l : list (string * Job.t)) : M unit :=
  foldr (fun kj rest =>
           _ ← delete_message_after_delay (Job.chat_id kj.2) (Job.message_id kj.2);
           rest)
        (mret tt) l.

Definition wake_up (t : Z) : M unit :=
  fun w =>
    let fired := List.filter (fun kj => due t kj.2) (map_to_list (jobs w)) in
    run_jobs (List.filter (fun kj => in_time t kj.2) fired)
      (mkworld (movies w) (filter (fun kj => due t kj.2 = false) (jobs w)) (sent w)).

End Handlers.

(** ** The pages of the site *)

(** [escape_markdown]: a backslash before each character that MarkdownV2
    reserves. *)
Definition markdown_reserved (c : ascii) : bool :=
  bool_decide (c ∈ list_ascii_of_string "_*[]()~`>#+-=|{}.!").

Definition backslash : ascii := ascii_of_N 92.

Fixpoint escape (text : string) : string :=
  match text with
  | EmptyString => EmptyString
  | String c s =>
      if markdown_reserved c then String backslash (String c (escape s))
      else String c (escape s)
  end.

(** [None] stands for an argument that is not a string. *)
Definition escape_markdown (text : option string) : string :=
  match text with
  | Some text => escape text
  | None => ""
  end.

(** The patterns of [extract_youtube_id], matched by hand.  [strip p s]
    is [s] without the literal [p] at its front. *)
Module Re.

Fixpoint strip (p s : string) : option string :=
  match p, s with
  | EmptyString, _ => Some s
  | String a p', String b s' => if Ascii.eqb a b then strip p' s' else None
  | String _ _, EmptyString => None
  end.

(** [(?:p)?] at the front of [s]: the rests to go on with, the greedy
    choice first. *)
Definition optional (p s : string) : list string :=
  match strip p s with
  | Some s' => [s'; s]
  | None => [s]
  end.

(** [(?:https?:\/\/)?] *)
Definition scheme (s : string) : list string :=
  match strip "http" s with
  | Some s1 => omap (strip "://") (optional "s" s1) ++ [s]
  | None => [s]
  end.

(** [[a-zA-Z0-9_-]] *)
Definition id_char (c : ascii) : bool :=
  let n := N_of_ascii c in
  ((97 <=? n) && (n <=? 122) || (65 <=? n) && (n <=? 90) || (48 <=? n) && (n <=? 57)
   || (n =? 95) || (n =? 45))%N.

(** [([a-zA-Z0-9_-]{11})] at the front of [s]: the group. *)
Definition group (s : string) : option string :=
  let g := String.substring 0 11 s in
  if (String.length g =? 11)%nat && forallb id_char (list_ascii_of_string g)
  then Some g else None.

(** The first success among the candidates, in backtracking order. *)
Fixpoint first_of {A} (f : string → option A) (candidates : list string) : option A :=
  match candidates with
  | [] => None
  | s :: rest =>
      match f s with
      | Some a => Some a
      | None => first_of f rest
      end
  end.

(** A match of [(?:https?:\/\/)?(?:www\.)?<marker>([a-zA-Z0-9_-]{11})] that
    starts at the front of [s]: its group. *)
Definition match_here (marker s : string) : option string :=
  first_of (λ t, first_of (λ u, strip marker u ≫= group) (optional "www." t)) (scheme s).

(** [re.search(pattern, s).group(1)]: the leftmost match. *)
Fixpoint search (marker s : string) : option string :=
  match match_here marker s with
  | Some g => Some g
  | None =>
      match s with
      | EmptyString => None
      | String _ s' => search marker s'
      end
  end.

End Re.

Definition youtube_markers : list string :=
  ["youtube.com/watch?v="; "youtu.be/"; "youtube.com/embed/"].

Fixpoint first_match (markers : list string) (url : string) : option string :=
  match markers with
  | [] => None
  | marker :: rest =>
      match Re.search marker url with
      | Some g => Some g
      | None => first_match rest url
      end
  end.

(** [extract_youtube_id]; [None] stands for [None] and for an argument
    that is not a string. *)
Definition extract_youtube_id (url : option string) : option string :=
  match Py.nonempty url with
  | Some url => first_match youtube_markers url
  | None => None
  end.

(** The value that the edit form shows in the trailer field. *)
Definition trailer_link_value (trailer_key : option string) : string :=
  "https://www.youtube.com/watch?v=" +:+ default "" trailer_key.

(** The rows of the home page. *)
Definition homepage_categories : list string :=
  ["Trending Now"; "Latest Movies"; "Hindi"; "Bengali"; "English & Hollywood";
   "Web Series"; "Recently Added"].

(** [category_movies] for one [category] of the loop of [home]. *)
Definition category_movies (category : string) (movies : list doc) : list doc :=
  Mongo.limit 12
    (Mongo.sort_id_desc
       (Mongo.find (Py.dict [("categories", Mongo.has category);
                               ("categories", Mongo.nin ["Coming Soon"])])
                    movies)).

(** [home_content], before [process_movie_list]: the rows that are not
    empty, in the order of the loop. *)
Definition home_content (movies : list doc) : list (string * list doc) :=
  foldl (λ content category,
           match category_movies category movies with
           | [] => content
           | row => content ++ [(category, row)]
           end)
        [] homepage_categories.

(** [results] of [category_page]. *)
Definition category_page (category_name : string) (movies : list doc) : list doc :=
  Mongo.sort_id_desc (Mongo.find (Py.dict [("categories", Mongo.has category_name)]) movies).

(** ** The admin routes *)

(** [request.authorization] for Basic credentials; a part that the header
    does not give is [None]. *)
Record authorization := mkauth { username : option string; password : option string }.

Record admin_config := mkadmin { ADMIN_USERNAME : string; ADMIN_PASSWORD : string }.

(** What a route answers with. *)
Inductive page :=
| Unauthorized
| redirect (endpoint : string)
| Rendered (movie : doc)
| NotFound
| BadRequest.

Section Admin.

Variable adm : admin_config.

Definition check_auth (username password : option string) : bool :=
  bool_decide (username = Some (ADMIN_USERNAME adm))
  && bool_decide (password = Some (ADMIN_PASSWORD adm)).

(** [authenticate()] *)
Definition authenticate : page := Unauthorized.

Definition requires_auth (f : M page) (auth : option authorization) : M page :=
  match auth with
  | None => mret authenticate
  | Some auth =>
      if negb (check_auth (username auth) (password auth)) then mret authenticate
      else f
  end.

Definition db_delete_one (query : doc → bool) : M unit :=
  fun w => (Ok tt, mkworld (Mongo.delete_one query (movies w)) (jobs w) (sent w)).

(** [/delete_movie/<movie_id>] *)
Definition delete_movie (movie_id : string) : option authorization → M page :=
  requires_auth
    (oid ← item InvalidId (Bson.ObjectId movie_id);
     _ ← db_delete_one (Mongo.by_id oid);
     mret (redirect "manage_content")).

End Admin.

(** [/movie/<movie_id>]: any exception of the lookup is answered 400. *)
Definition movie_detail (movie_id : string) : M page :=
  try_except
    (oid ← item InvalidId (Bson.ObjectId movie_id);
     movie ← db_find_one (Mongo.by_id oid);
     match movie with
     | Some movie => mret (Rendered movie)
     | None => mret NotFound
     end)
    (mret BadRequest).

(** ** Properties of documents, calls and worlds used in the statements *)

(** At most one element of [files] per quality. *)
Definition unique_qualities (d : doc) : Prop := NoDup (File.quality <$> files d).

(** At most one element of [episodes] per (season, episode) pair. *)
Definition unique_episodes (d : doc) : Prop := NoDup (Episode.key <$> episodes d).

(** At most one element of [season_packs] per (season, quality) pair. *)
Definition unique_packs (d : doc) : Prop := NoDup (Pack.key <$> season_packs d).

(** No stored entry answers the query that reconciliation makes for the
    resolution [r] and the parsed title [t]. *)
Definition no_entry_for (r : option Tmdb.t) (t : string) (l : list doc) : Prop :=
  match r ≫= Tmdb.tmdb_id with
  | Some i => ∀ d, d ∈ l → tmdb_id d ≠ Some i
  | None => ∀ d, d ∈ l → Mongo.by_shell_title t d = false
  end.

(** The document that reconciliation creates for [r] and the parsed
    title [t]. *)
Definition created (E : env) (r : option Tmdb.t) (t : string) (p : Parsed.t) : doc :=
  match r with
  | Some details =>
      match Tmdb.tmdb_id details with
      | Some _ => base_doc E details p
      | None => shell_doc E t p
      end
  | None => shell_doc E t p
  end.

(** The keys that [merge_release] reads with [parsed_info[..]] are there. *)
Definition complete (p : Parsed.t) : Prop :=
  (Parsed.type p = "series_pack" → is_Some (Parsed.season p) ∧ is_Some (Parsed.quality p))
  ∧ (Parsed.type p = "series" → is_Some (Parsed.season p) ∧ is_Some (Parsed.episode p)).

Definition is_teaser (c : api_call) : bool :=
  match c with
  | sendPhoto _ _ (coming_soon_caption _) _ => true
  | _ => false
  end.

Definition is_pin (c : api_call) : bool :=
  match c with
  | pinChatMessage _ _ => true
  | _ => false
  end.

Definition is_copy (c : api_call) : bool :=
  match c with
  | copyMessage _ _ _ _ _ => true
  | _ => false
  end.

(** Every pending job sits under the id that the handler derives from its
    arguments. *)
Definition keyed (js : gmap string Job.t) : Prop :=
  ∀ k j, js !! k = Some j → k = job_id (Job.chat_id j) (Job.message_id j).

Definition ok_reply : reply := mkreply "ok" None.

(** A [/start] message carrying [text], as the webhook receives it. *)
Definition start_update (chat_id : Z) (text : string) : update :=
  mkupdate None (Some (Message.mk chat_id (Some text))).

(** The call is neither the teaser nor a pin. *)
Definition plain (c : api_call) : Prop := is_teaser c = false ∧ is_pin c = false.

(** The world after [d] was inserted. *)
Definition inserted (d : doc) (w : world) : world :=
  mkworld (Mongo.insert_one d (movies w)) (jobs w) (sent w).

(** The [$addToSet] entry of [update_op]. *)
Definition addToSet_of (p : Parsed.t) : option (list string) :=
  match Parsed.languages p with
  | [] => None
  | languages => Some languages
  end.

(** The net effect of the merge on the stored document. *)
Definition merged (p : Parsed.t) (m : positive) (d : doc) : doc :=
  if String.eqb (Parsed.type p) "movie" then
    let q := default "HD" (Parsed.quality p) in
    Mongo.apply (Mongo.mk_op (addToSet_of p) (Some (Mongo.push_files (File.mk q m))))
                (Mongo.pull_files q d)
  else if String.eqb (Parsed.type p) "series_pack" then
    match Parsed.season p, Parsed.quality p with
    | Some s, Some q =>
        Mongo.apply (Mongo.mk_op (addToSet_of p)
                                 (Some (Mongo.push_season_packs (Pack.mk s q m))))
                    (Mongo.pull_season_packs s q d)
    | _, _ => d
    end
  else if String.eqb (Parsed.type p) "series" then
    match Parsed.season p, Parsed.episode p with
    | Some s, Some e =>
        Mongo.apply (Mongo.mk_op (addToSet_of p)
                                 (Some (Mongo.push_episodes (Episode.mk s e m))))
                    (Mongo.pull_episodes s e d)
    | _, _ => d
    end
  else Mongo.apply (Mongo.mk_op (addToSet_of p) None) d.

(** A channel post of the source channel that carries the file name
    [filename]. *)
Definition carries (cfg : config) (post : Post.t) (filename : string) : Prop :=
  Py.str (Post.chat_id post) = ADMIN_CHANNEL_ID cfg
  ∧ match Post.video post with
    | Some v => Py.nonempty (Attachment.file_name v) = Some filename
    | None => Post.document post ≫= (λ f, Py.nonempty (Attachment.file_name f))
              = Some filename
    end.

(** The attempt to send [text] to [chat]. *)
Definition notice (chat : Z) (text : string) : api_call := sendMessage chat text false.

(** The world after the job for the copy [n] in [chat] was scheduled. *)
Definition scheduled (E : env) (chat : Z) (n : positive) (w : world) : world :=
  mkworld (movies w)
          (<[job_id chat n := Job.mk (now E + minutes 30) chat n]> (jobs w))
          (sent w).

(** [text] is a [/start] command whose token the handler splits at ["_"]
    into [parts], the first of which is the id [oid]. *)
Definition start_token (text : string) (parts : list string) (oid : Bson.t) : Prop :=
  String.prefix "/start" text = true
  ∧ (∃ cmd token rest, Py.split_ws text = cmd :: token :: rest
                       ∧ Py.split "_" token = parts)
  ∧ Bson.ObjectId (default "" (head parts)) = Some oid.




(** The call that a fired job makes. *)
Definition deletion (kj : string * Job.t) : api_call :=
  deleteMessage (Job.chat_id kj.2) (Job.message_id kj.2).

(** Every character of [s] satisfies [P]. *)
Fixpoint all_chars (P : ascii → bool) (s : string) : bool :=
  match s with
  | EmptyString => true
  | String c s' => P c && all_chars P s'
  end.

(** [s] can stand as a part of a token: it holds neither the separator
    ["_"] nor white space. *)
Definition part (s : string) : bool :=
  all_chars (λ c, negb (Ascii.eqb c "_")) s
  && forallb (λ g, negb (Py.is_space g)) (Utf8.chars s).

(** The [/start] command that the detail page links to for a season pack. *)
Definition pack_link (id_str sd quality : string) : string :=
  "/start " +:+ (id_str +:+ ("_S" +:+ (sd +:+ ("_" +:+ quality)))).

(** The invariants of the data model on one entry. *)
Definition well_formed (d : doc) : Prop :=
  unique_qualities d ∧ unique_episodes d ∧ unique_packs d ∧ NoDup (languages d).

(** ** Deep links, reconciliation and histories, for the statements *)

(** The number that the hexadecimal digits of [s] write, after [acc]. *)
Fixpoint hexs (s : string) (acc : N) : option N :=
  match s with
  | EmptyString => Some acc
  | String c s' =>
      match Bson.hex c with
      | Some d => hexs s' (16 * acc + d)%N
      | None => None
      end
  end.

(** One hexadecimal digit of [str(ObjectId)]. *)
Definition hex_char (d : N) : ascii :=
  ascii_of_N (if (d <? 10)%N then 48 + d else 87 + d).

(** The [k] lowest hexadecimal digits of [n], most significant first. *)
Fixpoint hex_digits (k : nat) (n : N) : string :=
  match k with
  | O => ""
  | S k' => hex_digits k' (n / 16) +:+ String (hex_char (n mod 16)) ""
  end.

(** [str(oid)] for an [ObjectId], what [{{ movie._id }}] renders: 24
    hexadecimal digits. *)
Definition oid_str (oid : N) : string := hex_digits 24 oid.

(** The message that following [https://t.me/<bot>?start=<payload>] sends. *)
Definition start_command (payload : string) : string := "/start " +:+ payload.

(** [?start={{ movie._id }}_{{ file.quality }}] *)
Definition file_link (id_str quality : string) : string :=
  start_command (id_str +:+ ("_" +:+ quality)).

(** [?start={{ movie._id }}_{{ ep.season }}_{{ ep.episode_number }}] *)
Definition episode_link (id_str sd ed : string) : string :=
  start_command (id_str +:+ ("_" +:+ (sd +:+ ("_" +:+ ed)))).

(** The link that the detail page of the entry [oid] shows for the
    release [p] once it is stored. *)
Definition release_link (oid : N) (p : Parsed.t) : option string :=
  if String.eqb (Parsed.type p) "movie" then
    Some (file_link (oid_str oid) (default "HD" (Parsed.quality p)))
  else if String.eqb (Parsed.type p) "series_pack" then
    match Parsed.season p, Parsed.quality p with
    | Some s, Some q => Some (pack_link (oid_str oid) (pretty s) q)
    | _, _ => None
    end
  else if String.eqb (Parsed.type p) "series" then
    match Parsed.season p, Parsed.episode p with
    | Some s, Some e => Some (episode_link (oid_str oid) (pretty s) (pretty e))
    | _, _ => None
    end
  else None.

(** The query by which reconciliation looks for the entry of a release:
    the catalog id when the catalog gave one, the parsed title among the
    entries without catalog id otherwise. *)
Definition query_of (r : option Tmdb.t) (p : Parsed.t) : option (doc → bool) :=
  match r ≫= Tmdb.tmdb_id with
  | Some i => Some (Mongo.by_tmdb_id i)
  | None => Mongo.by_shell_title <$> Parsed.title p
  end.

(** What no webhook event changes in a stored entry. *)
Definition frozen_fields (d : doc) := (_id d, metadata d, overview d, trailer_key d, categories d).

(** What MarkdownV2 reads [s] as when [s] is meant to hold no markup: a
    backslash makes the next character literal; [None] when a reserved
    character stands unescaped or a backslash ends the text. *)
Fixpoint plain_text (s : string) : option string :=
  match s with
  | EmptyString => Some EmptyString
  | String c s' =>
      if Ascii.eqb c backslash then
        match s' with
        | String c' s'' => String c' <$> plain_text s''
        | EmptyString => None
        end
      else if markdown_reserved c then None
      else String c <$> plain_text s'
  end.

(** What happens to the application, one request or one wake-up of the
    scheduler at a time.  A handler that raises leaves the world as it was
    at the raise. *)
Inductive event :=
| Webhook (E : env) (data : update)
| DeleteMovie (movie_id : string) (auth : option authorization)
| WakeUp (E : env) (t : Z).

Definition step (cfg : config) (adm : admin_config) (ev : event) (w : world) : world :=
  match ev with
  | Webhook E data => (telegram_webhook cfg E data w).2
  | DeleteMovie movie_id auth => (delete_movie adm movie_id auth w).2
  | WakeUp E t => (wake_up E t w).2
  end.

Definition run (cfg : config) (adm : admin_config) (history : list event) (w : world) : world :=
  foldl (λ w ev, step cfg adm ev w) w history.

(** ** A sample configuration and store

    One shell entry for a series and one catalog entry for a movie; an API
    that accepts every call and one that refuses every call. *)

Module Sample.
Definition cfg : config := mkconfig "-100123" (Some "@news") "mybot".
Definition details : Tmdb.t :=
  Tmdb.mk (Some 603%positive) "Example Movie" (Some "A film.") (Some "https://img/p.jpg")
          (Some "2021-03-04") (7.5)%Q ["Action"; "Drama"] None.
Definition parsed (title ty q : string) (s e : option Z) : Parsed.t :=
  Parsed.mk (Some title) ty (Some 2021) s e (Some q) ["Hindi"].
Definition accepts (c : api_call) : http response := returns (mkresp true (Some 55%positive)).
Definition refuses (c : api_call) : http response := returns (mkresp false None).
Definition E (fresh : N) (t : Z) (api : api_call → http response) : env :=
  mkenv (λ _, None) (λ _ _ _, None) fresh t api.
Definition show : doc :=
  mkdoc 3 None "Show Name" (Some "Details will be updated soon.") (Some PLACEHOLDER_POSTER)
        None 0 [] None "series" ["English"]
        [Episode.mk 1 3 20; Episode.mk 1 4 21] [Pack.mk 2 "1080p" 30] [] [].
Definition film : doc :=
  mkdoc 4 (Some 603%positive) "Example Movie" (Some "A film.") (Some "https://img/p.jpg")
        (Some "2021-03-04") (7.5)%Q ["Action"; "Drama"] None "movie" []
        [] [] [File.mk "720p" 40] ["Trending Now"].
Definition w0 : world := mkworld [show] ∅ [].
Definition w1 : world := mkworld [show; film] ∅ [].
Definition pack_link : string := pack_link "000000000000000000000003" "2" "1080p".
(** U+00A0, the no-break space. *)
Definition nbsp : string := String "194" (String "160" "").
End Sample.

(** ** A parser and a catalog for the sample store

    The file name and the title that the samples below use. *)

Module Demo.
Definition parse_filename (filename : string) : option Parsed.t :=
  if String.eqb filename "Example.Movie.2021.1080p.mkv" then
    Some (Sample.parsed "Example Movie" "movie" "1080p" None None)
  else None.
Definition catalog (title type : string) (year : option Z) : option Tmdb.t :=
  if String.eqb title "Example Movie" then Some Sample.details else None.
Definition E (fresh : N) (t : Z) (api : api_call → http response) : env :=
  mkenv parse_filename catalog fresh t api.
Definition post (filename : string) (m : positive) : update :=
  mkupdate (Some (Post.mk (Some (-100123)) None (Some (Attachment.mk (Some filename))) m)) None.
Definition adm : admin_config := mkadmin "admin" "secret".
Definition login : option authorization := Some (mkauth (Some "admin") (Some "secret")).
Definition film_id : string := "000000000000000000000004".
Definition show_id : string := "000000000000000000000003".
End Demo.

(** * Proofs *)

(** ** The store *)

Section Store.

Implicit Types (l : list doc) (d : doc) (q : doc → bool) (f : doc → doc) (i : N).

Lemma find_one_elem q l d : Mongo.find_one q l = Some d → d ∈ l ∧ q d = true.
Proof.
  unfold Mongo.find_one. intros H. apply find_some in H as [H1 H2].
  split; [by apply list_elem_of_In | done].
Qed.

Lemma find_one_none q l : Mongo.find_one q l = None ↔ ∀ d, d ∈ l → q d = false.
Proof.
  unfold Mongo.find_one. split.
  - intros H d Hd. apply (find_none _ _ H). by apply list_elem_of_In.
  - intros H. induction l as [|x l IH]; [done|]. simpl.
    rewrite (H x) by left. apply IH. intros d Hd. apply H. by right.
Qed.

Lemma find_one_app_last q l d :
  Mongo.find_one q l = None → q d = true →
  Mongo.find_one q (Mongo.insert_one d l) = Some d.
Proof.
  unfold Mongo.find_one, Mongo.insert_one. intros Hn Hd.
  induction l as [|x l IH]; simpl in *.
  - by rewrite Hd.
  - destruct (q x); [done | by apply IH].
Qed.

Lemma update_one_none q f l : Mongo.find_one q l = None → Mongo.update_one q f l = l.
Proof.
  unfold Mongo.find_one. induction l as [|x l IH]; simpl; [done|].
  destruct (q x); [done|]. intros H. by rewrite IH.
Qed.

Lemma update_one_app_last q f l d :
  Mongo.find_one q l = None → q d = true →
  Mongo.update_one q f (l ++ [d]) = l ++ [f d].
Proof.
  unfold Mongo.find_one. intros Hn Hd. induction l as [|x l IH]; simpl in *.
  - by rewrite Hd.
  - destruct (q x); [done|]. by rewrite IH.
Qed.

Lemma find_update_one q f l d :
  Mongo.find_one q l = Some d → q (f d) = true →
  Mongo.find_one q (Mongo.update_one q f l) = Some (f d).
Proof.
  unfold Mongo.find_one. intros Hs Hq. induction l as [|x l IH]; simpl in *; [done|].
  destruct (q x) eqn:Hx.
  - injection Hs as ->. simpl. by rewrite Hq.
  - simpl. rewrite Hx. by apply IH.
Qed.

(** Two updates of the same document are one update. *)
Lemma update_one_twice q f g l :
  (∀ d, q (f d) = q d) →
  Mongo.update_one q g (Mongo.update_one q f l) = Mongo.update_one q (g ∘ f) l.
Proof.
  intros Hq. induction l as [|x l IH]; simpl; [done|].
  destruct (q x) eqn:Hx; simpl.
  - by rewrite Hq, Hx.
  - by rewrite Hx, IH.
Qed.

Lemma update_one_Forall (P : doc → Prop) q f l :
  (∀ d, P d → P (f d)) → Forall P l → Forall P (Mongo.update_one q f l).
Proof.
  intros Hf. induction 1 as [|x l Hx Hl IH]; simpl; [constructor|].
  destruct (q x); constructor; auto.
Qed.

(** An update that keeps [g d] keeps the list of the [g d]. *)
Lemma update_one_frame {B} (g : doc → B) q f l :
  (∀ d, g (f d) = g d) → g <$> Mongo.update_one q f l = g <$> l.
Proof.
  intros Hf. induction l as [|x l IH]; csimpl; [done|].
  destruct (q x); csimpl; [by rewrite Hf | by rewrite IH].
Qed.

Lemma by_id_fresh i l : i ∉ (_id <$> l) → Mongo.find_one (Mongo.by_id i) l = None.
Proof.
  intros Hi. apply find_one_none. intros d Hd. unfold Mongo.by_id.
  apply bool_decide_eq_false. intros <-. apply Hi.
  by apply list_elem_of_fmap_2.
Qed.

(** The pattern made from a title matches this title. *)
Lemma caseless_refl t : Mongo.caseless t t = true.
Proof. unfold Mongo.caseless. by apply bool_decide_eq_true. Qed.

Lemma by_shell_title_self t d :
  title d = t → tmdb_id d = None → Mongo.by_shell_title t d = true.
Proof.
  intros <- Hi. unfold Mongo.by_shell_title. rewrite caseless_refl.
  by rewrite bool_decide_eq_true_2.
Qed.

End Store.

(** ** The monad and the call log *)

Lemma log_nil w : log [] w = w.
Proof. destruct w. unfold log. simpl. by rewrite app_nil_r. Qed.

Lemma log_log a b w : log b (log a w) = log (a ++ b) w.
Proof. unfold log. simpl. by rewrite app_assoc. Qed.

Lemma log_movies cs w : movies (log cs w) = movies w.
Proof. done. Qed.

Lemma log_jobs cs w : jobs (log cs w) = jobs w.
Proof. done. Qed.

Lemma bind_ok {A B} (m : M A) (k : A → M B) w a w' :
  m w = (Ok a, w') → (m ≫= k) w = k a w'.
Proof. unfold mbind, M_bind. by intros ->. Qed.

Lemma bind_raise {A B} (m : M A) (k : A → M B) w e w' :
  m w = (Raise e, w') → (m ≫= k) w = (Raise e, w').
Proof. unfold mbind, M_bind. by intros ->. Qed.

(** Unfold one layer of monadic plumbing. *)
Ltac munfold :=
  unfold item, raise, lift, try_except,
         db_find_one, db_insert_one, db_update_one, add_job in *;
  unfold mbind, M_bind, mret, M_ret in *; cbn beta iota.

(** Close a goal [∃ r cs, (x, W) = (r, log cs w) ∧ _] where [W] is [w]
    under a stack of [log]s. *)
Ltac close_log :=
  rewrite ?log_log;
  first [ eexists _, _; split; [reflexivity|]
        | eexists _, []; rewrite log_nil; split; [reflexivity|] ].

(** ** Announcements *)

Section Notification.

Variable cfg : config.
Variable E : env.

Lemma notification_body_spec channel d w :
  ∃ r cs, notification_body E channel d w = (r, log cs w)
          ∧ (poster d = Some PLACEHOLDER_POSTER → cs = [])
          ∧ (categories d = [] → Forall plain cs).
Proof.
  unfold notification_body.
  destruct (Py.nonempty (poster d)) as [poster_url|] eqn:Hp; munfold.
  2:{ close_log. split; [done | by constructor]. }
  destruct (String.eqb poster_url PLACEHOLDER_POSTER) eqn:Hph.
  { close_log. split; [done | by constructor]. }
  assert (Hne : poster d ≠ Some PLACEHOLDER_POSTER).
  { intros Heq. rewrite Heq in Hp. simpl in Hp. injection Hp as <-.
    by rewrite String.eqb_refl in Hph. }
  destruct (bool_decide ("Coming Soon" ∈ categories d)) eqn:Hcs.
  - (* the teaser needs the tag *)
    apply bool_decide_eq_true in Hcs.
    unfold request. rewrite andb_false_r.
    destruct (telegram E _) as [|[[] ?]]; close_log;
      (split; [done | intros Hc; rewrite Hc in Hcs; by apply elem_of_nil in Hcs]).
  - destruct (release_date d) as [rd|]; simpl.
    2:{ close_log. split; [done | by constructor]. }
    rewrite andb_true_r. unfold request.
    destruct (telegram E _) as [|[[] mid]]; simpl.
    + close_log. split; [done|]. intros _. by repeat constructor.
    + destruct (bool_decide ("Trending Now" ∈ categories d)) eqn:Htr.
      * apply bool_decide_eq_true in Htr.
        destruct mid as [mid|]; simpl;
          [destruct (telegram E _)|]; close_log;
          (split; [done | intros Hc; rewrite Hc in Htr; by apply elem_of_nil in Htr]).
      * close_log. split; [done|]. intros _. by repeat constructor.
    + close_log. split; [done|]. intros _. by repeat constructor.
Qed.

(** An announcement never raises and touches nothing but the call log;
    it makes no call for a placeholder poster, and for an entry without
    categories it makes neither a teaser nor a pin. *)
Lemma send_notification_spec d w :
  ∃ cs, send_notification_to_channel cfg E d w = (Ok tt, log cs w)
        ∧ (poster d = Some PLACEHOLDER_POSTER → cs = [])
        ∧ (categories d = [] → Forall plain cs).
Proof.
  unfold send_notification_to_channel.
  destruct (Py.nonempty (NOTIFICATION_CHANNEL_ID cfg)) as [channel|].
  - destruct (notification_body_spec channel d w) as (r & cs & Hr & H1 & H2).
    exists cs. unfold try_except. rewrite Hr. split; [|done].
    destruct r as [[]|]; done.
  - exists []. rewrite log_nil. split; [done|]. split; [done | by constructor].
Qed.

End Notification.

(** ** Reconciliation *)

Section Reconcile.

Variable cfg : config.
Variable E : env.

Lemma shell_found p t e w :
  Parsed.title p = Some t →
  Mongo.find_one (Mongo.by_shell_title t) (movies w) = Some e →
  get_or_create_shell cfg E p w = (Ok (Some e), w).
Proof. intros Ht He. unfold get_or_create_shell. rewrite Ht. munfold. by rewrite He. Qed.

Lemma shell_new p t w :
  Parsed.title p = Some t →
  Mongo.find_one (Mongo.by_shell_title t) (movies w) = None →
  new_id E ∉ (_id <$> movies w) →
  get_or_create_shell cfg E p w
  = (Ok (Some (shell_doc E t p)), inserted (shell_doc E t p) w).
Proof.
  intros Ht Hn Hfresh. unfold get_or_create_shell. rewrite Ht. munfold. rewrite Hn.
  cbn [movies]. rewrite find_one_app_last.
  - destruct (send_notification_spec cfg E (shell_doc E t p)
                (mkworld (Mongo.insert_one (shell_doc E t p) (movies w)) (jobs w) (sent w)))
      as (cs & -> & Hcs & _).
    rewrite (Hcs eq_refl), log_nil. done.
  - by apply by_id_fresh.
  - unfold Mongo.by_id. by apply bool_decide_eq_true.
Qed.

Lemma tmdb_found details i p e w :
  Tmdb.tmdb_id details = Some i →
  Mongo.find_one (Mongo.by_tmdb_id i) (movies w) = Some e →
  get_or_create_content_entry cfg E (Some details) p w = (Ok (Some e), w).
Proof.
  intros Hi He. unfold get_or_create_content_entry. rewrite Hi. munfold. by rewrite He.
Qed.

Lemma tmdb_new details i p w :
  Tmdb.tmdb_id details = Some i →
  Mongo.find_one (Mongo.by_tmdb_id i) (movies w) = None →
  ∃ cs, get_or_create_content_entry cfg E (Some details) p w
        = (Ok (Some (base_doc E details p)), log cs (inserted (base_doc E details p) w))
        ∧ Forall plain cs
        ∧ (poster (base_doc E details p) = Some PLACEHOLDER_POSTER → cs = []).
Proof.
  intros Hi Hn. unfold get_or_create_content_entry. rewrite Hi. munfold. rewrite Hn.
  cbn [movies]. rewrite find_one_app_last.
  - destruct (send_notification_spec cfg E (base_doc E details p)
                (mkworld (Mongo.insert_one (base_doc E details p) (movies w)) (jobs w) (sent w)))
      as (cs & -> & Hph & Hcs).
    exists cs. split; [done|]. split; [by apply Hcs | done].
  - done.
  - unfold Mongo.by_tmdb_id. apply bool_decide_eq_true. by simpl.
Qed.

Lemma no_shell_for t l :
  (∀ d, d ∈ l → Mongo.by_shell_title t d = false) →
  Mongo.find_one (Mongo.by_shell_title t) l = None.
Proof. intros H. by apply find_one_none. Qed.

Lemma no_tmdb_for i l :
  (∀ d, d ∈ l → tmdb_id d ≠ Some i) → Mongo.find_one (Mongo.by_tmdb_id i) l = None.
Proof.
  intros H. apply find_one_none. intros d Hd. unfold Mongo.by_tmdb_id.
  apply bool_decide_eq_false. by apply H.
Qed.

(** A title that no stored entry answers for is created, at the end of
    the collection, without a teaser and without a pin. *)
Lemma reconcile_creates r p t w :
  Parsed.title p = Some t →
  no_entry_for r t (movies w) →
  new_id E ∉ (_id <$> movies w) →
  ∃ cs, get_or_create_content_entry cfg E r p w
        = (Ok (Some (created E r t p)), log cs (inserted (created E r t p) w))
        ∧ Forall plain cs
        ∧ (poster (created E r t p) = Some PLACEHOLDER_POSTER → cs = []).
Proof.
  intros Ht Hno Hfresh. unfold no_entry_for in Hno. unfold created.
  destruct r as [details|]; simpl in Hno;
    [destruct (Tmdb.tmdb_id details) as [i|] eqn:Hi; simpl in Hno|].
  - apply (tmdb_new details i); [done | by apply no_tmdb_for].
  - exists []. rewrite log_nil. unfold get_or_create_content_entry. rewrite Hi.
    split; [|split; [constructor | done]].
    apply shell_new; [done | by apply no_shell_for | done].
  - exists []. rewrite log_nil. unfold get_or_create_content_entry.
    split; [|split; [constructor | done]].
    apply shell_new; [done | by apply no_shell_for | done].
Qed.

End Reconcile.

(** The entry that reconciliation created is the one it finds next time. *)
Lemma reconcile_finds_created cfg E E' r p p' t d l js cs :
  Parsed.title p' = Some t →
  no_entry_for r t l →
  tmdb_id d = tmdb_id (created E r t p) →
  title d = title (created E r t p) →
  get_or_create_content_entry cfg E' r p' (mkworld (l ++ [d]) js cs)
  = (Ok (Some d), mkworld (l ++ [d]) js cs).
Proof.
  intros Ht Hno Htm Hti. unfold no_entry_for in Hno. unfold created in *.
  destruct r as [details|]; simpl in Hno;
    [destruct (Tmdb.tmdb_id details) as [i|] eqn:Hi; simpl in Hno|].
  - apply (tmdb_found cfg E' details i); [done|]. simpl.
    apply find_one_app_last; [by apply no_tmdb_for|].
    unfold Mongo.by_tmdb_id. apply bool_decide_eq_true. by rewrite Htm.
  - unfold get_or_create_content_entry. rewrite Hi.
    apply (shell_found cfg E' p' t); [done|]. simpl.
    apply find_one_app_last; [by apply no_shell_for|].
    apply by_shell_title_self; [by rewrite Hti | by rewrite Htm].
  - unfold get_or_create_content_entry.
    apply (shell_found cfg E' p' t); [done|]. simpl.
    apply find_one_app_last; [by apply no_shell_for|].
    apply by_shell_title_self; [by rewrite Hti | by rewrite Htm].
Qed.


(** ** The release merger *)

(** [$addToSet] with [$each] *)
Section AddEach.

Implicit Types new old : list string.

Lemma add_each_nil old : Mongo.add_each [] old = old.
Proof. done. Qed.

Lemma add_each_cons x new old :
  Mongo.add_each (x :: new) old
  = Mongo.add_each new (if bool_decide (x ∈ old) then old else old ++ [x]).
Proof. done. Qed.

Lemma add_each_prefix new old : old `prefix_of` Mongo.add_each new old.
Proof.
  revert old. induction new as [|x new IH]; intros old; [done|].
  rewrite add_each_cons. etrans; [|apply IH].
  case_bool_decide; [done | by apply prefix_app_r].
Qed.

Lemma elem_of_add_each new old x :
  x ∈ Mongo.add_each new old ↔ x ∈ old ∨ x ∈ new.
Proof.
  revert old. induction new as [|y new IH]; intros old.
  - rewrite add_each_nil. split; [by left | intros [H|H]; [done | by apply elem_of_nil in H]].
  - rewrite add_each_cons, IH, elem_of_cons. case_bool_decide as Hy.
    + split; [intros [H|H]; auto | intros [H|[->|H]]; auto].
    + rewrite elem_of_app, list_elem_of_singleton.
      split; [intros [[H|H]|H]; auto | intros [H|[H|H]]; auto].
Qed.

Lemma NoDup_add_each new old : NoDup old → NoDup (Mongo.add_each new old).
Proof.
  revert old. induction new as [|y new IH]; intros old Hold; [done|].
  rewrite add_each_cons. apply IH. case_bool_decide; [done|].
  apply NoDup_app. split; [done|]. split; [|apply NoDup_singleton].
  intros z Hz ->%list_elem_of_singleton. done.
Qed.

(** What was appended has no duplicates and is new. *)
Lemma add_each_fresh new old :
  ∃ added, Mongo.add_each new old = old ++ added
           ∧ NoDup added ∧ (∀ x, x ∈ added → (x ∉ old) ∧ (x ∈ new)).
Proof.
  revert old. induction new as [|y new IH]; intros old.
  - exists []. rewrite add_each_nil, app_nil_r. split; [done|]. split; [constructor|].
    intros x Hx. by apply elem_of_nil in Hx.
  - rewrite add_each_cons. case_bool_decide as Hy.
    + destruct (IH old) as (added & -> & Hnd & Hin). exists added.
      split; [done|]. split; [done|]. intros x Hx. destruct (Hin x Hx) as [H1 H2].
      split; [done | by right].
    + destruct (IH (old ++ [y])) as (added & -> & Hnd & Hin). exists (y :: added).
      rewrite <- app_assoc. split; [done|]. split.
      * constructor; [|done]. intros Hya. destruct (Hin y Hya) as [H1 _].
        apply H1, elem_of_app. right. by left.
      * intros x [->|Hx]%elem_of_cons; [split; [done | by left]|].
        destruct (Hin x Hx) as [H1 H2]. split; [|by right].
        intros Hxo. apply H1, elem_of_app. by left.
Qed.

End AddEach.

Section Merge.

Variable cfg : config.
Variable E : env.

Lemma merged_id p m d : _id (merged p m d) = _id d.
Proof.
  unfold merged, Mongo.apply, Mongo.apply_push, addToSet_of.
  repeat case_match; done.
Qed.

Lemma merged_metadata p m d :
  metadata (merged p m d) = metadata d ∧ categories (merged p m d) = categories d.
Proof.
  unfold merged, Mongo.apply, Mongo.apply_push, addToSet_of.
  repeat case_match; done.
Qed.

Lemma merged_languages p m d :
  complete p →
  languages (merged p m d) = Mongo.add_each (Parsed.languages p) (languages d).
Proof.
  intros [Hpack Hser]. unfold merged, Mongo.apply, addToSet_of.
  destruct (String.eqb_spec (Parsed.type p) "movie") as [Hm|Hm].
  { destruct (Parsed.languages p); done. }
  destruct (String.eqb_spec (Parsed.type p) "series_pack") as [Hp|Hp].
  { destruct (Hpack Hp) as [[s ->] [q ->]]. destruct (Parsed.languages p); done. }
  destruct (String.eqb_spec (Parsed.type p) "series") as [Hs|Hs].
  { destruct (Hser Hs) as [[s ->] [e ->]]. destruct (Parsed.languages p); done. }
  destruct (Parsed.languages p); done.
Qed.

Lemma merged_files p m d :
  Parsed.type p = "movie" →
  files (merged p m d)
  = List.filter (fun f => negb (String.eqb (File.quality f) (default "HD" (Parsed.quality p))))
                (files d)
    ++ [File.mk (default "HD" (Parsed.quality p)) m].
Proof.
  intros Hm. unfold merged, Mongo.apply, addToSet_of. rewrite Hm. simpl.
  destruct (Parsed.languages p); done.
Qed.

Lemma merged_files_other p m d : Parsed.type p ≠ "movie" → files (merged p m d) = files d.
Proof.
  intros Hm. unfold merged, Mongo.apply, Mongo.apply_push, addToSet_of.
  destruct (String.eqb_spec (Parsed.type p) "movie"); [done|].
  repeat case_match; done.
Qed.

Lemma merged_episodes p m d s e :
  Parsed.type p = "series" → Parsed.season p = Some s → Parsed.episode p = Some e →
  episodes (merged p m d)
  = List.filter (fun x => negb ((Episode.season x =? s) && (Episode.episode_number x =? e)))
                (episodes d)
    ++ [Episode.mk s e m].
Proof.
  intros Ht Hs He. unfold merged, Mongo.apply, addToSet_of. rewrite Ht, Hs, He. simpl.
  destruct (Parsed.languages p); done.
Qed.

Lemma update_one_id q l : Mongo.update_one q (fun d => d) l = l.
Proof. induction l as [|x l IH]; simpl; [done|]. destruct (q x); [done | by rewrite IH]. Qed.

(** The merge, for a release whose keys are there, is one update of the
    stored document and nothing else. *)
Lemma merge_release_eq e p m w :
  complete p →
  merge_release e p m w
  = (Ok tt, mkworld (Mongo.update_one (Mongo.by_id (_id e)) (merged p m) (movies w))
                    (jobs w) (sent w)).
Proof.
  intros [Hpack Hser]. unfold merge_release, merged.
  fold (addToSet_of p).
  destruct (String.eqb_spec (Parsed.type p) "movie") as [Hm|Hm].
  { munfold. unfold Mongo.is_empty. destruct (addToSet_of p); cbn;
      rewrite update_one_twice by done; done. }
  destruct (String.eqb_spec (Parsed.type p) "series_pack") as [Hp|Hp].
  { destruct (Hpack Hp) as [[s ->] [q ->]]. munfold. unfold Mongo.is_empty.
    destruct (addToSet_of p); cbn; rewrite update_one_twice by done; done. }
  destruct (String.eqb_spec (Parsed.type p) "series") as [Hs|Hs].
  { destruct (Hser Hs) as [[s ->] [x ->]]. munfold. unfold Mongo.is_empty.
    destruct (addToSet_of p); cbn; rewrite update_one_twice by done; done. }
  munfold. unfold Mongo.is_empty.
  destruct (addToSet_of p) eqn:Ha; cbn; [done|].
  unfold Mongo.apply. cbn. rewrite update_one_id. by destruct w.
Qed.

(** The merge never touches the call log or the jobs, whatever it does. *)
Lemma merge_release_frame e p m w :
  jobs (merge_release e p m w).2 = jobs w
  ∧ sent (merge_release e p m w).2 = sent w
  ∧ (λ d, (_id d, metadata d)) <$> movies (merge_release e p m w).2
    = (λ d, (_id d, metadata d)) <$> movies w.
Proof.
  unfold merge_release. munfold.
  repeat (case_match; simpl; simplify_eq); repeat split; try done;
    rewrite ?update_one_frame; try done;
    intros d; unfold Mongo.apply, Mongo.apply_push; simpl; repeat case_match; done.
Qed.

End Merge.

(** ** The webhook as a whole *)

Section Webhook.

Variable cfg : config.
Variable E : env.

Lemma webhook_ingest post filename p t :
  carries cfg post filename →
  parse_filename E filename = Some p →
  Py.nonempty (Parsed.title p) = Some t →
  telegram_webhook cfg E (mkupdate (Some post) None)
  = ingest cfg E (get_tmdb_details_from_api E t (Parsed.type p) (Parsed.year p))
           p (Post.message_id post).
Proof.
  intros [Hchat Hfile] Hp Ht. unfold telegram_webhook, handle_channel_post. simpl.
  rewrite Hchat, String.eqb_refl. simpl.
  destruct (Post.video post) as [v|]; simpl in *; rewrite Hfile, Hp, Ht; done.
Qed.

Lemma request_frame c w :
  movies (request E c w).2 = movies w ∧ jobs (request E c w).2 = jobs w.
Proof. unfold request. by destruct (telegram E c). Qed.

(** Handling a message never writes to the collection. *)
Lemma handle_message_movies msg w : movies (handle_message cfg E msg w).2 = movies w.
Proof.
  unfold handle_message, start_body. munfold. unfold request.
  repeat (case_match; simpl in *; simplify_eq); done.
Qed.

Lemma reconcile_movies r p w :
  ∃ added, movies (get_or_create_content_entry cfg E r p w).2 = movies w ++ added
           ∧ Forall (λ d, files d = [] ∧ episodes d = [] ∧ season_packs d = []
                          ∧ languages d = [] ∧ categories d = []) added.
Proof.
  assert (Hs : ∃ added, movies (get_or_create_shell cfg E p w).2 = movies w ++ added
           ∧ Forall (λ d, files d = [] ∧ episodes d = [] ∧ season_packs d = []
                          ∧ languages d = [] ∧ categories d = []) added).
  { unfold get_or_create_shell. munfold.
    destruct (Parsed.title p) as [t|]; simpl.
    2:{ exists []. by rewrite app_nil_r. }
    destruct (Mongo.find_one _ (movies w)); simpl.
    { exists []. by rewrite app_nil_r. }
    exists [shell_doc E t p]. split; [|by repeat constructor].
    destruct (Mongo.find_one _ _) as [d|]; simpl; [|done].
    destruct (send_notification_spec cfg E d
                (mkworld (Mongo.insert_one (shell_doc E t p) (movies w)) (jobs w) (sent w)))
      as (cs & -> & _). done. }
  unfold get_or_create_content_entry.
  destruct r as [details|]; [|done].
  destruct (Tmdb.tmdb_id details) as [i|]; [|done]. munfold.
  destruct (Mongo.find_one _ (movies w)); simpl.
  { exists []. by rewrite app_nil_r. }
  exists [base_doc E details p]. split; [|by repeat constructor].
  destruct (Mongo.find_one _ _) as [d|]; simpl; [|done].
  destruct (send_notification_spec cfg E d
              (mkworld (Mongo.insert_one (base_doc E details p) (movies w)) (jobs w) (sent w)))
    as (cs & -> & _). done.
Qed.

Lemma pull_push_unique q m op_l d :
  unique_qualities d →
  unique_qualities
    (Mongo.apply (Mongo.mk_op op_l (Some (Mongo.push_files (File.mk q m))))
                 (Mongo.pull_files q d)).
Proof.
  unfold unique_qualities, Mongo.apply, Mongo.pull_files. intros Hd.
  assert (Hgoal : NoDup (File.quality <$>
            List.filter (λ f, negb (String.eqb (File.quality f) q)) (files d)
            ++ [File.mk q m])).
  { rewrite fmap_app. apply NoDup_app. split; [|split].
    - generalize dependent (files d). intros fs. induction fs as [|f fs IH]; csimpl.
      + constructor.
      + intros [Hf Hfs]%NoDup_cons. destruct (String.eqb _ q); csimpl; [by apply IH|].
        constructor; [|by apply IH]. intros Hin. apply Hf.
        apply list_elem_of_fmap in Hin as (g & -> & Hg).
        apply list_elem_of_In, filter_In in Hg as [Hg _].
        apply list_elem_of_fmap_2. by apply list_elem_of_In.
    - intros x Hx ->%list_elem_of_singleton.
      apply list_elem_of_fmap in Hx as (g & Hq & Hg).
      apply list_elem_of_In, filter_In in Hg as [_ Hg].
      simpl in Hq. rewrite <- Hq, String.eqb_refl in Hg. done.
    - apply NoDup_singleton. }
  destruct op_l; simpl; done.
Qed.

Lemma merge_release_unique e p m w :
  Forall unique_qualities (movies w) →
  Forall unique_qualities (movies (merge_release e p m w).2).
Proof.
  intros Hw. unfold merge_release. munfold. unfold Mongo.is_empty.
  repeat (case_match; simpl in *; simplify_eq); try done;
    rewrite ?update_one_twice by done;
    apply update_one_Forall; try done; intros d Hd;
    try (by apply pull_push_unique);
    unfold unique_qualities, Mongo.apply, Mongo.apply_push in *; simpl;
    repeat case_match; simplify_eq; done.
Qed.

Lemma ingest_unique r p m w :
  Forall unique_qualities (movies w) →
  Forall unique_qualities (movies (ingest cfg E r p m w).2).
Proof.
  intros Hw. unfold ingest. munfold.
  destruct (reconcile_movies r p w) as (added & Hmov & Hadded).
  assert (Hw1 : Forall unique_qualities
                  (movies (get_or_create_content_entry cfg E r p w).2)).
  { rewrite Hmov. apply Forall_app. split; [done|].
    eapply Forall_impl; [exact Hadded|]. simpl. intros d [Hf _].
    unfold unique_qualities. rewrite Hf. constructor. }
  destruct (get_or_create_content_entry cfg E r p w) as [[[e|]|] w1]; simpl in *;
    try done.
  pose proof (merge_release_unique e p m w1 Hw1) as Hm.
  destruct (merge_release e p m w1) as [[[]|] w2]; done.
Qed.

Lemma webhook_unique data w :
  Forall unique_qualities (movies w) →
  Forall unique_qualities (movies (telegram_webhook cfg E data w).2).
Proof.
  intros Hw. unfold telegram_webhook.
  destruct (channel_post data) as [post|].
  - unfold handle_channel_post. munfold.
    repeat (case_match; simpl; try done); by apply ingest_unique.
  - destruct (message data) as [msg|]; [|done]. munfold.
    pose proof (handle_message_movies msg w) as Hm.
    destruct (handle_message cfg E msg w) as [[[]|] w1]; simpl in *; by rewrite Hm.
Qed.

End Webhook.

(** ** Ingesting a release *)

Lemma created_fields E r t p :
  _id (created E r t p) = new_id E
  ∧ files (created E r t p) = [] ∧ episodes (created E r t p) = []
  ∧ season_packs (created E r t p) = [] ∧ languages (created E r t p) = []
  ∧ categories (created E r t p) = [].
Proof. unfold created. repeat case_match; done. Qed.

Lemma by_id_self d : Mongo.by_id (_id d) d = true.
Proof. unfold Mongo.by_id. by apply bool_decide_eq_true. Qed.

(** The first release of a title: the entry is created and the release is
    merged into it. *)
Lemma ingest_new cfg E r p t m w :
  complete p →
  Parsed.title p = Some t →
  no_entry_for r t (movies w) →
  new_id E ∉ (_id <$> movies w) →
  ∃ cs, ingest cfg E r p m w
        = (Ok ok_reply,
           mkworld (movies w ++ [merged p m (created E r t p)]) (jobs w) (sent w ++ cs))
        ∧ Forall plain cs.
Proof.
  intros Hc Ht Hno Hfresh.
  destruct (reconcile_creates cfg E r p t w Ht Hno Hfresh) as (cs & Hrec & Hcs & _).
  exists cs. split; [|done]. unfold ingest.
  rewrite (bind_ok _ _ _ _ _ Hrec). cbn beta iota.
  erewrite bind_ok; [|by apply merge_release_eq].
  unfold mret, M_ret, ok_reply. f_equal. simpl. unfold Mongo.insert_one.
  rewrite update_one_app_last; [done | | apply by_id_self].
  apply by_id_fresh. by rewrite (proj1 (created_fields E r t p)).
Qed.

(** A later release of the same title goes to the entry created before. *)
Lemma ingest_again cfg E E' r p p' t m l d js cs :
  complete p' →
  Parsed.title p' = Some t →
  no_entry_for r t l →
  _id d ∉ (_id <$> l) →
  tmdb_id d = tmdb_id (created E r t p) →
  title d = title (created E r t p) →
  ingest cfg E' r p' m (mkworld (l ++ [d]) js cs)
  = (Ok ok_reply, mkworld (l ++ [merged p' m d]) js cs).
Proof.
  intros Hc Ht Hno Hfresh Htm Hti. unfold ingest.
  erewrite bind_ok; [|by eapply reconcile_finds_created]. cbn beta iota.
  erewrite bind_ok; [|by apply merge_release_eq].
  unfold mret, M_ret, ok_reply. f_equal. simpl.
  rewrite update_one_app_last; [done | by apply by_id_fresh | apply by_id_self].
Qed.

Lemma complete_movie p : Parsed.type p = "movie" → complete p.
Proof. intros Hm. unfold complete. rewrite Hm. split; intros; done. Qed.

(** C1. Every movie entry keeps at most one element of [files] per quality:
    every webhook event preserves this.  Ingesting two releases of a new
    movie title gives two elements when the qualities differ and one, the
    later, when they are the same: the merge pulls the elements of that
    quality and then pushes the new one. *)
Theorem files_one_per_quality :
  (∀ cfg E data w,
      Forall unique_qualities (movies w) →
      Forall unique_qualities (movies (telegram_webhook cfg E data w).2))
  ∧ (∀ e p m w d,
        Mongo.find_one (Mongo.by_id (_id e)) (movies w) = Some d →
        Parsed.type p = "movie" →
        let q := default "HD" (Parsed.quality p) in
        ∃ w' d',
          merge_release e p m w = (Ok tt, w')
          ∧ Mongo.find_one (Mongo.by_id (_id e)) (movies w') = Some d'
          ∧ files d' = List.filter (λ f, negb (String.eqb (File.quality f) q)) (files d)
                       ++ [File.mk q m])
  ∧ (∀ cfg E1 E2 r p1 p2 t m1 m2 w,
        Parsed.type p1 = "movie" → Parsed.type p2 = "movie" →
        Parsed.title p1 = Some t → Parsed.title p2 = Some t →
        no_entry_for r t (movies w) →
        new_id E1 ∉ (_id <$> movies w) →
        let q1 := default "HD" (Parsed.quality p1) in
        let q2 := default "HD" (Parsed.quality p2) in
        ∃ w1 w2 d,
          ingest cfg E1 r p1 m1 w = (Ok ok_reply, w1)
          ∧ ingest cfg E2 r p2 m2 w1 = (Ok ok_reply, w2)
          ∧ movies w2 = movies w ++ [d]
          ∧ type d = "movie"
          ∧ (q1 ≠ q2 → files d = [File.mk q1 m1; File.mk q2 m2])
          ∧ (q1 = q2 → files d = [File.mk q2 m2])).
Proof.
  split; [exact webhook_unique|]. split.
  { intros e p m w d Hfind Hm q. eexists _, (merged p m d).
    split; [by apply merge_release_eq, complete_movie|]. simpl. split.
    - apply find_update_one; [done|]. apply find_one_elem in Hfind as [_ Hq].
      unfold Mongo.by_id in *. by rewrite merged_id.
    - by apply merged_files. }
  intros cfg E1 E2 r p1 p2 t m1 m2 w Hm1 Hm2 Ht1 Ht2 Hno Hfresh q1 q2.
  destruct (ingest_new cfg E1 r p1 t m1 w (complete_movie p1 Hm1) Ht1 Hno Hfresh)
    as (cs & Hi1 & _).
  pose proof (created_fields E1 r t p1) as (Hid & Hfiles & _).
  set (d0 := created E1 r t p1) in *.
  set (d1 := merged p1 m1 d0) in *.
  destruct (merged_metadata p1 m1 d0) as [Hmeta _]. fold d1 in Hmeta.
  assert (Hi2 : ingest cfg E2 r p2 m2 (mkworld (movies w ++ [d1]) (jobs w) (sent w ++ cs))
                = (Ok ok_reply, mkworld (movies w ++ [merged p2 m2 d1]) (jobs w) (sent w ++ cs))).
  { apply (ingest_again cfg E1 E2 r p1 p2 t); try done.
    - by apply complete_movie.
    - unfold d1. by rewrite merged_id, Hid.
    - unfold metadata in Hmeta. by simplify_eq.
    - unfold metadata in Hmeta. by simplify_eq. }
  eexists _, _, (merged p2 m2 d1). split; [exact Hi1|]. split; [exact Hi2|].
  split; [done|].
  assert (Hf1 : files d1 = [File.mk q1 m1]).
  { unfold d1. rewrite merged_files by done. by rewrite Hfiles. }
  split; [|split].
  - destruct (merged_metadata p2 m2 d1) as [Hmeta2 _]. unfold metadata in *.
    assert (type d0 = "movie").
    { unfold d0, created, base_doc, shell_doc, entry_type. rewrite Hm1.
      repeat case_match; done. }
    simplify_eq. congruence.
  - intros Hne. rewrite merged_files, Hf1 by done. simpl. fold q2.
    destruct (String.eqb_spec q1 q2); done.
  - intros Heq. rewrite merged_files, Hf1 by done. simpl. fold q2.
    rewrite Heq, String.eqb_refl. done.
Qed.

(** ** Replace-by-key: pull the elements under a key, push a new one *)

Section ReplaceByKey.

Context {A K : Type} (key : A → K) (same : A → bool) (k : K).
Hypothesis same_key : ∀ x, same x = true ↔ key x = k.

Local Abbreviation pulled l := (List.filter (λ x, negb (same x)) l).

Lemma elem_of_pulled l x : x ∈ pulled l ↔ x ∈ l ∧ key x ≠ k.
Proof.
  rewrite list_elem_of_In, filter_In, <- list_elem_of_In.
  rewrite negb_true_iff, <- not_true_iff_false, same_key. done.
Qed.

Lemma replace_NoDup l new :
  key new = k → NoDup (key <$> l) → NoDup (key <$> (pulled l ++ [new])).
Proof.
  intros Hnew Hl. rewrite fmap_app. apply NoDup_app. split; [|split].
  - induction l as [|x l IH]; csimpl; [constructor|].
    apply NoDup_cons in Hl as [Hx Hl].
    destruct (same x); csimpl; [by apply IH|].
    constructor; [|by apply IH]. intros Hin. apply Hx.
    apply list_elem_of_fmap in Hin as (y & -> & Hy).
    apply list_elem_of_fmap_2. by apply (elem_of_pulled l y).
  - intros y Hy ->%list_elem_of_singleton.
    apply list_elem_of_fmap in Hy as (z & Hz & Hin).
    apply elem_of_pulled in Hin as [_ Hne]. apply Hne. by rewrite <- Hz.
  - apply NoDup_singleton.
Qed.

(** With one element per key, the pull removes exactly the one stored
    under [k]. *)
Lemma replace_length l x new :
  NoDup (key <$> l) → x ∈ l → key x = k → length (pulled l ++ [new]) = length l.
Proof.
  intros Hl Hx Hk. rewrite length_app. simpl.
  enough (S (length (pulled l)) = length l) by lia.
  induction l as [|y l IH]; [by apply elem_of_nil in Hx|].
  csimpl in *. apply NoDup_cons in Hl as [Hy Hl].
  apply elem_of_cons in Hx as [<-|Hx].
  - apply same_key in Hk. rewrite Hk. simpl. f_equal.
    (* nothing else lies under [k] *)
    clear IH. induction l as [|z l IH]; [done|]. csimpl in *.
    apply NoDup_cons in Hl as [_ Hl].
    destruct (same z) eqn:Hz.
    + exfalso. apply Hy, elem_of_cons. left. apply same_key in Hz, Hk. congruence.
    + simpl. f_equal. apply IH; [|done]. intros Hin. apply Hy, elem_of_cons. by right.
  - destruct (same y) eqn:Hsy.
    + exfalso. apply Hy. apply same_key in Hsy. rewrite Hsy, <- Hk.
      by apply list_elem_of_fmap_2.
    + simpl. f_equal. by apply IH.
Qed.

Lemma replace_lookup l new x :
  key new = k → x ∈ pulled l ++ [new] → key x = k → x = new.
Proof.
  intros Hnew [Hx|Hx%list_elem_of_singleton]%elem_of_app Hk; [|done].
  apply elem_of_pulled in Hx as [_ Hne]. done.
Qed.

Lemma replace_others l new x :
  key new = k → key x ≠ k → x ∈ pulled l ++ [new] ↔ x ∈ l.
Proof.
  intros Hnew Hne. rewrite elem_of_app, elem_of_pulled, list_elem_of_singleton.
  split; [intros [[H _]|Hx]; [done | by subst] | intros H; by left].
Qed.

End ReplaceByKey.

Lemma same_episode s ep x :
  (Episode.season x =? s) && (Episode.episode_number x =? ep) = true
  ↔ Episode.key x = (s, ep).
Proof.
  unfold Episode.key. rewrite andb_true_iff, !Z.eqb_eq.
  split; [intros [-> ->]; done | intros [= -> ->]; done].
Qed.

Lemma same_pack s q x :
  (Pack.season x =? s) && String.eqb (Pack.quality x) q = true ↔ Pack.key x = (s, q).
Proof.
  unfold Pack.key. rewrite andb_true_iff, Z.eqb_eq, String.eqb_eq.
  split; [intros [-> ->]; done | intros [= -> ->]; done].
Qed.

Lemma same_file q x : String.eqb (File.quality x) q = true ↔ File.quality x = q.
Proof. apply String.eqb_eq. Qed.

(** A release of a title that reconciliation finds is merged into the stored
    entry. *)
Lemma ingest_existing cfg E r p m w e :
  complete p →
  get_or_create_content_entry cfg E r p w = (Ok (Some e), w) →
  ingest cfg E r p m w
  = (Ok ok_reply,
     mkworld (Mongo.update_one (Mongo.by_id (_id e)) (merged p m) (movies w))
             (jobs w) (sent w)).
Proof.
  intros Hc Hrec. unfold ingest. rewrite (bind_ok _ _ _ _ _ Hrec). cbn beta iota.
  erewrite bind_ok; [|by apply merge_release_eq]. done.
Qed.

Lemma update_one_length q f l : length (Mongo.update_one q f l) = length l.
Proof. induction l as [|x l IH]; simpl; [done|]. destruct (q x); simpl; by rewrite ?IH. Qed.

(** C2. Re-ingesting an episode that is already stored, under another
    message reference: the stored reference is replaced and [episodes]
    keeps its length. *)
Theorem episode_reingest_replaces cfg E r p m w e s ep old :
  get_or_create_content_entry cfg E r p w = (Ok (Some e), w) →
  Mongo.find_one (Mongo.by_id (_id e)) (movies w) = Some e →
  Parsed.type p = "series" →
  Parsed.season p = Some s →
  Parsed.episode p = Some ep →
  unique_episodes e →
  Episode.mk s ep old ∈ episodes e →
  ∃ w' e',
    ingest cfg E r p m w = (Ok ok_reply, w')
    ∧ Mongo.find_one (Mongo.by_id (_id e)) (movies w') = Some e'
    ∧ length (episodes e') = length (episodes e)
    ∧ Episode.mk s ep m ∈ episodes e'
    ∧ (m ≠ old → Episode.mk s ep old ∉ episodes e')
    ∧ (∀ x, x ∈ episodes e' → Episode.key x = (s, ep) → x = Episode.mk s ep m)
    ∧ (∀ x, Episode.key x ≠ (s, ep) → x ∈ episodes e' ↔ x ∈ episodes e)
    ∧ unique_episodes e'
    ∧ metadata e' = metadata e
    ∧ length (movies w') = length (movies w).
Proof.
  intros Hrec Hfind Ht Hs Hep Huniq Hold.
  assert (Hc : complete p).
  { unfold complete. rewrite Ht, Hs, Hep. split; [done | eauto]. }
  eexists _, (merged p m e). split; [by apply ingest_existing|]. simpl.
  split. { apply find_update_one; [done|]. rewrite <- merged_id with (p := p) (m := m) at 1.
           apply by_id_self. }
  rewrite (merged_episodes p m e s ep Ht Hs Hep).
  pose proof (same_episode s ep) as Hsame.
  split. { by apply (replace_length Episode.key _ (s, ep) Hsame _ (Episode.mk s ep old)). }
  split. { apply elem_of_app. right. by left. }
  split. { intros Hne Hin.
           apply (replace_lookup Episode.key _ (s, ep) Hsame) in Hin; [|done..].
           by injection Hin as ->. }
  split. { intros x Hx Hk. by apply (replace_lookup Episode.key _ (s, ep) Hsame) in Hx. }
  split. { intros x Hk. by apply (replace_others Episode.key _ (s, ep) Hsame). }
  split. { unfold unique_episodes. rewrite (merged_episodes p m e s ep Ht Hs Hep).
           by apply (replace_NoDup Episode.key _ (s, ep) Hsame). }
  split; [apply merged_metadata | apply update_one_length].
Qed.

(** C3. When the resolved metadata carries a catalog id under which an
    entry is stored, reconciliation returns a stored entry with that id and
    changes nothing: no field is overwritten, no document is added, no call is
    made.  The merge that follows leaves the metadata of every stored entry
    as it was and makes no call either. *)
Theorem reconcile_first_write_wins cfg E details i p m w e0 :
  Tmdb.tmdb_id details = Some i →
  e0 ∈ movies w →
  tmdb_id e0 = Some i →
  ∃ e,
    get_or_create_content_entry cfg E (Some details) p w = (Ok (Some e), w)
    ∧ e ∈ movies w
    ∧ tmdb_id e = Some i
    ∧ ((∀ d, d ∈ movies w → tmdb_id d = Some i → d = e0) → e = e0)
    ∧ (λ d, (_id d, metadata d)) <$> movies (ingest cfg E (Some details) p m w).2
      = (λ d, (_id d, metadata d)) <$> movies w
    ∧ sent (ingest cfg E (Some details) p m w).2 = sent w.
Proof.
  intros Hi He0 Hid0.
  destruct (Mongo.find_one (Mongo.by_tmdb_id i) (movies w)) as [e|] eqn:Hfind.
  2:{ exfalso. apply find_one_none with (d := e0) in Hfind; [|done].
      unfold Mongo.by_tmdb_id in Hfind. by apply bool_decide_eq_false in Hfind. }
  apply find_one_elem in Hfind as Hfound. destruct Hfound as [He Hq].
  unfold Mongo.by_tmdb_id in Hq. apply bool_decide_eq_true in Hq.
  pose proof (tmdb_found cfg E details i p e w Hi Hfind) as Hrec.
  exists e. split; [done|]. split; [done|]. split; [done|].
  split; [intros Huniq; by apply Huniq|].
  unfold ingest. rewrite (bind_ok _ _ _ _ _ Hrec). cbn beta iota.
  destruct (merge_release_frame e p m w) as (_ & Hsent & Hmeta).
  unfold mbind, M_bind, mret, M_ret.
  destruct (merge_release e p m w) as [[[]|] w']; done.
Qed.

(** C4. When the catalog has nothing for the title and no stored entry
    answers the case-insensitive query for a shell of the parsed title,
    reconciliation appends a shell entry without catalog id and with the
    placeholder poster, and makes no call: an announcement for a
    placeholder poster returns before sending. *)
Theorem shell_created_without_announcement cfg E r p t w :
  r ≫= Tmdb.tmdb_id = None →
  Parsed.title p = Some t →
  (∀ d, d ∈ movies w → Mongo.by_shell_title t d = false) →
  new_id E ∉ (_id <$> movies w) →
  get_or_create_content_entry cfg E r p w
  = (Ok (Some (shell_doc E t p)),
     mkworld (movies w ++ [shell_doc E t p]) (jobs w) (sent w))
  ∧ tmdb_id (shell_doc E t p) = None
  ∧ title (shell_doc E t p) = t
  ∧ poster (shell_doc E t p) = Some PLACEHOLDER_POSTER
  ∧ (∀ d w0, poster d = Some PLACEHOLDER_POSTER →
             send_notification_to_channel cfg E d w0 = (Ok tt, w0)).
Proof.
  intros Hr Ht Hno Hfresh. split; [|split; [done|split; [done|split; [done|]]]].
  - assert (Hshell : get_or_create_shell cfg E p w
                     = (Ok (Some (shell_doc E t p)), inserted (shell_doc E t p) w))
      by (apply shell_new; [done | by apply no_shell_for | done]).
    unfold get_or_create_content_entry.
    destruct r as [details|]; [|done]. simpl in Hr. by rewrite Hr.
  - intros d w0 Hd. destruct (send_notification_spec cfg E d w0) as (cs & -> & Hcs & _).
    by rewrite (Hcs Hd), log_nil.
Qed.

(** C9. The merge of a release adds the parsed languages to the stored
    ones: the result has exactly the languages of either, keeps the stored
    ones in place, appends no duplicate, has no duplicates when the stored
    list had none, and is the stored list when no language was parsed. *)
Theorem languages_union e p m w d :
  Mongo.find_one (Mongo.by_id (_id e)) (movies w) = Some d →
  complete p →
  ∃ w' d',
    merge_release e p m w = (Ok tt, w')
    ∧ Mongo.find_one (Mongo.by_id (_id e)) (movies w') = Some d'
    ∧ (∀ x, x ∈ languages d' ↔ x ∈ languages d ∨ x ∈ Parsed.languages p)
    ∧ languages d `prefix_of` languages d'
    ∧ (∃ added, languages d' = languages d ++ added ∧ NoDup added
                ∧ ∀ x, x ∈ added → (x ∉ languages d) ∧ (x ∈ Parsed.languages p))
    ∧ (NoDup (languages d) → NoDup (languages d'))
    ∧ (Parsed.languages p = [] → languages d' = languages d).
Proof.
  intros Hfind Hc. eexists _, (merged p m d). split; [by apply merge_release_eq|]. simpl.
  split.
  { apply find_update_one; [done|]. apply find_one_elem in Hfind as [_ Hq].
    unfold Mongo.by_id in *. by rewrite merged_id. }
  rewrite (merged_languages p m d Hc).
  split; [apply elem_of_add_each|]. split; [apply add_each_prefix|].
  split; [apply add_each_fresh|]. split; [apply NoDup_add_each|].
  by intros ->.
Qed.

(** C10. An entry that the webhook creates, from the catalog or as a shell,
    has no categories, and its announcement is neither the teaser nor
    pinned. *)
Theorem created_entries_have_no_categories cfg E r p w :
  new_id E ∉ (_id <$> movies w) →
  ∃ res w',
    get_or_create_content_entry cfg E r p w = (res, w')
    ∧ ((w' = w ∧ ∀ d, res = Ok (Some d) → d ∈ movies w)
       ∨ ∃ d cs, res = Ok (Some d)
                 ∧ movies w' = movies w ++ [d]
                 ∧ categories d = []
                 ∧ sent w' = sent w ++ cs
                 ∧ Forall (λ c, is_teaser c = false ∧ is_pin c = false) cs).
Proof.
  intros Hfresh.
  assert (Hshell : ∃ res w',
    get_or_create_shell cfg E p w = (res, w')
    ∧ ((w' = w ∧ ∀ d, res = Ok (Some d) → d ∈ movies w)
       ∨ ∃ d cs, res = Ok (Some d) ∧ movies w' = movies w ++ [d] ∧ categories d = []
                 ∧ sent w' = sent w ++ cs
                 ∧ Forall (λ c, is_teaser c = false ∧ is_pin c = false) cs)).
  { destruct (Parsed.title p) as [t|] eqn:Ht.
    - destruct (Mongo.find_one (Mongo.by_shell_title t) (movies w)) as [e|] eqn:Hfind.
      + eexists _, _. split; [by eapply shell_found|]. left. split; [done|].
        intros d [= <-]. by apply find_one_elem in Hfind as [? _].
      + eexists _, _. split; [by eapply shell_new|]. right.
        exists (shell_doc E t p), []. simpl. rewrite app_nil_r. by repeat split.
    - eexists _, _. split.
      + unfold get_or_create_shell. rewrite Ht. munfold. done.
      + left. split; [done|]. intros d [=]. }
  destruct r as [details|]; [|done].
  destruct (Tmdb.tmdb_id details) as [i|] eqn:Hi.
  2:{ unfold get_or_create_content_entry. by rewrite Hi. }
  destruct (Mongo.find_one (Mongo.by_tmdb_id i) (movies w)) as [e|] eqn:Hfind.
  - eexists _, _. split; [by eapply tmdb_found|]. left. split; [done|].
    intros d [= <-]. by apply find_one_elem in Hfind as [? _].
  - destruct (tmdb_new cfg E details i p w Hi Hfind) as (cs & Hrec & Hcs & _).
    eexists _, _. split; [exact Hrec|]. right.
    exists (base_doc E details p), cs. by repeat split.
Qed.

(** ** The [/start] command *)

Section Start.

Variable cfg : config.
Variable E : env.

(** What the webhook does with a [/start] command that carries a token:
    the [try] block, and on any exception the error notice, unguarded. *)
Lemma webhook_start chat text cmd token rest w :
  String.prefix "/start" text = true →
  Py.split_ws text = cmd :: token :: rest →
  telegram_webhook cfg E (start_update chat text) w
  = match start_body cfg E chat token w with
    | (Ok _, w1) => (Ok ok_reply, w1)
    | (Raise _, w1) =>
        match telegram E (notice chat UNEXPECTED_TEXT) with
        | returns _ => (Ok ok_reply, log [notice chat UNEXPECTED_TEXT] w1)
        | raises => (Raise RequestException, log [notice chat UNEXPECTED_TEXT] w1)
        end
    end.
Proof.
  intros Hp Hs. unfold telegram_webhook, start_update, handle_message. simpl.
  rewrite Hp, Hs. munfold.
  destruct (start_body cfg E chat token w) as [[[]|e] w1]; [done|].
  unfold request, notice. destruct (telegram E _); done.
Qed.

(** The [try] block once the entry is found. *)
Lemma start_body_found chat token oid content w :
  Bson.ObjectId (default "" (head (Py.split "_" token))) = Some oid →
  Mongo.find_one (Mongo.by_id oid) (movies w) = Some content →
  start_body cfg E chat token w
  = match locate content (Py.split "_" token) with
    | Raise e => (Raise e, w)
    | Ok None =>
        match telegram E (notice chat NOT_FOUND_TEXT) with
        | returns _ => (Ok tt, log [notice chat NOT_FOUND_TEXT] w)
        | raises => (Raise RequestException, log [notice chat NOT_FOUND_TEXT] w)
        end
    | Ok (Some (mid, info)) =>
        let copy := copyMessage chat (ADMIN_CHANNEL_ID cfg) mid (title content) info in
        match telegram E copy with
        | raises => (Raise RequestException, log [copy] w)
        | returns res =>
            if ok res then
              match result_message_id res with
              | Some n => (Ok tt, scheduled E chat n (log [copy] w))
              | None => (Raise KeyError, log [copy] w)
              end
            else
              match telegram E (notice chat COPY_FAILED_TEXT) with
              | returns _ => (Ok tt, log [copy; notice chat COPY_FAILED_TEXT] w)
              | raises =>
                  (Raise RequestException, log [copy; notice chat COPY_FAILED_TEXT] w)
              end
        end
    end.
Proof.
  intros Hoid Hfind. unfold start_body. rewrite Hoid. munfold. rewrite Hfind.
  destruct (locate content _) as [[[mid info]|]|e]; [| |done].
  - unfold request.
    destruct (telegram E _) as [|[[] [n|]]]; cbn [ok result_message_id]; try done;
      unfold notice; destruct (telegram E _); by rewrite ?log_log.
  - unfold request, notice. destruct (telegram E _); done.
Qed.

End Start.

Lemma substring_all s : String.substring 0 (String.length s) s = s.
Proof. induction s as [|c s IH]; simpl; [done | by rewrite IH]. Qed.

Lemma find_first {A} (f : A → bool) (l : list A) x :
  x ∈ l → f x = true → ∃ y, List.find f l = Some y ∧ y ∈ l ∧ f y = true.
Proof.
  intros Hx Hf. destruct (List.find f l) as [y|] eqn:Hfind.
  - exists y. split; [done|]. apply find_some in Hfind as [? ?].
    split; [by apply list_elem_of_In | done].
  - apply list_elem_of_In in Hx. pose proof (find_none _ _ Hfind x Hx). congruence.
Qed.

Lemma NoDup_key_eq {A K} (key : A → K) (l : list A) x y :
  NoDup (key <$> l) → x ∈ l → y ∈ l → key x = key y → x = y.
Proof.
  induction l as [|z l IH]; csimpl; [by intros _ ?%elem_of_nil|].
  intros [Hz Hl]%NoDup_cons [->|Hx]%elem_of_cons [->|Hy]%elem_of_cons Hk; auto.
  - exfalso. apply Hz. rewrite Hk. by apply list_elem_of_fmap_2.
  - exfalso. apply Hz. rewrite <- Hk. by apply list_elem_of_fmap_2.
Qed.

(** The outcome of the webhook on a [/start] command once the
    deliverable is located. *)
Lemma webhook_located cfg E chat text parts oid content target w :
  start_token text parts oid →
  Mongo.find_one (Mongo.by_id oid) (movies w) = Some content →
  locate content parts = Ok target →
  ∃ res w' cs,
    telegram_webhook cfg E (start_update chat text) w = (res, w')
    ∧ movies w' = movies w
    ∧ match target with
      | None =>
          jobs w' = jobs w
          ∧ sent w' = sent w ++ notice chat NOT_FOUND_TEXT :: cs
          ∧ Forall (λ c, is_copy c = false) cs
          ∧ (telegram E (notice chat NOT_FOUND_TEXT) ≠ raises → res = Ok ok_reply ∧ cs = [])
      | Some (mid, info) =>
          let copy := copyMessage chat (ADMIN_CHANNEL_ID cfg) mid (title content) info in
          sent w' = sent w ++ copy :: cs
          ∧ Forall (λ c, is_copy c = false ∧ c ≠ notice chat NOT_FOUND_TEXT) cs
          ∧ (∀ n, telegram E copy = returns (mkresp true (Some n)) →
                  res = Ok ok_reply ∧ cs = []
                  ∧ jobs w' = <[job_id chat n := Job.mk (now E + minutes 30) chat n]> (jobs w))
          ∧ (∀ r, telegram E copy = returns r → ok r = false →
                  jobs w' = jobs w
                  ∧ ∃ cs', cs = notice chat COPY_FAILED_TEXT :: cs'
                           ∧ (telegram E (notice chat COPY_FAILED_TEXT) ≠ raises →
                              res = Ok ok_reply ∧ cs' = []))
      end.
Proof.
  intros (Hp & (cmd & token & rest & Hs & Hparts) & Hoid) Hfind Hloc.
  rewrite (webhook_start cfg E chat text cmd token rest w Hp Hs).
  rewrite (start_body_found cfg E chat token oid content w); [|by rewrite Hparts|done].
  rewrite Hparts, Hloc. destruct target as [[mid info]|].
  - cbn zeta.
    destruct (telegram E (copyMessage _ _ _ _ _)) as [|[[] [n|]]] eqn:Hcopy;
      cbn [ok result_message_id].
    + (* the copy raised *)
      destruct (telegram E (notice chat UNEXPECTED_TEXT)); rewrite log_log;
        eexists _, _, _; (split; [reflexivity|]); (split; [done|]);
        (split; [reflexivity|]); (split; [by repeat constructor|]);
        split; intros; simplify_eq/=.
    + (* the copy went through *)
      eexists _, _, []. split; [reflexivity|]. split; [done|].
      split; [done|]. split; [constructor|].
      split; intros; simplify_eq/=; done.
    + (* an answer without message id *)
      destruct (telegram E (notice chat UNEXPECTED_TEXT)); rewrite log_log;
        eexists _, _, _; (split; [reflexivity|]); (split; [done|]);
        (split; [reflexivity|]); (split; [by repeat constructor|]);
        split; intros; simplify_eq/=.
    + (* the copy was refused *)
      destruct (telegram E (notice chat COPY_FAILED_TEXT)) eqn:Hn.
      * destruct (telegram E (notice chat UNEXPECTED_TEXT)); rewrite log_log;
          eexists _, _, _; (split; [reflexivity|]); (split; [done|]);
          (split; [reflexivity|]); (split; [by repeat constructor|]);
          (split; [intros; simplify_eq/=|]); intros r _ _; (split; [done|]);
          eexists; (split; [reflexivity|]); intros; done.
      * eexists _, _, _. split; [reflexivity|]. split; [done|].
        split; [reflexivity|]. split; [by repeat constructor|].
        split; [intros; simplify_eq/=|]. intros r _ _. split; [done|].
        eexists. split; [reflexivity|]. done.
    + destruct (telegram E (notice chat COPY_FAILED_TEXT)) eqn:Hn.
      * destruct (telegram E (notice chat UNEXPECTED_TEXT)); rewrite log_log;
          eexists _, _, _; (split; [reflexivity|]); (split; [done|]);
          (split; [reflexivity|]); (split; [by repeat constructor|]);
          (split; [intros; simplify_eq/=|]); intros r _ _; (split; [done|]);
          eexists; (split; [reflexivity|]); intros; done.
      * eexists _, _, _. split; [reflexivity|]. split; [done|].
        split; [reflexivity|]. split; [by repeat constructor|].
        split; [intros; simplify_eq/=|]. intros r _ _. split; [done|].
        eexists. split; [reflexivity|]. done.
  - destruct (telegram E (notice chat NOT_FOUND_TEXT)) eqn:Hn.
    + destruct (telegram E (notice chat UNEXPECTED_TEXT)); rewrite log_log;
        eexists _, _, _; (split; [reflexivity|]); (split; [done|]);
        (split; [done|]); (split; [reflexivity|]); (split; [by repeat constructor|]);
        intros; done.
    + eexists _, _, []. split; [reflexivity|]. split; [done|]. by repeat split.
Qed.

(** ** Deep links *)

Lemma append_nil t : "" +:+ t = t.
Proof. done. Qed.

Lemma append_cons c s t : String c s +:+ t = String c (s +:+ t).
Proof. done. Qed.

Lemma append_assoc a b c : (a +:+ b) +:+ c = a +:+ (b +:+ c).
Proof. induction a as [|x a IH]; [done|]. by rewrite !append_cons, IH. Qed.

Lemma append_nil_r s : s +:+ "" = s.
Proof. induction s as [|c s IH]; [done|]. by rewrite append_cons, IH. Qed.

Lemma length_append a b : String.length (a +:+ b) = (String.length a + String.length b)%nat.
Proof. induction a as [|c a IH]; [done|]. rewrite append_cons. simpl. by rewrite IH. Qed.

(** ** Code points *)

(** The group at the front of a string. *)
Lemma chars_cons a s1 :
  ∃ g rest,
    String a s1 = g +:+ rest
    ∧ Utf8.chars (String a s1) = g :: Utf8.chars rest
    ∧ (String.length rest ≤ String.length s1)%nat
    ∧ (is_Some (Utf8.decode g) →
       ∀ y, Utf8.chars (String a s1 +:+ y) = g :: Utf8.chars (rest +:+ y)).
Proof.
  assert (Hlone : (Utf8.trail a = 0%nat ∨ (192 <=? N_of_ascii a)%N = true) →
                  Utf8.chars (String a s1) = String a "" :: Utf8.chars s1 →
                  ∃ g rest,
                    String a s1 = g +:+ rest
                    ∧ Utf8.chars (String a s1) = g :: Utf8.chars rest
                    ∧ (String.length rest ≤ String.length s1)%nat
                    ∧ (is_Some (Utf8.decode g) →
                       ∀ y, Utf8.chars (String a s1 +:+ y) = g :: Utf8.chars (rest +:+ y))).
  { intros Ht Hc. exists (String a ""), s1. split; [done|]. split; [done|]. split; [done|].
    intros [c Hd] y. destruct Ht as [Ht|Ht].
    - rewrite append_cons. cbn [Utf8.chars]. by rewrite Ht.
    - exfalso. cbn [Utf8.decode] in Hd.
      destruct (N_of_ascii a <? 128)%N eqn:Hlt; [|done].
      apply N.ltb_lt in Hlt. apply N.leb_le in Ht. lia. }
  assert (Hlead : Utf8.trail a ≠ 0%nat → (192 <=? N_of_ascii a)%N = true).
  { unfold Utf8.trail. destruct (N_of_ascii a <? 192)%N eqn:H; [done|].
    intros _. apply N.leb_le. apply N.ltb_ge in H. done. }
  destruct (Utf8.trail a) as [|[|[|[|k]]]] eqn:Ht.
  - apply Hlone; [by left|]. cbn [Utf8.chars]. by rewrite Ht.
  - destruct s1 as [|b s2].
    { apply Hlone; [right; by apply Hlead|]. cbn [Utf8.chars]. by rewrite Ht. }
    destruct (Utf8.continuation b) eqn:Hb.
    + exists (String a (String b "")), s2. split; [done|].
      split. { cbn [Utf8.chars]. by rewrite Ht, Hb. }
      split; [simpl; lia|]. intros _ y. rewrite !append_cons. cbn [Utf8.chars].
      by rewrite Ht, Hb.
    + apply Hlone; [right; by apply Hlead|]. cbn [Utf8.chars]. by rewrite Ht, Hb.
  - destruct s1 as [|b [|c s3]];
      try (apply Hlone; [right; by apply Hlead|]; cbn [Utf8.chars]; by rewrite Ht).
    destruct (Utf8.continuation b && Utf8.continuation c) eqn:Hb.
    + exists (String a (String b (String c ""))), s3. split; [done|].
      split. { cbn [Utf8.chars]. by rewrite Ht, Hb. }
      split; [simpl; lia|]. intros _ y. rewrite !append_cons. cbn [Utf8.chars].
      by rewrite Ht, Hb.
    + apply Hlone; [right; by apply Hlead|]. cbn [Utf8.chars]. by rewrite Ht, Hb.
  - destruct s1 as [|b [|c [|d s4]]];
      try (apply Hlone; [right; by apply Hlead|]; cbn [Utf8.chars]; by rewrite Ht).
    destruct (Utf8.continuation b && Utf8.continuation c && Utf8.continuation d) eqn:Hb.
    + exists (String a (String b (String c (String d "")))), s4. split; [done|].
      split. { cbn [Utf8.chars]. by rewrite Ht, Hb. }
      split; [simpl; lia|]. intros _ y. rewrite !append_cons. cbn [Utf8.chars].
      by rewrite Ht, Hb.
    + apply Hlone; [right; by apply Hlead|]. cbn [Utf8.chars]. by rewrite Ht, Hb.
  - exfalso. revert Ht. unfold Utf8.trail. by repeat case_match.
Qed.

(** Induction along the groups of a string. *)
Lemma chars_ind (P : string → Prop) :
  P "" →
  (∀ g rest, g ≠ "" → Utf8.chars (g +:+ rest) = g :: Utf8.chars rest →
             (is_Some (Utf8.decode g) →
              ∀ y, Utf8.chars ((g +:+ rest) +:+ y) = g :: Utf8.chars (rest +:+ y)) →
             P rest → P (g +:+ rest)) →
  ∀ s, P s.
Proof.
  intros Hnil Hstep s.
  assert (H : ∀ n s, (String.length s ≤ n)%nat → P s).
  { clear s. induction n as [|n IH]; intros [|a s1] Hlen; simpl in Hlen; try done; [lia|].
    destruct (chars_cons a s1) as (g & rest & Heq & Hc & Hl & Happ).
    rewrite Heq. apply Hstep.
    - intros ->. rewrite append_nil in Heq. subst rest. simpl in Hl. lia.
    - by rewrite <- Heq.
    - rewrite <- Heq. exact Happ.
    - apply IH. lia. }
  by apply (H (String.length s)).
Qed.

Lemma join_chars s : foldr String.append "" (Utf8.chars s) = s.
Proof.
  induction s as [|g rest Hg Hc _ IH] using chars_ind; [done|].
  rewrite Hc. simpl. by rewrite IH.
Qed.

Lemma chars_app x y :
  Utf8.valid x = true → Utf8.chars (x +:+ y) = Utf8.chars x ++ Utf8.chars y.
Proof.
  unfold Utf8.valid.
  induction x as [|g rest Hg Hc Happ IH] using chars_ind; [done|].
  rewrite Hc. simpl. intros [Hd Hv]%andb_true_iff. apply bool_decide_eq_true in Hd.
  rewrite (Happ Hd). by rewrite IH.
Qed.

Lemma valid_app x y :
  Utf8.valid x = true → Utf8.valid y = true → Utf8.valid (x +:+ y) = true.
Proof.
  intros Hx Hy. unfold Utf8.valid. rewrite chars_app by done.
  rewrite forallb_app. unfold Utf8.valid in Hx, Hy. by rewrite Hx, Hy.
Qed.

(** A string of ASCII bytes: one group per byte. *)
Lemma chars_ascii s :
  all_chars (λ c, N_of_ascii c <? 128)%N s = true →
  Utf8.chars s = (λ c, String c "") <$> list_ascii_of_string s.
Proof.
  induction s as [|c s IH]; [done|]. simpl. intros [Hc Hs]%andb_true_iff.
  assert (Ht : Utf8.trail c = 0%nat).
  { unfold Utf8.trail. apply N.ltb_lt in Hc.
    destruct (N_of_ascii c <? 192)%N eqn:H; [done|]. apply N.ltb_ge in H. lia. }
  rewrite Ht. csimpl. by rewrite IH.
Qed.

Lemma valid_ascii s :
  all_chars (λ c, N_of_ascii c <? 128)%N s = true → Utf8.valid s = true.
Proof.
  intros Hs. unfold Utf8.valid. rewrite chars_ascii by done.
  induction s as [|c s IH]; [done|]. simpl in *. apply andb_true_iff in Hs as [Hc Hs].
  rewrite Hc. simpl. by apply IH.
Qed.

Lemma all_chars_app P a b : all_chars P (a +:+ b) = all_chars P a && all_chars P b.
Proof.
  induction a as [|c a IH]; [done|].
  rewrite append_cons. simpl. by rewrite IH, andb_assoc.
Qed.

Lemma all_chars_impl (P Q : ascii → bool) s :
  (∀ c, P c = true → Q c = true) → all_chars P s = true → all_chars Q s = true.
Proof.
  intros HPQ. induction s as [|c s IH]; simpl; [done|].
  intros [Hc Hs]%andb_true_iff. by rewrite (HPQ c Hc), IH.
Qed.

(** The bytes of a code point: one ASCII byte, or bytes from 128 on. *)
Lemma decode_shape g c :
  Utf8.decode g = Some c →
  (∃ a, g = String a "" ∧ c = N_of_ascii a ∧ (c < 128)%N)
  ∨ (all_chars (λ b, 128 <=? N_of_ascii b)%N g = true ∧ (128 <= c)%N).
Proof.
  assert (Hcont : ∀ b, Utf8.continuation b = true → (128 <=? N_of_ascii b)%N = true).
  { intros b. unfold Utf8.continuation. by intros [? _]%andb_true_iff. }
  assert (Hlead : ∀ a, Utf8.trail a ≠ 0%nat → (128 <=? N_of_ascii a)%N = true).
  { intros a. unfold Utf8.trail. destruct (N_of_ascii a <? 192)%N eqn:H; [done|].
    intros _. apply N.leb_le. apply N.ltb_ge in H. lia. }
  destruct g as [|a [|b [|c' [|d [|e g]]]]]; cbn [Utf8.decode]; try done.
  - destruct (N_of_ascii a <? 128)%N eqn:Ha; [|done]. intros [= <-]. left.
    exists a. apply N.ltb_lt in Ha. done.
  - case_match eqn:H; [|done]. intros [= <-]. right.
    apply andb_true_iff in H as [[Ht Hb]%andb_true_iff Hn].
    apply Nat.eqb_eq in Ht. apply N.leb_le in Hn. split; [|done].
    cbn [all_chars]. rewrite (Hlead a), (Hcont b) by (done || lia). done.
  - case_match eqn:H; [|done]. intros [= <-]. right.
    apply andb_true_iff in H as [[[Ht Hb]%andb_true_iff Hc]%andb_true_iff Hn].
    apply Nat.eqb_eq in Ht. apply N.leb_le in Hn. split; [|lia].
    cbn [all_chars]. rewrite (Hlead a), (Hcont b), (Hcont c') by (done || lia). done.
  - case_match eqn:H; [|done]. intros [= <-]. right.
    apply andb_true_iff in H as [[[[[Ht Hb]%andb_true_iff Hc]%andb_true_iff Hd]%andb_true_iff
                                   Hn]%andb_true_iff Hm].
    apply Nat.eqb_eq in Ht. apply N.leb_le in Hn. split; [|lia].
    cbn [all_chars]. rewrite (Hlead a), (Hcont b), (Hcont c'), (Hcont d) by (done || lia). done.
Qed.

Lemma all_chars_join P gs :
  all_chars P (foldr String.append "" gs) = forallb (all_chars P) gs.
Proof. induction gs as [|g gs IH]; [done|]. simpl. by rewrite all_chars_app, IH. Qed.

(** ** Words *)

Lemma split_ws_go_nonspace g cs cur :
  Py.is_space g = false → Py.split_ws_go (g :: cs) cur = Py.split_ws_go cs (cur +:+ g).
Proof. intros H. simpl. by rewrite H. Qed.

Lemma split_ws_go_space g cs cur :
  Py.is_space g = true →
  Py.split_ws_go (g :: cs) cur
  = match cur with EmptyString => [] | _ => [cur] end ++ Py.split_ws_go cs "".
Proof. intros H. simpl. by rewrite H. Qed.

Lemma split_ws_go_word s cur :
  forallb (λ g, negb (Py.is_space g)) (Utf8.chars s) = true →
  s ≠ "" ∨ cur ≠ "" →
  Py.split_ws_go (Utf8.chars s) cur = [cur +:+ s].
Proof.
  revert cur. induction s as [|g rest Hg Hc _ IH] using chars_ind; intros cur.
  - intros _ [?|Hcur]; [done|]. simpl. rewrite append_nil_r. by destruct cur.
  - rewrite Hc. cbn [forallb]. intros [Hs Hr]%andb_true_iff _.
    apply negb_true_iff in Hs. rewrite split_ws_go_nonspace by done.
    rewrite IH; [by rewrite append_assoc|done|].
    right. destruct cur; [by destruct g | done].
Qed.

(** A command with a payload that has no white space is read as two
    words. *)
Lemma start_command_words payload :
  forallb (λ g, negb (Py.is_space g)) (Utf8.chars payload) = true → payload ≠ "" →
  String.prefix "/start" (start_command payload) = true
  ∧ Py.split_ws (start_command payload) = ["/start"; payload].
Proof.
  intros Hw Hne. split; [done|].
  unfold start_command, Py.split_ws. rewrite chars_app by reflexivity.
  change (Utf8.chars "/start ") with ["/"; "s"; "t"; "a"; "r"; "t"; " "].
  cbn [app]. rewrite !split_ws_go_nonspace by reflexivity.
  rewrite split_ws_go_space by reflexivity.
  rewrite split_ws_go_word by auto. done.
Qed.

(** ** Decimal digits *)

Lemma decimal_range c d :
  Unicode.decimal c = Some d →
  ∃ z, z ∈ Unicode.decimal_zeros ∧ (z <= c < z + 10)%N ∧ d = Z.of_N (c - z).
Proof.
  unfold Unicode.decimal. destruct (List.find _ _) as [z|] eqn:Hf; [|done].
  intros [= <-]. apply find_some in Hf as [Hin Hz]. exists z.
  split; [by apply list_elem_of_In|]. split; [|done].
  apply andb_true_iff in Hz as [H1 H2]. apply N.leb_le in H1. apply N.ltb_lt in H2. done.
Qed.

Lemma decimal_not_space c d : Unicode.decimal c = Some d → Unicode.is_space c = false.
Proof.
  intros (z & Hz & Hc & _)%decimal_range. unfold Unicode.is_space.
  apply bool_decide_eq_false. intros Hw.
  assert (Hall : forallb (λ z, forallb (λ w, negb ((z <=? w) && (w <? z + 10)))%N
                                        Unicode.white_space)
                         Unicode.decimal_zeros = true) by (by vm_compute).
  rewrite forallb_forall in Hall. apply list_elem_of_In in Hz.
  specialize (Hall z Hz). rewrite forallb_forall in Hall.
  apply list_elem_of_In in Hw. specialize (Hall c Hw).
  apply negb_true_iff, andb_false_iff in Hall as [H|H].
  - apply N.leb_gt in H. lia.
  - apply N.ltb_ge in H. lia.
Qed.

Lemma decimal_ascii c d :
  Unicode.decimal c = Some d → (c < 128)%N → (48 <= c <= 57)%N.
Proof.
  intros (z & Hz & Hc & _)%decimal_range Hlt.
  assert (Hall : forallb (λ z, (z =? 48) || (128 <=? z))%N Unicode.decimal_zeros = true)
    by (by vm_compute).
  rewrite forallb_forall in Hall. apply list_elem_of_In in Hz.
  specialize (Hall z Hz). apply orb_true_iff in Hall as [H|H].
  - apply N.eqb_eq in H. lia.
  - apply N.leb_le in H. lia.
Qed.

Lemma decimal_digit c : (48 <= c <= 57)%N → Unicode.decimal c = Some (Z.of_N (c - 48)).
Proof.
  intros Hc. unfold Unicode.decimal, Unicode.decimal_zeros. cbn [List.find].
  assert (H : ((48 <=? c) && (c <? 48 + 10))%N = true).
  { apply andb_true_iff. split; [apply N.leb_le | apply N.ltb_lt]; lia. }
  by rewrite H.
Qed.

Lemma prefix_S_cons c s : c ≠ "S"%char → String.prefix "S" (String c s) = false.
Proof. intros H. cbn [String.prefix]. by destruct (ascii_dec "S" c) as [<-|_]. Qed.

Lemma prefix_S_refl s : String.prefix "S" (String "S" s) = true.
Proof. by destruct s. Qed.

(** What a digit is made of. *)
Lemma digit_part g d :
  Py.digit g = Some d →
  g ≠ ""
  ∧ is_Some (Utf8.decode g)
  ∧ Py.is_space g = false
  ∧ all_chars (λ c, negb (Ascii.eqb c "_")) g = true
  ∧ String.prefix "S" g = false.
Proof.
  unfold Py.digit, Py.is_space. destruct (Utf8.decode g) as [c|] eqn:Hg; [|done].
  cbn [mbind option_bind]. intros Hd.
  split; [by intros ->|]. split; [done|]. split; [by apply (decimal_not_space c d)|].
  destruct (decode_shape g c Hg) as [(a & -> & -> & Hlt)|[Hall _]].
  - pose proof (decimal_ascii _ _ Hd Hlt) as Ha. cbn [all_chars].
    destruct (Ascii.eqb_spec a "_") as [->|_]; [change (N_of_ascii "_") with 95%N in Ha; lia|].
    split; [done|]. apply prefix_S_cons. intros ->.
    change (N_of_ascii "S") with 83%N in Ha. lia.
  - split.
    + eapply all_chars_impl; [|exact Hall]. intros b Hb.
      destruct (Ascii.eqb_spec b "_") as [->|_]; [by vm_compute in Hb | done].
    + destruct g as [|b g]; [done|]. cbn [all_chars] in Hall.
      apply andb_true_iff in Hall as [Hb _]. apply prefix_S_cons. intros ->.
      by vm_compute in Hb.
Qed.

Lemma digits_part cs acc n :
  Py.digits cs acc = Some n → Forall (λ g, is_Some (Py.digit g)) cs.
Proof.
  revert acc. induction cs as [|g cs IH]; intros acc; simpl; [by constructor|].
  destruct (Py.digit g) as [d|] eqn:Hg; [|done]. intros H. constructor; [done|].
  by apply (IH _ H).
Qed.

Lemma unsigned_part s n :
  Py.unsigned s = Some n →
  s ≠ "" ∧ Utf8.valid s = true ∧ part s = true ∧ String.prefix "S" s = false.
Proof.
  unfold Py.unsigned. destruct (Utf8.chars s) as [|g cs] eqn:Hs; [done|].
  intros Hd%digits_part. split; [by intros ->|].
  assert (Hall : Forall (λ g, g ≠ "" ∧ is_Some (Utf8.decode g) ∧ Py.is_space g = false
                              ∧ all_chars (λ c, negb (Ascii.eqb c "_")) g = true
                              ∧ String.prefix "S" g = false) (Utf8.chars s)).
  { rewrite Hs. eapply Forall_impl; [exact Hd|]. intros x [d Hx]. by apply (digit_part x d). }
  split; [|split].
  - unfold Utf8.valid. apply forallb_forall. intros x Hx%list_elem_of_In.
    rewrite Forall_forall in Hall. apply bool_decide_eq_true. by apply Hall.
  - unfold part. apply andb_true_iff. split.
    + rewrite <- (join_chars s) at 1. rewrite all_chars_join. apply forallb_forall.
      intros x Hx%list_elem_of_In. rewrite Forall_forall in Hall. by apply Hall.
    + apply forallb_forall. intros x Hx%list_elem_of_In. rewrite Forall_forall in Hall.
      apply negb_true_iff. by apply Hall.
  - rewrite Hs in Hall. apply Forall_cons in Hall as [(Hne & _ & _ & _ & HS) _].
    rewrite <- (join_chars s), Hs. cbn [foldr].
    destruct g as [|b g]; [done|]. rewrite append_cons.
    apply prefix_S_cons. intros ->. by rewrite prefix_S_refl in HS.
Qed.

(** What [int] accepts is well-formed text without the separator, without
    white space and without a leading ["S"]. *)
Lemma int_part s n :
  Py.int s = Some n →
  s ≠ "" ∧ Utf8.valid s = true ∧ part s = true ∧ String.prefix "S" s = false.
Proof.
  assert (Hsign : ∀ c s', (c = "+" ∨ c = "-")%char →
                    (s' ≠ "" ∧ Utf8.valid s' = true ∧ part s' = true
                     ∧ String.prefix "S" s' = false) →
                    String c s' ≠ "" ∧ Utf8.valid (String c s') = true
                    ∧ part (String c s') = true ∧ String.prefix "S" (String c s') = false).
  { intros c s' Hc (_ & Hv & Hp & _). split; [done|].
    assert (Hch : Utf8.chars (String c s') = String c "" :: Utf8.chars s').
    { destruct Hc as [-> | ->]; done. }
    split; [|split].
    - unfold Utf8.valid in *. rewrite Hch. cbn [forallb]. rewrite Hv.
      by destruct Hc as [-> | ->].
    - unfold part in *. rewrite Hch. cbn [all_chars forallb].
      apply andb_true_iff in Hp as [-> ->]. by destruct Hc as [-> | ->].
    - by destruct Hc as [-> | ->]. }
  unfold Py.int. destruct s as [|c s']; [done|].
  destruct (Ascii.eqb_spec c "-") as [->|Hm].
  { destruct (Py.unsigned s') as [m|] eqn:Hs; [|done]. intros _.
    apply Hsign; [by right|]. by apply (unsigned_part s' m). }
  destruct (Ascii.eqb_spec c "+") as [->|Hp].
  { intros H. apply Hsign; [by left|]. by apply (unsigned_part s' n). }
  intros H. apply (unsigned_part (String c s') n).
  destruct c as [[] [] [] [] [] [] [] []]; done.
Qed.

(** ** Decimal and hexadecimal round trips *)

Lemma chars_ascii_cons c s :
  (N_of_ascii c <? 128)%N = true → Utf8.chars (String c s) = String c "" :: Utf8.chars s.
Proof.
  intros Hc. cbn [Utf8.chars].
  assert (Ht : Utf8.trail c = 0%nat).
  { unfold Utf8.trail. apply N.ltb_lt in Hc.
    destruct (N_of_ascii c <? 192)%N eqn:H; [done|]. apply N.ltb_ge in H. lia. }
  by rewrite Ht.
Qed.

Lemma digit_pretty_char d :
  (d < 10)%N →
  (N_of_ascii (pretty_N_char d) <? 128)%N = true
  ∧ Py.digit (String (pretty_N_char d) "") = Some (Z.of_N d).
Proof.
  intros Hlt.
  assert (d = 0 ∨ d = 1 ∨ d = 2 ∨ d = 3 ∨ d = 4 ∨ d = 5 ∨ d = 6 ∨ d = 7
          ∨ d = 8 ∨ d = 9)%N as Hc by lia.
  destruct Hc as [->|[->|[->|[->|[->|[->|[->|[->|[->| ->]]]]]]]]]; by vm_compute.
Qed.

Lemma digits_pretty_go x s :
  Py.digits (Utf8.chars (pretty_N_go x s)) 0 = Py.digits (Utf8.chars s) (Z.of_N x).
Proof.
  revert s. induction (N.lt_wf_0 x) as [x _ IH]; intros s.
  assert (x = 0 ∨ 0 < x)%N as [->|Hx] by lia; [by rewrite pretty_N_go_0|].
  rewrite pretty_N_go_step by done. rewrite IH by (by apply N.div_lt).
  destruct (digit_pretty_char (x `mod` 10)) as [Ha Hd]; [by apply N.mod_lt|].
  rewrite chars_ascii_cons by done. cbn [Py.digits]. rewrite Hd. f_equal.
  rewrite (N.div_mod x 10) at 3 by done. lia.
Qed.

(** The characters of a printed number are ASCII digits. *)
Lemma pretty_go_digits x s :
  all_chars (λ c, (48 <=? N_of_ascii c) && (N_of_ascii c <=? 57))%N s = true →
  all_chars (λ c, (48 <=? N_of_ascii c) && (N_of_ascii c <=? 57))%N (pretty_N_go x s) = true.
Proof.
  revert s. induction (N.lt_wf_0 x) as [x _ IH]; intros s Hs.
  assert (x = 0 ∨ 0 < x)%N as [->|Hx] by lia; [by rewrite pretty_N_go_0|].
  rewrite pretty_N_go_step by done. apply IH; [by apply N.div_lt|].
  cbn [all_chars]. rewrite Hs, andb_true_r. unfold pretty_N_char.
  by repeat case_match.
Qed.

Lemma unsigned_pretty_pos (p : positive) :
  Py.unsigned (pretty p) = Some (Z.pos p)
  ∧ ∃ c s, pretty p = String c s ∧ ((48 <=? N_of_ascii c) && (N_of_ascii c <=? 57))%N = true.
Proof.
  assert (Hp : pretty p = pretty_N_go (N.pos p) "").
  { unfold pretty, pretty_positive, pretty, pretty_N. by rewrite decide_False. }
  assert (Hd : Py.digits (Utf8.chars (pretty p)) 0 = Some (Z.pos p)).
  { by rewrite Hp, digits_pretty_go. }
  assert (Hall : all_chars (λ c, (48 <=? N_of_ascii c) && (N_of_ascii c <=? 57))%N (pretty p)
                 = true).
  { rewrite Hp. by apply pretty_go_digits. }
  unfold Py.unsigned. destruct (pretty p) as [|c s] eqn:Hs; [done|].
  split.
  - destruct (Utf8.chars (String c s)) eqn:Hc; [done | exact Hd].
  - exists c, s. split; [done|]. cbn [all_chars] in Hall. by apply andb_true_iff in Hall as [? _].
Qed.

(** [int(str(z)) = z] *)
Lemma int_pretty (z : Z) : Py.int (pretty z) = Some z.
Proof.
  destruct z as [|p|p]; [by vm_compute| |].
  - change (pretty (Z.pos p)) with (pretty p).
    destruct (unsigned_pretty_pos p) as (Hu & c & s & Hp & Hc). rewrite Hp in *.
    unfold Py.int. destruct (Ascii.eqb_spec c "-") as [->|_]; [done|].
    destruct (Ascii.eqb_spec c "+") as [->|_]; [done|].
    destruct c as [[] [] [] [] [] [] [] []]; done.
  - change (pretty (Z.neg p)) with ("-" +:+ pretty p).
    rewrite append_cons, append_nil. unfold Py.int.
    by rewrite (proj1 (unsigned_pretty_pos p)).
Qed.

(** ** Object ids *)

Lemma hex_char_facts c d :
  Bson.hex c = Some d →
  (d < 16)%N ∧ (N_of_ascii c <? 128)%N = true ∧ Bson.isspace c = false
  ∧ negb (Ascii.eqb c "_") = true ∧ Py.is_space (String c "") = false.
Proof.
  destruct c as [[] [] [] [] [] [] [] []]; vm_compute; intros [= <-]; done.
Qed.

Lemma isspace_ascii c : Bson.isspace c = true → (N_of_ascii c <? 128)%N = true.
Proof. destruct c as [[] [] [] [] [] [] [] []]; by vm_compute. Qed.

(** What [bytes.fromhex] accepts: ASCII, two digits at least per byte, and
    digits only when there are exactly two per byte. *)
Lemma fromhex_spec s bs :
  Bson.fromhex s = Some bs →
  all_chars (λ c, N_of_ascii c <? 128)%N s = true
  ∧ (2 * length bs ≤ String.length s)%nat
  ∧ (String.length s = (2 * length bs)%nat →
     all_chars (λ c, bool_decide (is_Some (Bson.hex c))) s = true).
Proof.
  assert (H : ∀ n s bs, (String.length s ≤ n)%nat → Bson.fromhex s = Some bs →
            all_chars (λ c, N_of_ascii c <? 128)%N s = true
            ∧ (2 * length bs ≤ String.length s)%nat
            ∧ (String.length s = (2 * length bs)%nat →
               all_chars (λ c, bool_decide (is_Some (Bson.hex c))) s = true)).
  { clear. induction n as [|n IH]; intros s bs Hlen.
    { destruct s; [|simpl in Hlen; lia]. intros [= <-]. done. }
    destruct s as [|c s1]; [intros [= <-]; done|]. cbn [Bson.fromhex].
    destruct (Bson.isspace c) eqn:Hsp.
    - intros Hf. simpl in Hlen.
      destruct (IH s1 bs ltac:(lia) Hf) as (Ha & Hl & _).
      cbn [all_chars String.length]. rewrite (isspace_ascii c Hsp), Ha.
      split; [done|]. split; lia.
    - destruct (Bson.hex c) as [top|] eqn:Hc; [|done].
      destruct s1 as [|c' s2]; [done|].
      destruct (Bson.hex c') as [bot|] eqn:Hc'; [|done].
      destruct (Bson.fromhex s2) as [bs'|] eqn:Hf; [|done]. intros [= <-].
      simpl in Hlen. destruct (IH s2 bs' ltac:(lia) Hf) as (Ha & Hl & Hfull).
      destruct (hex_char_facts c top Hc) as (_ & Hac & _).
      destruct (hex_char_facts c' bot Hc') as (_ & Hac' & _).
      cbn [all_chars String.length length]. rewrite Hac, Hac', Ha, Hc, Hc'.
      split; [done|]. split; [lia|]. intros Heq. rewrite Hfull by lia.
      by rewrite !bool_decide_eq_true_2 by eauto. }
  by apply (H (String.length s)).
Qed.

Lemma fromhex_hexs k s acc :
  String.length s = (2 * k)%nat →
  all_chars (λ c, bool_decide (is_Some (Bson.hex c))) s = true →
  ∃ bs, Bson.fromhex s = Some bs
        ∧ length bs = k
        ∧ hexs s acc = Some (foldl (λ acc b, 256 * acc + b)%N acc bs).
Proof.
  revert s acc. induction k as [|k IH]; intros s acc Hlen Hall.
  { destruct s; [|done]. by exists []. }
  destruct s as [|c [|c' s2]]; try (simpl in Hlen; lia).
  cbn [all_chars] in Hall.
  apply andb_true_iff in Hall as [[top Hc]%bool_decide_eq_true
                                  [[bot Hc']%bool_decide_eq_true Hall]%andb_true_iff].
  destruct (IH s2 (256 * acc + (16 * top + bot))%N) as (bs & Hf & Hl & Hh);
    [simpl in Hlen; lia | done |].
  exists ((16 * top + bot)%N :: bs).
  destruct (hex_char_facts c top Hc) as (_ & _ & Hsp & _).
  cbn [Bson.fromhex hexs]. rewrite Hsp, Hc, Hc', Hf. split; [done|].
  split; [simpl; by rewrite Hl|]. cbn [foldl]. rewrite <- Hh. f_equal. lia.
Qed.

Lemma len_ascii s :
  all_chars (λ c, N_of_ascii c <? 128)%N s = true → Py.len s = String.length s.
Proof.
  intros Hs. unfold Py.len. rewrite chars_ascii by done. rewrite length_fmap.
  clear. induction s as [|c s IH]; [done|]. simpl. by rewrite IH.
Qed.

(** Twelve bytes need the 24 hexadecimal digits. *)
Lemma ObjectId_full s n :
  Bson.ObjectId s = Some (Bson.full n) →
  all_chars (λ c, bool_decide (is_Some (Bson.hex c))) s = true
  ∧ String.length s = 24%nat
  ∧ hexs s 0 = Some n.
Proof.
  unfold Bson.ObjectId. destruct (Py.len s =? 24)%nat eqn:Hl; [|done].
  destruct (Bson.fromhex s) as [bs|] eqn:Hf; [|done].
  destruct (length bs =? 12)%nat eqn:H12; [|done]. intros [= <-].
  apply Nat.eqb_eq in Hl, H12.
  destruct (fromhex_spec s bs Hf) as (Ha & _ & Hfull).
  rewrite len_ascii in Hl by done.
  assert (Hhex : all_chars (λ c, bool_decide (is_Some (Bson.hex c))) s = true).
  { apply Hfull. lia. }
  split; [done|]. split; [done|].
  destruct (fromhex_hexs 12 s 0%N) as (bs' & Hf' & _ & Hh); [lia | done |].
  rewrite Hf in Hf'. by injection Hf' as <-.
Qed.

Lemma hex_string_part s :
  all_chars (λ c, bool_decide (is_Some (Bson.hex c))) s = true →
  Utf8.valid s = true ∧ part s = true ∧ all_chars (λ c, N_of_ascii c <? 128)%N s = true.
Proof.
  intros Hs.
  assert (Ha : all_chars (λ c, N_of_ascii c <? 128)%N s = true).
  { eapply all_chars_impl; [|exact Hs]. intros c [d Hc]%bool_decide_eq_true.
    by destruct (hex_char_facts c d Hc) as (_ & ? & _). }
  split; [by apply valid_ascii|]. split; [|done]. unfold part. rewrite chars_ascii by done.
  clear Ha. induction s as [|c s IH]; [done|]. cbn [all_chars] in Hs.
  apply andb_true_iff in Hs as [[d Hc]%bool_decide_eq_true Hs].
  destruct (hex_char_facts c d Hc) as (_ & _ & _ & Hu & Hw).
  specialize (IH Hs). apply andb_true_iff in IH as [IH1 IH2].
  cbn [all_chars list_ascii_of_string]. csimpl. by rewrite Hu, Hw, IH1, IH2.
Qed.

Lemma ObjectId_part s n :
  Bson.ObjectId s = Some (Bson.full n) →
  s ≠ "" ∧ Utf8.valid s = true ∧ part s = true.
Proof.
  intros (Hhex & Hlen & _)%ObjectId_full.
  destruct (hex_string_part s Hhex) as (Hv & Hp & _).
  split; [by intros ->|]. done.
Qed.

Lemma hex_of_hex_char d :
  (d < 16)%N → Bson.hex (hex_char d) = Some d.
Proof.
  intros Hd.
  assert (d = 0 ∨ d = 1 ∨ d = 2 ∨ d = 3 ∨ d = 4 ∨ d = 5 ∨ d = 6 ∨ d = 7 ∨ d = 8
          ∨ d = 9 ∨ d = 10 ∨ d = 11 ∨ d = 12 ∨ d = 13 ∨ d = 14 ∨ d = 15)%N as Hc by lia.
  destruct Hc as [->|[->|[->|[->|[->|[->|[->|[->|[->|[->|[->|[->|[->|[->|[->| ->]]]]]]]]]]]]]]];
    done.
Qed.

Lemma hexs_app a b acc : hexs (a +:+ b) acc = hexs a acc ≫= hexs b.
Proof.
  revert acc. induction a as [|c a IH]; intros acc; [done|].
  rewrite append_cons. simpl. destruct (Bson.hex c); [apply IH | done].
Qed.

Lemma hexs_hex_digits k n acc :
  hexs (hex_digits k n) acc = Some (acc * 16 ^ N.of_nat k + n `mod` 16 ^ N.of_nat k)%N.
Proof.
  revert n acc. induction k as [|k IH]; intros n acc.
  - cbn [hex_digits hexs]. f_equal. change (N.of_nat 0) with 0%N.
    rewrite N.pow_0_r, N.mod_1_r. lia.
  - cbn [hex_digits]. rewrite hexs_app, IH. cbn [mbind option_bind hexs].
    rewrite hex_of_hex_char by (by apply N.mod_lt). f_equal.
    rewrite Nat2N.inj_succ, N.pow_succ_r'.
    generalize (16 ^ N.of_nat k)%N as m. intros m.
    rewrite (N.Div0.mod_mul_r n 16 m). lia.
Qed.

Lemma length_hex_digits k n : String.length (hex_digits k n) = k.
Proof.
  revert n. induction k as [|k IH]; intros n; [done|]. cbn [hex_digits].
  rewrite length_append, IH. simpl. lia.
Qed.

Lemma hex_digits_hex k n :
  all_chars (λ c, bool_decide (is_Some (Bson.hex c))) (hex_digits k n) = true.
Proof.
  revert n. induction k as [|k IH]; intros n; [done|]. cbn [hex_digits].
  rewrite all_chars_app, IH. cbn [all_chars].
  rewrite hex_of_hex_char by (by apply N.mod_lt). by rewrite bool_decide_eq_true_2 by eauto.
Qed.

(** [ObjectId(str(oid)) = oid] for a 12-byte id. *)
Lemma ObjectId_oid_str oid :
  (oid < 2 ^ 96)%N → Bson.ObjectId (oid_str oid) = Some (Bson.full oid).
Proof.
  intros Hlt. unfold Bson.ObjectId, oid_str.
  pose proof (hex_digits_hex 24 oid) as Hhex.
  destruct (hex_string_part _ Hhex) as (_ & _ & Ha).
  rewrite len_ascii, length_hex_digits by done. rewrite Nat.eqb_refl.
  destruct (fromhex_hexs 12 (hex_digits 24 oid) 0%N) as (bs & Hf & Hl & Hh);
    [by rewrite length_hex_digits | done |].
  rewrite Hf, Hl, Nat.eqb_refl. do 2 f_equal.
  rewrite hexs_hex_digits in Hh. injection Hh as Hh. unfold Bson.value. rewrite <- Hh.
  rewrite N.mul_0_l, N.add_0_l. apply N.mod_small. exact Hlt.
Qed.

Lemma snoc_append l c a :
  string_of_list_ascii (l ++ [c]) +:+ a = string_of_list_ascii l +:+ String c a.
Proof.
  induction l as [|x l IH]; simpl; [done|]. by rewrite !append_cons, IH.
Qed.

Lemma split_go_part sep a b cur :
  all_chars (λ c, negb (Ascii.eqb c sep)) a = true →
  Py.split_go sep (a +:+ String sep b) cur
  = (string_of_list_ascii (rev cur) +:+ a) :: Py.split_go sep b [].
Proof.
  revert cur. induction a as [|c a IH]; intros cur.
  - intros _. rewrite append_nil. simpl. rewrite Ascii.eqb_refl. f_equal.
    induction (string_of_list_ascii (rev cur)) as [|x l IHl]; [done|].
    by rewrite append_cons, <- IHl.
  - rewrite append_cons. simpl.
    intros [Hc Ha]%andb_true_iff. apply negb_true_iff in Hc. rewrite Hc, IH by done.
    simpl. by rewrite snoc_append.
Qed.

Lemma split_go_last sep a cur :
  all_chars (λ c, negb (Ascii.eqb c sep)) a = true →
  Py.split_go sep a cur = [string_of_list_ascii (rev cur) +:+ a].
Proof.
  revert cur. induction a as [|c a IH]; intros cur; simpl.
  - intros _. f_equal.
    induction (string_of_list_ascii (rev cur)) as [|x l IHl]; [done|].
    by rewrite append_cons, <- IHl.
  - intros [Hc Ha]%andb_true_iff. apply negb_true_iff in Hc. rewrite Hc, IH by done.
    simpl. by rewrite snoc_append.
Qed.

Lemma part_sep s : part s = true → all_chars (λ c, negb (Ascii.eqb c "_")) s = true.
Proof. unfold part. by intros [? _]%andb_true_iff. Qed.

Lemma part_word s :
  part s = true → forallb (λ g, negb (Py.is_space g)) (Utf8.chars s) = true.
Proof. unfold part. by intros [_ ?]%andb_true_iff. Qed.

(** Text without white space put after well-formed text without white
    space has none. *)
Lemma word_app a b :
  Utf8.valid a = true →
  forallb (λ g, negb (Py.is_space g)) (Utf8.chars a) = true →
  forallb (λ g, negb (Py.is_space g)) (Utf8.chars b) = true →
  forallb (λ g, negb (Py.is_space g)) (Utf8.chars (a +:+ b)) = true.
Proof. intros Hv Ha Hb. rewrite chars_app by done. by rewrite forallb_app, Ha, Hb. Qed.

Lemma split_two a b :
  part a = true → part b = true → Py.split "_" (a +:+ ("_" +:+ b)) = [a; b].
Proof.
  intros Ha Hb. unfold Py.split. rewrite append_cons, append_nil.
  rewrite split_go_part by (by apply part_sep). simpl. f_equal.
  by rewrite split_go_last by (by apply part_sep).
Qed.

Lemma split_three a b c :
  part a = true → part b = true → part c = true →
  Py.split "_" (a +:+ ("_" +:+ (b +:+ ("_" +:+ c)))) = [a; b; c].
Proof.
  intros Ha Hb Hc. unfold Py.split. rewrite !append_cons, !append_nil.
  rewrite split_go_part by (by apply part_sep). simpl. f_equal.
  rewrite split_go_part by (by apply part_sep). simpl. f_equal.
  by rewrite split_go_last by (by apply part_sep).
Qed.

(** A payload of two parts is one word, and so is one of three parts. *)
Lemma payload_two a b :
  a ≠ "" → Utf8.valid a = true → part a = true → part b = true →
  a +:+ ("_" +:+ b) ≠ ""
  ∧ forallb (λ g, negb (Py.is_space g)) (Utf8.chars (a +:+ ("_" +:+ b))) = true.
Proof.
  intros Hne Hv Ha Hb. split; [by destruct a|].
  apply word_app; [done | by apply part_word|].
  apply word_app; [done | done | by apply part_word].
Qed.

Lemma payload_three a b c :
  a ≠ "" → Utf8.valid a = true → part a = true →
  Utf8.valid b = true → part b = true → part c = true →
  a +:+ ("_" +:+ (b +:+ ("_" +:+ c))) ≠ ""
  ∧ forallb (λ g, negb (Py.is_space g)) (Utf8.chars (a +:+ ("_" +:+ (b +:+ ("_" +:+ c))))) = true.
Proof.
  intros Hne Hva Ha Hvb Hb Hc. split; [by destruct a|].
  apply word_app; [done | by apply part_word|].
  apply word_app; [done | done |].
  apply word_app; [done | by apply part_word|].
  apply word_app; [done | done | by apply part_word].
Qed.

(** A query by an id finds documents of this id only, and none for an
    id of fewer than twelve bytes. *)
Lemma find_by_id oid l d :
  Mongo.find_one (Mongo.by_id oid) l = Some d → oid = Bson.full (_id d).
Proof.
  intros [_ Hq]%find_one_elem. destruct oid as [i|bs]; [|done].
  apply bool_decide_eq_true in Hq. by rewrite Hq.
Qed.

(** A link built from an entry id, a season and a quality is decoded into
    these three parts. *)
Lemma pack_link_decodes id_str sd quality (oid : N) season :
  Bson.ObjectId id_str = Some (Bson.full oid) →
  Py.int sd = Some season →
  part quality = true →
  start_token (pack_link id_str sd quality) [id_str; String "S" sd; quality] oid.
Proof.
  intros Hoid Hint Hq. destruct (ObjectId_part id_str oid Hoid) as (Hne & Hv & Hid).
  destruct (int_part sd season Hint) as (_ & Hvs & Hsd & _).
  assert (HvS : Utf8.valid (String "S" sd) = true).
  { change (String "S" sd) with ("S" +:+ sd). by apply valid_app. }
  assert (HS : part (String "S" sd) = true).
  { unfold part in *. apply andb_true_iff in Hsd as [H1 H2].
    rewrite chars_ascii_cons by done. cbn [all_chars forallb]. by rewrite H1, H2. }
  destruct (payload_three id_str (String "S" sd) quality) as [Hpne Hw]; try done.
  destruct (start_command_words _ Hw Hpne) as [Hp Hs].
  split; [done|]. split; [|done].
  eexists _, _, _. split; [exact Hs|]. by apply split_three.
Qed.

Lemma locate_pack content id_str sd quality season :
  Py.int sd = Some season →
  locate content [id_str; String "S" sd; quality]
  = Ok (match List.find (λ p, (Pack.season p =? season)
                              && String.eqb (Pack.quality p) quality)
                        (season_packs content) with
        | Some pack =>
            Some (Pack.message_id pack,
                  "Complete Season " +:+ pretty season +:+ " (" +:+ quality +:+ ")")
        | None => None
        end).
Proof.
  intros Hint. unfold locate.
  replace (String.prefix "S" (String "S" sd)) with true by (by destruct sd).
  replace (String.substring 1 (String.length (String "S" sd) - 1) (String "S" sd)) with sd.
  2:{ simpl. by rewrite Nat.sub_0_r, substring_all. }
  rewrite Hint. by destruct (List.find _ _).
Qed.

(** C5. A token [<entryId>_S<season>_<quality>] for a stored entry: when
    [season_packs] has a record with this season and quality, the message of
    the first such record (the only one when keys are unique) is what the
    handler copies to the requester; when it has none, the requester is sent
    the not-found notice, nothing is copied and nothing is scheduled. *)
Theorem season_pack_token_resolves cfg E chat id_str sd quality oid content season w :
  let text := pack_link id_str sd quality in
  Bson.ObjectId id_str = Some oid →
  Py.int sd = Some season →
  part quality = true →
  Mongo.find_one (Mongo.by_id oid) (movies w) = Some content →
  (∀ pack, pack ∈ season_packs content → Pack.key pack = (season, quality) →
     ∃ first res w' cs,
       telegram_webhook cfg E (start_update chat text) w = (res, w')
       ∧ first ∈ season_packs content
       ∧ Pack.key first = (season, quality)
       ∧ (unique_packs content → first = pack)
       ∧ sent w' = sent w
                   ++ copyMessage chat (ADMIN_CHANNEL_ID cfg) (Pack.message_id first)
                        (title content)
                        ("Complete Season " +:+ pretty season +:+ " (" +:+ quality +:+ ")")
                      :: cs
       ∧ Forall (λ c, c ≠ notice chat NOT_FOUND_TEXT) cs)
  ∧ ((∀ pack, pack ∈ season_packs content → Pack.key pack ≠ (season, quality)) →
     ∃ res w' cs,
       telegram_webhook cfg E (start_update chat text) w = (res, w')
       ∧ sent w' = sent w ++ notice chat NOT_FOUND_TEXT :: cs
       ∧ Forall (λ c, is_copy c = false) cs
       ∧ jobs w' = jobs w
       ∧ movies w' = movies w
       ∧ (telegram E (notice chat NOT_FOUND_TEXT) ≠ raises → res = Ok ok_reply ∧ cs = [])).
Proof.
  intros text Hoid Hint Hq Hfind.
  pose proof (find_by_id _ _ _ Hfind) as ->.
  pose proof (pack_link_decodes id_str sd quality _ season Hoid Hint Hq) as Htok.
  fold text in Htok.
  pose proof (locate_pack content id_str sd quality season Hint) as Hloc.
  split.
  - intros pack Hpack Hkey.
    destruct (find_first (λ p, (Pack.season p =? season) && String.eqb (Pack.quality p) quality)
                (season_packs content) pack Hpack) as (first & Hfirst & Hin & Hsame).
    { by apply same_pack. }
    rewrite Hfirst in Hloc. apply same_pack in Hsame.
    destruct (webhook_located cfg E chat text _ _ content _ w Htok Hfind Hloc)
      as (res & w' & cs & Hrun & _ & Hsent & Hcs & _).
    exists first, res, w', cs. split; [done|]. split; [done|]. split; [done|].
    split. { intros Hu. apply (NoDup_key_eq Pack.key (season_packs content)); try done.
             congruence. }
    split; [done|]. eapply Forall_impl; [exact Hcs|]. by intros c [_ Hc].
  - intros Hnone.
    assert (Hnf : List.find (λ p, (Pack.season p =? season)
                                  && String.eqb (Pack.quality p) quality)
                            (season_packs content) = None).
    { destruct (List.find _ _) as [pack|] eqn:Hf; [|done].
      apply find_some in Hf as [Hin Hsame]. apply same_pack in Hsame.
      apply list_elem_of_In in Hin. by destruct (Hnone pack Hin). }
    rewrite Hnf in Hloc.
    destruct (webhook_located cfg E chat text _ _ content _ w Htok Hfind Hloc)
      as (res & w' & cs & Hrun & Hmov & Hjobs & Hsent & Hcs & Hok).
    exists res, w', cs. done.
Qed.

(** C7. When the copy is answered with a non-ok response, the failure
    notice is the next call, no other copy is attempted and no job is
    scheduled. *)
Theorem failed_copy_is_reported cfg E chat text parts oid content mid info res w :
  start_token text parts oid →
  Mongo.find_one (Mongo.by_id oid) (movies w) = Some content →
  locate content parts = Ok (Some (mid, info)) →
  telegram E (copyMessage chat (ADMIN_CHANNEL_ID cfg) mid (title content) info)
  = returns res →
  ok res = false →
  ∃ r w' cs,
    telegram_webhook cfg E (start_update chat text) w = (r, w')
    ∧ sent w' = sent w
                ++ [copyMessage chat (ADMIN_CHANNEL_ID cfg) mid (title content) info;
                    notice chat COPY_FAILED_TEXT]
                ++ cs
    ∧ Forall (λ c, is_copy c = false) cs
    ∧ jobs w' = jobs w
    ∧ movies w' = movies w
    ∧ (telegram E (notice chat COPY_FAILED_TEXT) ≠ raises → r = Ok ok_reply ∧ cs = []).
Proof.
  intros Htok Hfind Hloc Hcopy Hok.
  destruct (webhook_located cfg E chat text _ oid content _ w Htok Hfind Hloc)
    as (r & w' & cs & Hrun & Hmov & Hsent & Hcs & _ & Hfail).
  destruct (Hfail res Hcopy Hok) as (Hjobs & cs' & -> & Hret).
  exists r, w', cs'. split; [done|]. split; [done|].
  split. { apply Forall_cons in Hcs as [_ Hcs]. eapply Forall_impl; [exact Hcs|].
           by intros c [Hc _]. }
  done.
Qed.

(** C8, as the code has it.  A channel post from another chat is answered
    [ok] and changes nothing; a file name without a parsable title is
    answered [ok] and changes nothing; an exception in the [try] block of a
    [/start] command is followed by the attempt to send the error notice, and
    the webhook returns [ok] exactly when that attempt returns: when it
    raises, the exception leaves the handler. *)
Theorem failures_are_contained cfg E :
  (∀ post msg w,
      Py.str (Post.chat_id post) ≠ ADMIN_CHANNEL_ID cfg →
      telegram_webhook cfg E (mkupdate (Some post) msg) w
      = (Ok (mkreply "ok" (Some "not_admin_channel")), w))
  ∧ (∀ post msg filename w,
        carries cfg post filename →
        parse_filename E filename ≫= (λ p, Py.nonempty (Parsed.title p)) = None →
        telegram_webhook cfg E (mkupdate (Some post) msg) w
        = (Ok (mkreply "ok" (Some "parsing_failed")), w))
  ∧ (∀ chat text cmd token rest w e w1,
        String.prefix "/start" text = true →
        Py.split_ws text = cmd :: token :: rest →
        start_body cfg E chat token w = (Raise e, w1) →
        movies w1 = movies w
        ∧ telegram_webhook cfg E (start_update chat text) w
          = (match telegram E (notice chat UNEXPECTED_TEXT) with
             | returns _ => Ok ok_reply
             | raises => Raise RequestException
             end,
             log [notice chat UNEXPECTED_TEXT] w1)).
Proof.
  split; [|split].
  - intros post msg w Hne. unfold telegram_webhook, handle_channel_post. simpl.
    apply String.eqb_neq in Hne. by rewrite Hne.
  - intros post msg filename w [Hchat Hfile] Hparse.
    unfold telegram_webhook, handle_channel_post. simpl.
    rewrite Hchat, String.eqb_refl. simpl.
    assert (Hf : (match Post.video post with
                  | Some v => Some v
                  | None => Post.document post
                  end) ≫= (λ f, Py.nonempty (Attachment.file_name f)) = Some filename).
    { by destruct (Post.video post). }
    rewrite Hf. destruct (parse_filename E filename) as [p|]; [|done].
    simpl in Hparse. by rewrite Hparse.
  - intros chat text cmd token rest w e w1 Hp Hs Hbody. split.
    + pose proof (handle_message_movies cfg E (Message.mk chat (Some text)) w) as Hm.
      unfold handle_message in Hm. simpl in Hm. rewrite Hp, Hs in Hm.
      unfold try_except in Hm. rewrite Hbody in Hm.
      unfold mbind, M_bind, request in Hm.
      destruct (telegram E _); simpl in Hm; by rewrite <- Hm.
    + rewrite (webhook_start cfg E chat text cmd token rest w Hp Hs), Hbody.
      by destruct (telegram E _).
Qed.

(** C8, as the specification has it, fails: with the messaging API
    unreachable, a [/start] command with a malformed id raises in the [try]
    block, the error notice raises in turn, and the webhook does not
    return. *)
Lemma failures_are_contained_counterexample :
  let cfg := mkconfig "-100" None "bot" in
  let E := mkenv (λ _, None) (λ _ _ _, None) 0%N 0 (λ _, raises) in
  let w := mkworld [] ∅ [] in
  start_body cfg E 7 "x" w = (Raise InvalidId, w)
  ∧ telegram_webhook cfg E (start_update 7 "/start x") w
    = (Raise RequestException, log [notice 7 UNEXPECTED_TEXT] w).
Proof. split; reflexivity. Qed.

(** ** The scheduler *)

Section Scheduler.

Variable E : env.

Lemma delete_message_after_delay_eq chat n w :
  delete_message_after_delay E chat n w = (Ok tt, log [deleteMessage chat n] w).
Proof.
  unfold delete_message_after_delay. munfold. unfold request.
  by destruct (telegram E _).
Qed.

Lemma run_jobs_eq l w : run_jobs E l w = (Ok tt, log (deletion <$> l) w).
Proof.
  revert w. induction l as [|kj l IH]; intros w; csimpl.
  - by rewrite log_nil.
  - unfold mbind, M_bind. rewrite delete_message_after_delay_eq, IH, log_log. done.
Qed.

(** Every due job leaves the store, and is run, in one call, when the
    scheduler is in time for it. *)
Lemma wake_up_eq t w :
  wake_up E t w
  = (Ok tt,
     mkworld (movies w) (filter (λ kj, due t kj.2 = false) (jobs w))
             (sent w ++ (deletion <$> List.filter (λ kj, in_time t kj.2)
                                        (List.filter (λ kj, due t kj.2)
                                                     (map_to_list (jobs w)))))).
Proof. unfold wake_up. by rewrite run_jobs_eq. Qed.

End Scheduler.

Lemma pretty_part (z : Z) : part (pretty z) = true.
Proof. by destruct (int_part _ z (int_pretty z)) as (_ & _ & ? & _). Qed.

Lemma job_id_parts chat n : Py.split "_" (job_id chat n) = ["del"; pretty chat; pretty n].
Proof.
  unfold job_id.
  change ("del_" +:+ (pretty chat +:+ "_" +:+ pretty n))
    with ("del" +:+ ("_" +:+ (pretty chat +:+ ("_" +:+ pretty n)))).
  apply split_three; [done | apply pretty_part | apply (pretty_part (Z.pos n))].
Qed.

(** The id of a job names its chat and its message. *)
Lemma job_id_inj chat n chat' n' : job_id chat n = job_id chat' n' → chat = chat' ∧ n = n'.
Proof.
  intros H. apply (f_equal (Py.split "_")) in H. rewrite !job_id_parts in H.
  injection H as Hc Hn.
  apply (f_equal Py.int) in Hc. rewrite !int_pretty in Hc.
  apply (f_equal Py.int) in Hn.
  change (pretty n) with (pretty (Z.pos n)) in Hn.
  change (pretty n') with (pretty (Z.pos n')) in Hn.
  rewrite !int_pretty in Hn. by simplify_eq.
Qed.


Lemma keyed_insert chat n t js :
  keyed js → keyed (<[job_id chat n := Job.mk t chat n]> js).
Proof.
  intros Hk k j. rewrite lookup_insert. case_decide as Heq.
  - intros [= <-]. done.
  - apply Hk.
Qed.







(** A delivery that goes through schedules the deletion of the copy. *)
Lemma delivery_ok cfg E chat text parts oid content mid info n w :
  start_token text parts oid →
  Mongo.find_one (Mongo.by_id oid) (movies w) = Some content →
  locate content parts = Ok (Some (mid, info)) →
  telegram E (copyMessage chat (ADMIN_CHANNEL_ID cfg) mid (title content) info)
  = returns (mkresp true (Some n)) →
  telegram_webhook cfg E (start_update chat text) w
  = (Ok ok_reply,
     scheduled E chat n
       (log [copyMessage chat (ADMIN_CHANNEL_ID cfg) mid (title content) info] w)).
Proof.
  intros (Hp & (cmd & token & rest & Hs & Hparts) & Hoid) Hfind Hloc Hcopy.
  rewrite (webhook_start cfg E chat text cmd token rest w Hp Hs).
  rewrite (start_body_found cfg E chat token oid content w); [|by rewrite Hparts|done].
  rewrite Hparts, Hloc. cbn zeta. by rewrite Hcopy.
Qed.





(** ** The invariants of the data model *)

Lemma merge_release_cases e p m w :
  movies (merge_release e p m w).2 = movies w
  ∨ movies (merge_release e p m w).2
    = Mongo.update_one (Mongo.by_id (_id e)) (merged p m) (movies w).
Proof.
  destruct (String.eqb_spec (Parsed.type p) "movie") as [Hm|Hm].
  { right. rewrite merge_release_eq; [done | by apply complete_movie]. }
  destruct (String.eqb_spec (Parsed.type p) "series_pack") as [Hp|Hp].
  { destruct (Parsed.season p) as [s|] eqn:Hs, (Parsed.quality p) as [q|] eqn:Hq.
    - right. rewrite merge_release_eq; [done|]. unfold complete. rewrite Hp, Hs, Hq.
      split; [eauto | done].
    - left. unfold merge_release. rewrite Hp, Hs, Hq. munfold. done.
    - left. unfold merge_release. rewrite Hp, Hs. munfold. done.
    - left. unfold merge_release. rewrite Hp, Hs. munfold. done. }
  destruct (String.eqb_spec (Parsed.type p) "series") as [Hs|Hs].
  { destruct (Parsed.season p) as [s|] eqn:Hse, (Parsed.episode p) as [x|] eqn:Hx.
    - right. rewrite merge_release_eq; [done|]. unfold complete. rewrite Hs, Hse, Hx.
      split; [done | eauto].
    - left. unfold merge_release. rewrite Hs, Hse, Hx. munfold. done.
    - left. unfold merge_release. rewrite Hs, Hse. munfold. done.
    - left. unfold merge_release. rewrite Hs, Hse. munfold. done. }
  right. rewrite merge_release_eq; [done|]. by split.
Qed.

Lemma apply_languages u d :
  languages (Mongo.apply u d)
  = match Mongo.addToSet_languages u with
    | Some l => Mongo.add_each l (languages d)
    | None => languages d
    end.
Proof. unfold Mongo.apply, Mongo.apply_push. destruct u as [[l|] [[]|]]; done. Qed.

Lemma apply_files u d :
  files (Mongo.apply u d)
  = match Mongo.op_push u with
    | Some (Mongo.push_files f) => files d ++ [f]
    | _ => files d
    end.
Proof. unfold Mongo.apply, Mongo.apply_push. destruct u as [[l|] [[]|]]; done. Qed.

Lemma apply_episodes u d :
  episodes (Mongo.apply u d)
  = match Mongo.op_push u with
    | Some (Mongo.push_episodes e) => episodes d ++ [e]
    | _ => episodes d
    end.
Proof. unfold Mongo.apply, Mongo.apply_push. destruct u as [[l|] [[]|]]; done. Qed.

Lemma apply_season_packs u d :
  season_packs (Mongo.apply u d)
  = match Mongo.op_push u with
    | Some (Mongo.push_season_packs x) => season_packs d ++ [x]
    | _ => season_packs d
    end.
Proof. unfold Mongo.apply, Mongo.apply_push. destruct u as [[l|] [[]|]]; done. Qed.

Lemma NoDup_addToSet a l :
  NoDup l →
  NoDup (match a with Some new => Mongo.add_each new l | None => l end).
Proof. destruct a; [apply NoDup_add_each | done]. Qed.

Lemma merged_well_formed p m d : well_formed d → well_formed (merged p m d).
Proof.
  intros (Hf & He & Hp & Hl).
  unfold merged, well_formed, unique_qualities, unique_episodes, unique_packs in *.
  destruct (String.eqb_spec (Parsed.type p) "movie") as [Hm|Hm].
  { rewrite apply_files, apply_episodes, apply_season_packs, apply_languages.
    cbn [Mongo.op_push Mongo.addToSet_languages].
    split; [|split; [done|split; [done|by apply NoDup_addToSet]]].
    by apply (replace_NoDup File.quality _ (default "HD" (Parsed.quality p)) (same_file _)). }
  destruct (String.eqb_spec (Parsed.type p) "series_pack") as [Hsp|Hsp].
  { destruct (Parsed.season p) as [s|], (Parsed.quality p) as [q|]; try done.
    rewrite apply_files, apply_episodes, apply_season_packs, apply_languages.
    cbn [Mongo.op_push Mongo.addToSet_languages].
    split; [done|split; [done|split; [|by apply NoDup_addToSet]]].
    by apply (replace_NoDup Pack.key _ (s, q) (same_pack s q)). }
  destruct (String.eqb_spec (Parsed.type p) "series") as [Hs|Hs].
  { destruct (Parsed.season p) as [s|], (Parsed.episode p) as [x|]; try done.
    rewrite apply_files, apply_episodes, apply_season_packs, apply_languages.
    cbn [Mongo.op_push Mongo.addToSet_languages].
    split; [done|split; [|split; [done|by apply NoDup_addToSet]]].
    by apply (replace_NoDup Episode.key _ (s, x) (same_episode s x)). }
  rewrite apply_files, apply_episodes, apply_season_packs, apply_languages.
  cbn [Mongo.op_push Mongo.addToSet_languages].
  split; [done|split; [done|split; [done|by apply NoDup_addToSet]]].
Qed.

(** Every webhook event keeps the invariants of the data model. *)
Lemma webhook_well_formed cfg E data w :
  Forall well_formed (movies w) →
  Forall well_formed (movies (telegram_webhook cfg E data w).2).
Proof.
  intros Hw.
  assert (Hingest : ∀ r p m, Forall well_formed (movies (ingest cfg E r p m w).2)).
  { intros r p m. unfold ingest. munfold.
    destruct (reconcile_movies cfg E r p w) as (added & Hmov & Hadded).
    assert (Hw1 : Forall well_formed (movies (get_or_create_content_entry cfg E r p w).2)).
    { rewrite Hmov. apply Forall_app. split; [done|].
      eapply Forall_impl; [exact Hadded|]. simpl. intros d (Hf & He & Hp & Hl & _).
      unfold well_formed, unique_qualities, unique_episodes, unique_packs.
      rewrite Hf, He, Hp, Hl. repeat split; constructor. }
    destruct (get_or_create_content_entry cfg E r p w) as [[[e|]|] w1]; simpl in *;
      try done.
    destruct (merge_release_cases e p m w1) as [Hm|Hm];
      destruct (merge_release e p m w1) as [[[]|] w2]; simpl in *; rewrite Hm;
      try done; apply update_one_Forall; auto using merged_well_formed. }
  unfold telegram_webhook.
  destruct (channel_post data) as [post|].
  - unfold handle_channel_post. munfold.
    repeat (case_match; simpl; try done); apply Hingest.
  - destruct (message data) as [msg|]; [|done]. munfold.
    pose proof (handle_message_movies cfg E msg w) as Hm.
    destruct (handle_message cfg E msg w) as [[[]|] w1]; simpl in *; by rewrite Hm.
Qed.

Lemma keyed_empty : keyed ∅.
Proof. intros k j Hj. by rewrite lookup_empty in Hj. Qed.

Lemma reconcile_jobs cfg E r p w : jobs (get_or_create_content_entry cfg E r p w).2 = jobs w.
Proof.
  assert (Hs : jobs (get_or_create_shell cfg E p w).2 = jobs w).
  { unfold get_or_create_shell. munfold.
    destruct (Parsed.title p) as [t|]; simpl; [|done].
    destruct (Mongo.find_one _ (movies w)); simpl; [done|].
    destruct (Mongo.find_one _ _) as [d|]; simpl; [|done].
    destruct (send_notification_spec cfg E d
                (mkworld (Mongo.insert_one (shell_doc E t p) (movies w)) (jobs w) (sent w)))
      as (cs & -> & _). done. }
  unfold get_or_create_content_entry.
  destruct r as [details|]; [|done].
  destruct (Tmdb.tmdb_id details) as [i|]; [|done]. munfold.
  destruct (Mongo.find_one _ (movies w)); simpl; [done|].
  destruct (Mongo.find_one _ _) as [d|]; simpl; [|done].
  destruct (send_notification_spec cfg E d
              (mkworld (Mongo.insert_one (base_doc E details p) (movies w)) (jobs w) (sent w)))
    as (cs & -> & _). done.
Qed.

(** Every webhook event keeps the pending jobs under their ids. *)
Lemma webhook_keyed cfg E data w :
  keyed (jobs w) → keyed (jobs (telegram_webhook cfg E data w).2).
Proof.
  intros Hk.
  assert (Hingest : ∀ r p m, jobs (ingest cfg E r p m w).2 = jobs w).
  { intros r p m. unfold ingest. munfold.
    pose proof (reconcile_jobs cfg E r p w) as Hr.
    destruct (get_or_create_content_entry cfg E r p w) as [[[e|]|] w1]; simpl in *;
      try done.
    destruct (merge_release_frame e p m w1) as (Hj & _).
    destruct (merge_release e p m w1) as [[[]|] w2]; simpl in *; congruence. }
  unfold telegram_webhook.
  destruct (channel_post data) as [post|].
  - unfold handle_channel_post. munfold.
    repeat (case_match; simpl; try done); by rewrite Hingest.
  - destruct (message data) as [msg|]; [|done].
    unfold handle_message, start_body. munfold. unfold request.
    repeat (case_match; simpl in *; simplify_eq); try done; by apply keyed_insert.
Qed.

(** * The theorems on the sample store *)

Example split_ws_ex : Py.split_ws "/start  ab_S2_1080p " = ["/start"; "ab_S2_1080p"].
Proof. reflexivity. Qed.

Example split_ex : Py.split "_" "ab_S2_1080p" = ["ab"; "S2"; "1080p"].
Proof. reflexivity. Qed.

(** A no-break space separates words as a blank does. *)
Example split_ws_nbsp_ex :
  Py.split_ws ("/start" +:+ Sample.nbsp +:+ "X ab_S2_1080p") = ["/start"; "X"; "ab_S2_1080p"].
Proof. reflexivity. Qed.

Example int_ex : Py.int "02" = Some 2 ∧ Py.int "" = None ∧ Py.int "-7" = Some (-7).
Proof. by vm_compute. Qed.

(** Digits of other scripts are read as numbers. *)
Example int_arabic_ex : Py.int "٢" = Some 2 ∧ Py.int "-١٢" = Some (-12) ∧ Py.int "２x" = None.
Proof. by vm_compute. Qed.

Example ObjectId_ex :
  Bson.ObjectId "0000000000000000000000fF" = Some (Bson.full 255)
  ∧ Bson.ObjectId "xyz" = None
  ∧ Bson.ObjectId "00000000000000000000000g" = None.
Proof. by vm_compute. Qed.

(** White space between the bytes is skipped, and the bytes are fewer. *)
Example ObjectId_short_ex :
  Bson.ObjectId "00 00 00 00 00 00 00 04 " = Some (Bson.short [0; 0; 0; 0; 0; 0; 0; 4]%N)
  ∧ Bson.ObjectId "0 0000000000000000000004" = None.
Proof. by vm_compute. Qed.

(** The shell query matches up to case, also outside ASCII, and up to a
    final line feed. *)
Example by_shell_title_ex :
  let shell t := mkdoc 1 None t None None None 0 [] None "movie" [] [] [] [] [] in
  Mongo.by_shell_title "école" (shell "ÉCOLE") = true
  ∧ Mongo.by_shell_title "Show name" (shell "SHOW NAME") = true
  ∧ Mongo.by_shell_title "Show" (shell (String "S" (String "h" (String "o" (String "w"
                                          (String "010" ""))))))
    = true
  ∧ Mongo.by_shell_title "Show" (shell "Show Name") = false
  ∧ Mongo.by_shell_title "Example Movie" Sample.film = false.
Proof. by vm_compute. Qed.

Example job_id_ex : job_id (-100123) 55 = "del_-100123_55".
Proof. reflexivity. Qed.

(** A first release of a movie is announced with its year, genres and
    rating, and stored with its file. *)
Example ingest_ex :
  ingest Sample.cfg (Sample.E 7 0 Sample.accepts) (Some Sample.details)
         (Sample.parsed "Example Movie" "movie" "1080p" None None) 10 (mkworld [] ∅ [])
  = (Ok ok_reply,
     mkworld [mkdoc 7 (Some 603%positive) "Example Movie" (Some "A film.")
                    (Some "https://img/p.jpg") (Some "2021-03-04") (7.5)%Q
                    ["Action"; "Drama"] None "movie" ["Hindi"] [] []
                    [File.mk "1080p" 10] []]
             ∅
             [sendPhoto "@news" "https://img/p.jpg"
                (new_content_caption "Example Movie" (Some "2021") (Some "Action, Drama")
                                     (Some (7.5)%Q))
                (Some 7%N)]).
Proof. reflexivity. Qed.

(** A movie token on the sample store: the file is copied and its
    deletion scheduled. *)
Example deliver_ex :
  telegram_webhook Sample.cfg (Sample.E 7 0 Sample.accepts)
    (start_update 42 "/start 000000000000000000000004_720p") Sample.w1
  = (Ok ok_reply,
     mkworld (movies Sample.w1)
             (<["del_42_55" := Job.mk 1800 42 55]> ∅)
             [copyMessage 42 "-100123" 40 "Example Movie" "(720p)"]).
Proof. reflexivity. Qed.

Lemma files_one_per_quality_witness :
  Forall unique_qualities
    (movies (telegram_webhook Sample.cfg (Sample.E 7 0 Sample.accepts)
               (start_update 42 Sample.pack_link) Sample.w1).2)
  ∧ (∃ w' d',
        merge_release Sample.film (Sample.parsed "Example Movie" "movie" "720p" None None)
                      41 Sample.w1 = (Ok tt, w')
        ∧ Mongo.find_one (Mongo.by_id 4) (movies w') = Some d'
        ∧ files d' = [File.mk "720p" 41])
  ∧ ∃ w1 w2 d,
      ingest Sample.cfg (Sample.E 7 0 Sample.accepts) (Some Sample.details)
             (Sample.parsed "Example Movie" "movie" "1080p" None None) 10 Sample.w0
      = (Ok ok_reply, w1)
      ∧ ingest Sample.cfg (Sample.E 8 60 Sample.accepts) (Some Sample.details)
               (Sample.parsed "Example Movie" "movie" "720p" None None) 11 w1
        = (Ok ok_reply, w2)
      ∧ movies w2 = movies Sample.w0 ++ [d]
      ∧ type d = "movie"
      ∧ ("1080p" ≠ "720p" → files d = [File.mk "1080p" 10; File.mk "720p" 11])
      ∧ ("1080p" = "720p" → files d = [File.mk "720p" 11]).
Proof.
  split.
  - apply (proj1 files_one_per_quality). repeat constructor; by intros ?%elem_of_nil.
  - split.
    { apply (proj1 (proj2 files_one_per_quality) Sample.film
               (Sample.parsed "Example Movie" "movie" "720p" None None) 41%positive
               Sample.w1 Sample.film); reflexivity. }
    apply (proj2 (proj2 files_one_per_quality) Sample.cfg (Sample.E 7 0 Sample.accepts)
             (Sample.E 8 60 Sample.accepts) (Some Sample.details)
             (Sample.parsed "Example Movie" "movie" "1080p" None None)
             (Sample.parsed "Example Movie" "movie" "720p" None None)
             "Example Movie" 10%positive 11%positive Sample.w0); try reflexivity.
    + by intros d ->%list_elem_of_singleton.
    + by intros ?%list_elem_of_singleton.
Defined.

Lemma episode_reingest_replaces_witness :
  ∃ w' e',
    ingest Sample.cfg (Sample.E 7 0 Sample.accepts) None
           (Sample.parsed "show name" "series" "720p" (Some 1) (Some 3)) 99 Sample.w0
    = (Ok ok_reply, w')
    ∧ Mongo.find_one (Mongo.by_id 3) (movies w') = Some e'
    ∧ length (episodes e') = 2%nat
    ∧ Episode.mk 1 3 99 ∈ episodes e'
    ∧ (99%positive ≠ 20%positive → Episode.mk 1 3 20 ∉ episodes e')
    ∧ (∀ x, x ∈ episodes e' → Episode.key x = (1, 3) → x = Episode.mk 1 3 99)
    ∧ (∀ x, Episode.key x ≠ (1, 3) → x ∈ episodes e' ↔ x ∈ episodes Sample.show)
    ∧ unique_episodes e'
    ∧ metadata e' = metadata Sample.show
    ∧ length (movies w') = 1%nat.
Proof.
  apply (episode_reingest_replaces Sample.cfg (Sample.E 7 0 Sample.accepts) None
           (Sample.parsed "show name" "series" "720p" (Some 1) (Some 3)) 99%positive
           Sample.w0 Sample.show 1 3 20%positive); try reflexivity.
  - unfold unique_episodes. simpl. repeat constructor.
    + by intros ?%list_elem_of_singleton.
    + by intros ?%elem_of_nil.
  - left.
Defined.

Lemma reconcile_first_write_wins_witness :
  ∃ e,
    get_or_create_content_entry Sample.cfg (Sample.E 7 0 Sample.accepts) (Some Sample.details)
      (Sample.parsed "Example Movie" "movie" "1080p" None None) Sample.w1
    = (Ok (Some e), Sample.w1)
    ∧ e ∈ movies Sample.w1
    ∧ tmdb_id e = Some 603%positive
    ∧ ((∀ d, d ∈ movies Sample.w1 → tmdb_id d = Some 603%positive → d = Sample.film)
       → e = Sample.film)
    ∧ (λ d, (_id d, metadata d))
        <$> movies (ingest Sample.cfg (Sample.E 7 0 Sample.accepts) (Some Sample.details)
                      (Sample.parsed "Example Movie" "movie" "1080p" None None) 10
                      Sample.w1).2
      = (λ d, (_id d, metadata d)) <$> movies Sample.w1
    ∧ sent (ingest Sample.cfg (Sample.E 7 0 Sample.accepts) (Some Sample.details)
              (Sample.parsed "Example Movie" "movie" "1080p" None None) 10 Sample.w1).2
      = sent Sample.w1.
Proof.
  apply (reconcile_first_write_wins Sample.cfg (Sample.E 7 0 Sample.accepts) Sample.details
           603%positive (Sample.parsed "Example Movie" "movie" "1080p" None None)
           10%positive Sample.w1 Sample.film); try reflexivity.
  right. left.
Defined.

Lemma shell_created_without_announcement_witness :
  get_or_create_content_entry Sample.cfg (Sample.E 7 0 Sample.accepts) None
    (Sample.parsed "Other Film" "movie" "1080p" None None) Sample.w1
  = (Ok (Some (shell_doc (Sample.E 7 0 Sample.accepts) "Other Film"
                 (Sample.parsed "Other Film" "movie" "1080p" None None))),
     mkworld (movies Sample.w1
              ++ [shell_doc (Sample.E 7 0 Sample.accepts) "Other Film"
                    (Sample.parsed "Other Film" "movie" "1080p" None None)])
             (jobs Sample.w1) (sent Sample.w1))
  ∧ tmdb_id (shell_doc (Sample.E 7 0 Sample.accepts) "Other Film"
               (Sample.parsed "Other Film" "movie" "1080p" None None)) = None
  ∧ title (shell_doc (Sample.E 7 0 Sample.accepts) "Other Film"
             (Sample.parsed "Other Film" "movie" "1080p" None None)) = "Other Film"
  ∧ poster (shell_doc (Sample.E 7 0 Sample.accepts) "Other Film"
              (Sample.parsed "Other Film" "movie" "1080p" None None))
    = Some PLACEHOLDER_POSTER
  ∧ (∀ d w, poster d = Some PLACEHOLDER_POSTER →
            send_notification_to_channel Sample.cfg (Sample.E 7 0 Sample.accepts) d w
            = (Ok tt, w)).
Proof.
  apply (shell_created_without_announcement Sample.cfg (Sample.E 7 0 Sample.accepts) None
           (Sample.parsed "Other Film" "movie" "1080p" None None) "Other Film" Sample.w1);
    try reflexivity.
  - intros d [->|[->|[]%elem_of_nil]%elem_of_cons]%elem_of_cons; done.
  - intros [|[|[]%elem_of_nil]%elem_of_cons]%elem_of_cons; done.
Defined.

Lemma sample_token :
  start_token Sample.pack_link ["000000000000000000000003"; "S2"; "1080p"] 3.
Proof.
  split; [reflexivity|]. split; [|reflexivity].
  by exists "/start", "000000000000000000000003_S2_1080p", [].
Defined.

Lemma season_pack_token_resolves_witness :
  (∃ first res w' cs,
      telegram_webhook Sample.cfg (Sample.E 7 0 Sample.accepts)
        (start_update 42 (pack_link "000000000000000000000003" "2" "1080p")) Sample.w0
      = (res, w')
      ∧ first ∈ season_packs Sample.show
      ∧ Pack.key first = (2, "1080p")
      ∧ (unique_packs Sample.show → first = Pack.mk 2 "1080p" 30)
      ∧ sent w' = sent Sample.w0
                  ++ copyMessage 42 "-100123" (Pack.message_id first) "Show Name"
                       ("Complete Season " +:+ pretty 2 +:+ " (" +:+ "1080p" +:+ ")")
                     :: cs
      ∧ Forall (λ c, c ≠ notice 42 NOT_FOUND_TEXT) cs)
  ∧ (∃ res w' cs,
        telegram_webhook Sample.cfg (Sample.E 7 0 Sample.accepts)
          (start_update 42 (pack_link "000000000000000000000003" "٣" "1080p")) Sample.w0
        = (res, w')
        ∧ sent w' = sent Sample.w0 ++ notice 42 NOT_FOUND_TEXT :: cs
        ∧ Forall (λ c, is_copy c = false) cs
        ∧ jobs w' = jobs Sample.w0
        ∧ movies w' = movies Sample.w0
        ∧ (telegram (Sample.E 7 0 Sample.accepts) (notice 42 NOT_FOUND_TEXT) ≠ raises →
           res = Ok ok_reply ∧ cs = [])).
Proof.
  split.
  - apply (proj1 (season_pack_token_resolves Sample.cfg (Sample.E 7 0 Sample.accepts) 42
                    "000000000000000000000003" "2" "1080p" 3%N Sample.show 2 Sample.w0
                    eq_refl eq_refl eq_refl eq_refl) (Pack.mk 2 "1080p" 30));
      [by left | reflexivity].
  - apply (proj2 (season_pack_token_resolves Sample.cfg (Sample.E 7 0 Sample.accepts) 42
                    "000000000000000000000003" "٣" "1080p" 3%N Sample.show 3 Sample.w0
                    eq_refl eq_refl eq_refl eq_refl)).
    intros pack [->|[]%elem_of_nil]%elem_of_cons. discriminate.
Defined.


Lemma failed_copy_is_reported_witness :
  ∃ r w' cs,
    telegram_webhook Sample.cfg (Sample.E 7 0 Sample.refuses)
      (start_update 42 Sample.pack_link) Sample.w0 = (r, w')
    ∧ sent w' = sent Sample.w0
                ++ [copyMessage 42 "-100123" 30 "Show Name" "Complete Season 2 (1080p)";
                    notice 42 COPY_FAILED_TEXT]
                ++ cs
    ∧ Forall (λ c, is_copy c = false) cs
    ∧ jobs w' = jobs Sample.w0
    ∧ movies w' = movies Sample.w0
    ∧ (telegram (Sample.E 7 0 Sample.refuses) (notice 42 COPY_FAILED_TEXT) ≠ raises →
       r = Ok ok_reply ∧ cs = []).
Proof.
  apply (failed_copy_is_reported Sample.cfg (Sample.E 7 0 Sample.refuses) 42
           Sample.pack_link ["000000000000000000000003"; "S2"; "1080p"] 3%N Sample.show
           30%positive "Complete Season 2 (1080p)" (mkresp false None) Sample.w0 sample_token);
    reflexivity.
Defined.

Lemma failures_are_contained_witness :
  telegram_webhook Sample.cfg (Sample.E 7 0 Sample.accepts)
    (mkupdate (Some (Post.mk (Some 5) None (Some (Attachment.mk (Some "a.mkv"))) 10)) None)
    Sample.w0
  = (Ok (mkreply "ok" (Some "not_admin_channel")), Sample.w0)
  ∧ telegram_webhook Sample.cfg (Sample.E 7 0 Sample.accepts)
      (mkupdate (Some (Post.mk (Some (-100123)) None (Some (Attachment.mk (Some "a.mkv"))) 10))
                None)
      Sample.w0
    = (Ok (mkreply "ok" (Some "parsing_failed")), Sample.w0)
  ∧ (movies Sample.w0 = movies Sample.w0
     ∧ telegram_webhook Sample.cfg (Sample.E 7 0 Sample.accepts)
         (start_update 42 "/start nonsense") Sample.w0
       = (Ok ok_reply, log [notice 42 UNEXPECTED_TEXT] Sample.w0)).
Proof.
  destruct (failures_are_contained Sample.cfg (Sample.E 7 0 Sample.accepts))
    as (Hchat & Hparse & Hstart).
  split; [|split].
  - apply Hchat. discriminate.
  - apply (Hparse _ _ "a.mkv"); [split|]; reflexivity.
  - apply (Hstart 42 "/start nonsense" "/start" "nonsense" [] Sample.w0 InvalidId Sample.w0);
      reflexivity.
Defined.

Lemma languages_union_witness :
  ∃ w' d',
    merge_release Sample.show
      (Sample.parsed "Show Name" "series" "720p" (Some 1) (Some 5)) 77 Sample.w0
    = (Ok tt, w')
    ∧ Mongo.find_one (Mongo.by_id 3) (movies w') = Some d'
    ∧ (∀ x, x ∈ languages d' ↔ x ∈ ["English"] ∨ x ∈ ["Hindi"])
    ∧ ["English"] `prefix_of` languages d'
    ∧ (∃ added, languages d' = ["English"] ++ added ∧ NoDup added
                ∧ ∀ x, x ∈ added → (x ∉ ["English"]) ∧ (x ∈ ["Hindi"]))
    ∧ (NoDup ["English"] → NoDup (languages d'))
    ∧ (["Hindi"] = [] → languages d' = ["English"]).
Proof.
  apply (languages_union Sample.show
           (Sample.parsed "Show Name" "series" "720p" (Some 1) (Some 5)) 77%positive
           Sample.w0 Sample.show); [reflexivity|].
  split; intros _; split; eexists; reflexivity.
Defined.

Lemma created_entries_have_no_categories_witness :
  ∃ res w',
    get_or_create_content_entry Sample.cfg (Sample.E 7 0 Sample.accepts) (Some Sample.details)
      (Sample.parsed "Example Movie" "movie" "1080p" None None) Sample.w0 = (res, w')
    ∧ ((w' = Sample.w0 ∧ ∀ d, res = Ok (Some d) → d ∈ movies Sample.w0)
       ∨ ∃ d cs, res = Ok (Some d)
                 ∧ movies w' = movies Sample.w0 ++ [d]
                 ∧ categories d = []
                 ∧ sent w' = sent Sample.w0 ++ cs
                 ∧ Forall (λ c, is_teaser c = false ∧ is_pin c = false) cs).
Proof.
  apply (created_entries_have_no_categories Sample.cfg (Sample.E 7 0 Sample.accepts)
           (Some Sample.details) (Sample.parsed "Example Movie" "movie" "1080p" None None)
           Sample.w0).
  by intros ?%list_elem_of_singleton.
Defined.

(** * Further properties *)

(** ** Links and tokens *)

Lemma file_link_decodes id_str quality (oid : N) :
  Bson.ObjectId id_str = Some (Bson.full oid) →
  part quality = true →
  start_token (file_link id_str quality) [id_str; quality] oid.
Proof.
  intros Hoid Hq. destruct (ObjectId_part id_str oid Hoid) as (Hne & Hv & Hid).
  destruct (payload_two id_str quality) as [Hpne Hw]; try done.
  destruct (start_command_words _ Hw Hpne) as [Hp Hs].
  split; [done|]. split; [|done].
  eexists _, _, _. split; [exact Hs|]. by apply split_two.
Qed.

Lemma episode_link_decodes id_str sd ed (oid : N) s e :
  Bson.ObjectId id_str = Some (Bson.full oid) →
  Py.int sd = Some s → Py.int ed = Some e →
  start_token (episode_link id_str sd ed) [id_str; sd; ed] oid.
Proof.
  intros Hoid Hs He. destruct (ObjectId_part id_str oid Hoid) as (Hne & Hv & Hid).
  destruct (int_part sd s Hs) as (_ & Hvs & Hsd & _).
  destruct (int_part ed e He) as (_ & _ & Hed & _).
  destruct (payload_three id_str sd ed) as [Hpne Hw]; try done.
  destruct (start_command_words _ Hw Hpne) as [Hp Hw'].
  split; [done|]. split; [|done].
  eexists _, _, _. split; [exact Hw'|]. by apply split_three.
Qed.

Lemma locate_episode content id_str sd ed s e :
  Py.int sd = Some s → Py.int ed = Some e →
  locate content [id_str; sd; ed]
  = Ok (if String.eqb (type content) "series" then
          match List.find (λ ep, (Episode.season ep =? s) && (Episode.episode_number ep =? e))
                          (episodes content) with
          | Some episode =>
              Some (Episode.message_id episode, "S" +:+ fmt_02d s +:+ "E" +:+ fmt_02d e)
          | None => None
          end
        else None).
Proof.
  intros Hs He. unfold locate.
  destruct (int_part sd s Hs) as (_ & _ & _ & HS). rewrite HS, Hs, He.
  destruct (String.eqb _ _); [|done]. by destruct (List.find _ _).
Qed.

Lemma locate_file content id_str quality :
  locate content [id_str; quality]
  = Ok (if String.eqb (type content) "movie" then
          match List.find (λ f, String.eqb (File.quality f) quality) (files content) with
          | Some file => Some (File.message_id file, "(" +:+ quality +:+ ")")
          | None => None
          end
        else None).
Proof.
  unfold locate. destruct (String.eqb _ _); [|done]. by destruct (List.find _ _).
Qed.

Lemma find_absent {A} (f : A → bool) (l : list A) :
  (∀ x, x ∈ l → f x = false) → List.find f l = None.
Proof.
  intros H. destruct (List.find f l) as [x|] eqn:Hf; [|done].
  apply find_some in Hf as [Hin Hx]. apply list_elem_of_In in Hin.
  by rewrite (H x Hin) in Hx.
Qed.

(** What the webhook does once the token is decoded and the deliverable is
    found: the copy is the first call, and no not-found notice follows. *)
Lemma webhook_delivers cfg E chat text parts oid content mid info w :
  start_token text parts oid →
  Mongo.find_one (Mongo.by_id oid) (movies w) = Some content →
  locate content parts = Ok (Some (mid, info)) →
  ∃ res w' cs,
    telegram_webhook cfg E (start_update chat text) w = (res, w')
    ∧ sent w' = sent w ++ copyMessage chat (ADMIN_CHANNEL_ID cfg) mid (title content) info :: cs
    ∧ Forall (λ c, is_copy c = false ∧ c ≠ notice chat NOT_FOUND_TEXT) cs
    ∧ movies w' = movies w.
Proof.
  intros Htok Hfind Hloc.
  destruct (webhook_located cfg E chat text _ oid content _ w Htok Hfind Hloc)
    as (res & w' & cs & Hrun & Hmov & Hsent & Hcs & _).
  by exists res, w', cs.
Qed.

(** ... and when the token points at nothing: the not-found notice, no
    copy, no job. *)
Lemma webhook_not_found cfg E chat text parts oid content w :
  start_token text parts oid →
  Mongo.find_one (Mongo.by_id oid) (movies w) = Some content →
  locate content parts = Ok None →
  ∃ res w' cs,
    telegram_webhook cfg E (start_update chat text) w = (res, w')
    ∧ sent w' = sent w ++ notice chat NOT_FOUND_TEXT :: cs
    ∧ Forall (λ c, is_copy c = false) cs
    ∧ jobs w' = jobs w
    ∧ movies w' = movies w
    ∧ (telegram E (notice chat NOT_FOUND_TEXT) ≠ raises → res = Ok ok_reply ∧ cs = []).
Proof.
  intros Htok Hfind Hloc.
  destruct (webhook_located cfg E chat text _ oid content _ w Htok Hfind Hloc)
    as (res & w' & cs & Hrun & Hmov & Hjobs & Hsent & Hcs & Hok).
  by exists res, w', cs.
Qed.

(** X1. An episode link [<entryId>_<season>_<episode>] for a stored entry is
    served from [episodes] when the entry is a series: the message of the
    first record with this season and episode is copied.  For an entry of
    another type, or without such a record, the requester is sent the
    not-found notice and nothing is copied or scheduled. *)
Theorem episode_link_resolves cfg E chat id_str sd ed oid s e content w :
  let text := episode_link id_str sd ed in
  Bson.ObjectId id_str = Some oid →
  Py.int sd = Some s →
  Py.int ed = Some e →
  Mongo.find_one (Mongo.by_id oid) (movies w) = Some content →
  (type content = "series" →
   ∀ ep, ep ∈ episodes content → Episode.key ep = (s, e) →
     ∃ first res w' cs,
       telegram_webhook cfg E (start_update chat text) w = (res, w')
       ∧ first ∈ episodes content
       ∧ Episode.key first = (s, e)
       ∧ (unique_episodes content → first = ep)
       ∧ sent w' = sent w
                   ++ copyMessage chat (ADMIN_CHANNEL_ID cfg) (Episode.message_id first)
                        (title content) ("S" +:+ fmt_02d s +:+ "E" +:+ fmt_02d e)
                      :: cs
       ∧ Forall (λ c, is_copy c = false ∧ c ≠ notice chat NOT_FOUND_TEXT) cs)
  ∧ (type content ≠ "series"
     ∨ (∀ ep, ep ∈ episodes content → Episode.key ep ≠ (s, e)) →
     ∃ res w' cs,
       telegram_webhook cfg E (start_update chat text) w = (res, w')
       ∧ sent w' = sent w ++ notice chat NOT_FOUND_TEXT :: cs
       ∧ Forall (λ c, is_copy c = false) cs
       ∧ jobs w' = jobs w
       ∧ movies w' = movies w
       ∧ (telegram E (notice chat NOT_FOUND_TEXT) ≠ raises → res = Ok ok_reply ∧ cs = [])).
Proof.
  intros text Hoid Hs He Hfind.
  pose proof (find_by_id _ _ _ Hfind) as ->.
  pose proof (episode_link_decodes id_str sd ed _ s e Hoid Hs He) as Htok.
  fold text in Htok.
  pose proof (locate_episode content id_str sd ed s e Hs He) as Hloc.
  split.
  - intros Hty ep Hep Hkey. rewrite Hty, String.eqb_refl in Hloc.
    destruct (find_first (λ x, (Episode.season x =? s) && (Episode.episode_number x =? e))
                (episodes content) ep Hep) as (first & Hfirst & Hin & Hsame).
    { by apply same_episode. }
    rewrite Hfirst in Hloc. apply same_episode in Hsame.
    destruct (webhook_delivers cfg E chat text _ _ content _ _ w Htok Hfind Hloc)
      as (res & w' & cs & Hrun & Hsent & Hcs & _).
    exists first, res, w', cs. split; [done|]. split; [done|]. split; [done|].
    split; [|done]. intros Hu.
    apply (NoDup_key_eq Episode.key (episodes content)); try done. congruence.
  - intros Hnone.
    assert (Hnf : locate content [id_str; sd; ed] = Ok None).
    { rewrite Hloc. destruct (String.eqb_spec (type content) "series") as [Hty|Hty]; [|done].
      destruct Hnone as [?|Hnone]; [done|].
      rewrite find_absent; [done|]. intros x Hx.
      apply not_true_iff_false. rewrite same_episode. by apply Hnone. }
    by apply (webhook_not_found cfg E chat text [id_str; sd; ed] (_id content) content).
Qed.

(** X2. A file link [<entryId>_<quality>] for a stored entry is served from
    [files] when the entry is a movie: the message of the first record of
    this quality is copied.  For an entry of another type, or without such
    a record, the requester is sent the not-found notice and nothing is
    copied or scheduled. *)
Theorem file_link_resolves cfg E chat id_str quality oid content w :
  let text := file_link id_str quality in
  Bson.ObjectId id_str = Some oid →
  part quality = true →
  Mongo.find_one (Mongo.by_id oid) (movies w) = Some content →
  (type content = "movie" →
   ∀ f, f ∈ files content → File.quality f = quality →
     ∃ first res w' cs,
       telegram_webhook cfg E (start_update chat text) w = (res, w')
       ∧ first ∈ files content
       ∧ File.quality first = quality
       ∧ (unique_qualities content → first = f)
       ∧ sent w' = sent w
                   ++ copyMessage chat (ADMIN_CHANNEL_ID cfg) (File.message_id first)
                        (title content) ("(" +:+ quality +:+ ")")
                      :: cs
       ∧ Forall (λ c, is_copy c = false ∧ c ≠ notice chat NOT_FOUND_TEXT) cs)
  ∧ (type content ≠ "movie"
     ∨ (∀ f, f ∈ files content → File.quality f ≠ quality) →
     ∃ res w' cs,
       telegram_webhook cfg E (start_update chat text) w = (res, w')
       ∧ sent w' = sent w ++ notice chat NOT_FOUND_TEXT :: cs
       ∧ Forall (λ c, is_copy c = false) cs
       ∧ jobs w' = jobs w
       ∧ movies w' = movies w
       ∧ (telegram E (notice chat NOT_FOUND_TEXT) ≠ raises → res = Ok ok_reply ∧ cs = [])).
Proof.
  intros text Hoid Hq Hfind.
  pose proof (find_by_id _ _ _ Hfind) as ->.
  pose proof (file_link_decodes id_str quality _ Hoid Hq) as Htok. fold text in Htok.
  pose proof (locate_file content id_str quality) as Hloc.
  split.
  - intros Hty f Hf Hkey. rewrite Hty, String.eqb_refl in Hloc.
    destruct (find_first (λ x, String.eqb (File.quality x) quality)
                (files content) f Hf) as (first & Hfirst & Hin & Hsame).
    { by apply same_file. }
    rewrite Hfirst in Hloc. apply same_file in Hsame.
    destruct (webhook_delivers cfg E chat text _ _ content _ _ w Htok Hfind Hloc)
      as (res & w' & cs & Hrun & Hsent & Hcs & _).
    exists first, res, w', cs. split; [done|]. split; [done|]. split; [done|].
    split; [|done]. intros Hu.
    apply (NoDup_key_eq File.quality (files content)); try done. congruence.
  - intros Hnone.
    assert (Hnf : locate content [id_str; quality] = Ok None).
    { rewrite Hloc. destruct (String.eqb_spec (type content) "movie") as [Hty|Hty]; [|done].
      destruct Hnone as [?|Hnone]; [done|].
      rewrite find_absent; [done|]. intros x Hx.
      apply not_true_iff_false. rewrite same_file. by apply Hnone. }
    by apply (webhook_not_found cfg E chat text [id_str; quality] (_id content) content).
Qed.

(** X3. A token whose id is well formed but names no stored entry gets no
    answer at all: the webhook returns [ok], makes no call and changes
    nothing. *)
Theorem unknown_entry_is_silent cfg E chat text parts oid w :
  start_token text parts oid →
  Mongo.find_one (Mongo.by_id oid) (movies w) = None →
  telegram_webhook cfg E (start_update chat text) w = (Ok ok_reply, w).
Proof.
  intros (Hp & (cmd & token & rest & Hs & Hparts) & Hoid) Hfind.
  rewrite (webhook_start cfg E chat text cmd token rest w Hp Hs).
  unfold start_body. rewrite Hparts, Hoid. munfold. by rewrite Hfind.
Qed.

(** ** Reconciliation by query *)

Lemma reconcile_found cfg E r p w Q e :
  query_of r p = Some Q →
  Mongo.find_one Q (movies w) = Some e →
  get_or_create_content_entry cfg E r p w = (Ok (Some e), w).
Proof.
  unfold query_of. intros HQ He.
  destruct r as [details|]; simpl in HQ;
    [destruct (Tmdb.tmdb_id details) as [i|] eqn:Hi; simpl in HQ|].
  - injection HQ as <-. by apply (tmdb_found cfg E details i).
  - destruct (Parsed.title p) as [t|] eqn:Ht; [|done]. injection HQ as <-.
    unfold get_or_create_content_entry. rewrite Hi. by apply (shell_found cfg E p t).
  - destruct (Parsed.title p) as [t|] eqn:Ht; [|done]. injection HQ as <-.
    unfold get_or_create_content_entry. by apply (shell_found cfg E p t).
Qed.

Lemma query_stable r p Q (f : doc → doc) :
  query_of r p = Some Q →
  (∀ d, tmdb_id (f d) = tmdb_id d ∧ title (f d) = title d) →
  ∀ d, Q (f d) = Q d.
Proof.
  unfold query_of. intros HQ Hf d. destruct (Hf d) as [Hi Ht].
  destruct (r ≫= Tmdb.tmdb_id) as [i|].
  - injection HQ as <-. unfold Mongo.by_tmdb_id. by rewrite Hi.
  - destruct (Parsed.title p) as [t|]; [|done]. injection HQ as <-.
    unfold Mongo.by_shell_title. by rewrite Hi, Ht.
Qed.

(** The outcome of reconciliation is the first answer to its query in
    the collection it leaves, up to the id when the fresh id is taken. *)
Lemma reconcile_spec cfg E r p w e w0 :
  get_or_create_content_entry cfg E r p w = (Ok (Some e), w0) →
  ∃ Q e0 added cs,
    query_of r p = Some Q
    ∧ Mongo.find_one Q (movies w0) = Some e0
    ∧ _id e0 = _id e
    ∧ e ∈ movies w0
    ∧ w0 = mkworld (movies w ++ added) (jobs w) (sent w ++ cs)
    ∧ (added = [] ∧ cs = [] ∧ e0 = e
       ∨ ∃ t, added = [created E r t p] ∧ Mongo.find_one Q (movies w) = None).
Proof.
  assert (Hshell : r ≫= Tmdb.tmdb_id = None →
    get_or_create_shell cfg E p w = (Ok (Some e), w0) →
    ∃ Q e0 added cs,
      query_of r p = Some Q
      ∧ Mongo.find_one Q (movies w0) = Some e0
      ∧ _id e0 = _id e
      ∧ e ∈ movies w0
      ∧ w0 = mkworld (movies w ++ added) (jobs w) (sent w ++ cs)
      ∧ (added = [] ∧ cs = [] ∧ e0 = e
         ∨ ∃ t, added = [shell_doc E t p] ∧ Mongo.find_one Q (movies w) = None)).
  { intros Hr. unfold get_or_create_shell, query_of. rewrite Hr. munfold.
    destruct (Parsed.title p) as [t|] eqn:Ht; simpl; [|done].
    destruct (Mongo.find_one (Mongo.by_shell_title t) (movies w)) as [x|] eqn:Hf.
    - intros [= -> <-]. exists (Mongo.by_shell_title t), e, [], [].
      rewrite !app_nil_r. split; [done|]. split; [done|]. split; [done|].
      split; [by apply find_one_elem in Hf as [? _]|]. split; [by destruct w|]. by left.
    - cbn [movies].
      destruct (Mongo.find_one (Mongo.by_id _) _) as [x|] eqn:Hnew; [|done].
      destruct (send_notification_spec cfg E x
                  (mkworld (Mongo.insert_one (shell_doc E t p) (movies w)) (jobs w) (sent w)))
        as (cs & Hn & _). rewrite Hn. unfold log. cbn [movies jobs sent].
      intros [= -> <-]. exists (Mongo.by_shell_title t), (shell_doc E t p), [shell_doc E t p], cs.
      split; [done|]. split.
      { cbn [movies]. apply find_one_app_last; [done|]. by apply by_shell_title_self. }
      apply find_one_elem in Hnew as [Hin Hid]. unfold Mongo.by_id in Hid.
      apply bool_decide_eq_true in Hid. split; [done|]. split; [done|].
      split; [done|]. right. by exists t. }
  unfold get_or_create_content_entry.
  destruct r as [details|]; [|intros H; destruct (Hshell eq_refl H)
    as (Q & e0 & added & cs & ? & ? & ? & ? & ? & Hc); exists Q, e0, added, cs;
    repeat (split; [done|]); done].
  destruct (Tmdb.tmdb_id details) as [i|] eqn:Hi.
  2:{ intros H. destruct (Hshell Hi H) as (Q & e0 & added & cs & ? & ? & ? & ? & ? & Hc).
      exists Q, e0, added, cs. repeat (split; [done|]).
      unfold created. by rewrite Hi. }
  unfold query_of. simpl. munfold.
  destruct (Mongo.find_one (Mongo.by_tmdb_id i) (movies w)) as [x|] eqn:Hf.
  - intros [= -> <-]. exists (Mongo.by_tmdb_id i), e, [], [].
    rewrite !app_nil_r. split; [by rewrite Hi|]. split; [done|]. split; [done|].
    split; [by apply find_one_elem in Hf as [? _]|]. split; [by destruct w|]. by left.
  - cbn [movies]. rewrite find_one_app_last;
      [|done|unfold Mongo.by_tmdb_id; apply bool_decide_eq_true; by simpl].
    destruct (send_notification_spec cfg E (base_doc E details p)
                (mkworld (Mongo.insert_one (base_doc E details p) (movies w)) (jobs w) (sent w)))
      as (cs & Hn & _). rewrite Hn. unfold log. cbn [movies jobs sent].
    intros [= <- <-]. exists (Mongo.by_tmdb_id i), (base_doc E details p), [base_doc E details p], cs.
    split; [by rewrite Hi|]. split.
    { cbn [movies]. apply find_one_app_last; [done|]. unfold Mongo.by_tmdb_id.
      apply bool_decide_eq_true. by simpl. }
    split; [done|]. split; [apply elem_of_app; right; by left|]. split; [done|].
    right. exists "". unfold created. by rewrite Hi.
Qed.

(** ** The merge, whatever the release *)

(** The merge goes through exactly when the keys it reads are there; it
    raises [KeyError] before any write otherwise. *)
Lemma merge_release_outcome e p m w :
  (complete p
   ∧ merge_release e p m w
     = (Ok tt, mkworld (Mongo.update_one (Mongo.by_id (_id e)) (merged p m) (movies w))
                       (jobs w) (sent w)))
  ∨ (¬ complete p ∧ merge_release e p m w = (Raise KeyError, w)).
Proof.
  destruct (String.eqb_spec (Parsed.type p) "movie") as [Hm|Hm].
  { left. split; [by apply complete_movie|]. by apply merge_release_eq, complete_movie. }
  destruct (String.eqb_spec (Parsed.type p) "series_pack") as [Hp|Hp].
  { destruct (Parsed.season p) as [s|] eqn:Hs, (Parsed.quality p) as [q|] eqn:Hq.
    - assert (Hc : complete p).
      { unfold complete. rewrite Hp, Hs, Hq. split; [eauto | done]. }
      left. split; [done | by apply merge_release_eq].
    - right. split; [intros [Hc _]; destruct (Hc Hp) as [_ [? ?]]; congruence|].
      unfold merge_release. rewrite Hp, Hs, Hq. munfold. done.
    - right. split; [intros [Hc _]; destruct (Hc Hp) as [[? ?] _]; congruence|].
      unfold merge_release. rewrite Hp, Hs. munfold. done.
    - right. split; [intros [Hc _]; destruct (Hc Hp) as [[? ?] _]; congruence|].
      unfold merge_release. rewrite Hp, Hs. munfold. done. }
  destruct (String.eqb_spec (Parsed.type p) "series") as [Hs|Hs].
  { destruct (Parsed.season p) as [s|] eqn:Hse, (Parsed.episode p) as [x|] eqn:Hx.
    - assert (Hc : complete p).
      { unfold complete. rewrite Hs, Hse, Hx. split; [done | eauto]. }
      left. split; [done | by apply merge_release_eq].
    - right. split; [intros [_ Hc]; destruct (Hc Hs) as [_ [? ?]]; congruence|].
      unfold merge_release. rewrite Hs, Hse, Hx. munfold. done.
    - right. split; [intros [_ Hc]; destruct (Hc Hs) as [[? ?] _]; congruence|].
      unfold merge_release. rewrite Hs, Hse. munfold. done.
    - right. split; [intros [_ Hc]; destruct (Hc Hs) as [[? ?] _]; congruence|].
      unfold merge_release. rewrite Hs, Hse. munfold. done. }
  assert (Hc : complete p) by (by split).
  left. split; [done | by apply merge_release_eq].
Qed.

(** An ingestion that is answered [ok] reconciled, then merged. *)
Lemma ingest_ok cfg E r p m w w1 :
  ingest cfg E r p m w = (Ok ok_reply, w1) →
  ∃ e w0,
    get_or_create_content_entry cfg E r p w = (Ok (Some e), w0)
    ∧ complete p
    ∧ w1 = mkworld (Mongo.update_one (Mongo.by_id (_id e)) (merged p m) (movies w0))
                   (jobs w0) (sent w0).
Proof.
  unfold ingest. munfold.
  destruct (get_or_create_content_entry cfg E r p w) as [[[e|]|] w0]; try done.
  destruct (merge_release_outcome e p m w0) as [[Hc ->]|[Hc ->]]; [|done].
  intros [= <-]. by exists e, w0.
Qed.

Lemma merged_frozen p m d : frozen_fields (merged p m d) = frozen_fields d.
Proof.
  unfold frozen_fields, metadata, merged, Mongo.apply, Mongo.apply_push, addToSet_of.
  repeat case_match; done.
Qed.

Lemma find_one_update_one (Q q : doc → bool) (f : doc → doc) l :
  (∀ d, Q (f d) = Q d) →
  Mongo.find_one Q (Mongo.update_one q f l) = None ∧ Mongo.find_one Q l = None
  ∨ ∃ d, Mongo.find_one Q l = Some d
         ∧ (Mongo.find_one Q (Mongo.update_one q f l) = Some d
            ∨ Mongo.find_one Q (Mongo.update_one q f l) = Some (f d)
              ∧ Mongo.find_one q l = Some d).
Proof.
  intros HQ. unfold Mongo.find_one. induction l as [|x l IH]; simpl; [by left|].
  destruct (q x) eqn:Hq; simpl.
  - rewrite HQ. destruct (Q x); [right; exists x; split; [done|]; by right|].
    destruct (List.find Q l) as [d|]; [|by left]. right. exists d. split; [done|]. by left.
  - destruct (Q x) eqn:HQx; [right; exists x; split; [done|]; by left|].
    destruct IH as [[-> ->]|(d & -> & [->| [-> ->]])]; [by left|..];
      right; exists d; (split; [done|]); [by left | by right].
Qed.

Lemma add_each_known new old : (∀ x, x ∈ new → x ∈ old) → Mongo.add_each new old = old.
Proof.
  revert old. induction new as [|y new IH]; intros old H; [done|].
  rewrite add_each_cons, bool_decide_eq_true_2 by (apply H; left).
  apply IH. intros x Hx. apply H. by right.
Qed.

Lemma add_each_idem new old :
  Mongo.add_each new (Mongo.add_each new old) = Mongo.add_each new old.
Proof. apply add_each_known. intros x Hx. apply elem_of_add_each. by right. Qed.

Lemma filter_replace {A} (f : A → bool) (l : list A) x :
  f x = false → List.filter f (List.filter f l ++ [x]) = List.filter f l.
Proof.
  intros Hx. rewrite List.filter_app. simpl. rewrite Hx, app_nil_r.
  induction l as [|y l IH]; simpl; [done|].
  destruct (f y) eqn:Hy; simpl; [by rewrite Hy, IH | done].
Qed.

Lemma replace_file_idem a q m d :
  let f := λ d, Mongo.apply (Mongo.mk_op a (Some (Mongo.push_files (File.mk q m))))
                            (Mongo.pull_files q d) in
  f (f d) = f d.
Proof.
  destruct d, a; unfold Mongo.apply, Mongo.pull_files, set_files, set_languages;
    cbn -[Mongo.add_each List.filter];
    rewrite filter_replace by (simpl; by rewrite String.eqb_refl);
    rewrite ?add_each_idem; reflexivity.
Qed.

Lemma replace_pack_idem a s q m d :
  let f := λ d, Mongo.apply (Mongo.mk_op a (Some (Mongo.push_season_packs (Pack.mk s q m))))
                            (Mongo.pull_season_packs s q d) in
  f (f d) = f d.
Proof.
  destruct d, a; unfold Mongo.apply, Mongo.pull_season_packs, set_season_packs, set_languages;
    cbn -[Mongo.add_each List.filter];
    rewrite filter_replace by (simpl; by rewrite Z.eqb_refl, String.eqb_refl);
    rewrite ?add_each_idem; reflexivity.
Qed.

Lemma replace_episode_idem a s x m d :
  let f := λ d, Mongo.apply (Mongo.mk_op a (Some (Mongo.push_episodes (Episode.mk s x m))))
                            (Mongo.pull_episodes s x d) in
  f (f d) = f d.
Proof.
  destruct d, a; unfold Mongo.apply, Mongo.pull_episodes, set_episodes, set_languages;
    cbn -[Mongo.add_each List.filter];
    rewrite filter_replace by (simpl; by rewrite !Z.eqb_refl);
    rewrite ?add_each_idem; reflexivity.
Qed.

Lemma addToSet_idem a d :
  let f := Mongo.apply (Mongo.mk_op a None) in f (f d) = f d.
Proof.
  destruct d, a; unfold Mongo.apply, set_languages; cbn -[Mongo.add_each];
    rewrite ?add_each_idem; reflexivity.
Qed.

(** Merging the same release twice is merging it once. *)
Lemma merged_idem p m d : merged p m (merged p m d) = merged p m d.
Proof.
  unfold merged.
  destruct (String.eqb (Parsed.type p) "movie"); [apply replace_file_idem|].
  destruct (String.eqb (Parsed.type p) "series_pack").
  { destruct (Parsed.season p) as [s|], (Parsed.quality p) as [q|]; try done.
    apply replace_pack_idem. }
  destruct (String.eqb (Parsed.type p) "series").
  { destruct (Parsed.season p) as [s|], (Parsed.episode p) as [x|]; try done.
    apply replace_episode_idem. }
  apply addToSet_idem.
Qed.

Lemma update_one_ext q f g l :
  (∀ d, f d = g d) → Mongo.update_one q f l = Mongo.update_one q g l.
Proof.
  intros H. induction l as [|x l IH]; simpl; [done|].
  destruct (q x); [by rewrite H | by rewrite IH].
Qed.

(** An ingestion answered [ok] can be repeated: the same release, with
    the same resolution, leaves the world as it is. *)
Lemma ingest_idem cfg E E' r p m w w1 :
  ingest cfg E r p m w = (Ok ok_reply, w1) →
  ingest cfg E' r p m w1 = (Ok ok_reply, w1).
Proof.
  intros Hrun. destruct (ingest_ok cfg E r p m w w1 Hrun) as (e & w0 & Hrec & Hc & ->).
  destruct (reconcile_spec cfg E r p w e w0 Hrec)
    as (Q & e0 & added & cs & HQ & Hfind & Hid & _).
  set (l1 := Mongo.update_one (Mongo.by_id (_id e)) (merged p m) (movies w0)).
  assert (Hst : ∀ d, Q (merged p m d) = Q d).
  { apply (query_stable r p Q); [done|]. intros d.
    pose proof (merged_frozen p m d) as Hi. unfold frozen_fields, metadata in Hi.
    by simplify_eq. }
  assert (∃ e1, Mongo.find_one Q l1 = Some e1 ∧ _id e1 = _id e) as (e1 & Hf1 & Hid1).
  { destruct (find_one_update_one Q (Mongo.by_id (_id e)) (merged p m) (movies w0) Hst)
      as [[_ Hn]|(d & Hd & [Hsame|[Hupd _]])]; [congruence|..];
      rewrite Hfind in Hd; injection Hd as <-; eexists; (split; [eassumption|]);
      [done | by rewrite merged_id]. }
  unfold ingest.
  erewrite bind_ok; [|by apply (reconcile_found cfg E' r p _ Q e1)]. cbn beta iota.
  erewrite bind_ok; [|by apply merge_release_eq]. cbn [movies jobs sent].
  unfold mret, M_ret, ok_reply. f_equal. f_equal. rewrite Hid1. fold l1. unfold l1.
  rewrite update_one_twice by (intros d; unfold Mongo.by_id; by rewrite merged_id).
  apply update_one_ext. intros d. apply merged_idem.
Qed.

(** ** Every event, seen from the collection *)

Lemma reconcile_added cfg E r p w :
  ∃ added, movies (get_or_create_content_entry cfg E r p w).2 = movies w ++ added
           ∧ (added = [] ∨ ∃ t, added = [created E r t p]).
Proof.
  assert (Hs : r ≫= Tmdb.tmdb_id = None →
    ∃ added, movies (get_or_create_shell cfg E p w).2 = movies w ++ added
             ∧ (added = [] ∨ ∃ t, added = [created E r t p])).
  { intros Hr. unfold get_or_create_shell. munfold.
    destruct (Parsed.title p) as [t|]; simpl.
    2:{ exists []. rewrite app_nil_r. split; [done | by left]. }
    destruct (Mongo.find_one _ (movies w)); simpl.
    { exists []. rewrite app_nil_r. split; [done | by left]. }
    exists [shell_doc E t p]. split.
    - destruct (Mongo.find_one _ _) as [d|]; simpl; [|done].
      destruct (send_notification_spec cfg E d
                  (mkworld (Mongo.insert_one (shell_doc E t p) (movies w)) (jobs w) (sent w)))
        as (cs & -> & _). done.
    - right. exists t. unfold created. destruct r as [details|]; [|done].
      simpl in Hr. by rewrite Hr. }
  unfold get_or_create_content_entry.
  destruct r as [details|]; [|by apply Hs].
  destruct (Tmdb.tmdb_id details) as [i|] eqn:Hi; [|by apply Hs]. munfold.
  destruct (Mongo.find_one _ (movies w)); simpl.
  { exists []. rewrite app_nil_r. split; [done | by left]. }
  exists [base_doc E details p]. split.
  - destruct (Mongo.find_one _ _) as [d|]; simpl; [|done].
    destruct (send_notification_spec cfg E d
                (mkworld (Mongo.insert_one (base_doc E details p) (movies w)) (jobs w) (sent w)))
      as (cs & -> & _). done.
  - right. exists "". unfold created. by rewrite Hi.
Qed.

Lemma update_one_lookup q f l :
  ∃ i, (∀ j, j ≠ i → Mongo.update_one q f l !! j = l !! j)
       ∧ (∀ d, l !! i = Some d → Mongo.update_one q f l !! i = Some (f d)
                                 ∨ Mongo.update_one q f l !! i = Some d).
Proof.
  induction l as [|x l (i & IH & IHi)]; simpl.
  - exists 0%nat. by split.
  - destruct (q x).
    + exists 0%nat. split; [by intros [|j] | intros d [= <-]; by left].
    + exists (S i). split; [intros [|j] Hj; [done|]; apply IH; congruence | done].
Qed.

Lemma ingest_movies cfg E r p m w :
  ∃ added,
    (added = [] ∨ ∃ t, added = [created E r t p])
    ∧ (movies (ingest cfg E r p m w).2 = movies w ++ added
       ∨ ∃ e, movies (ingest cfg E r p m w).2
              = Mongo.update_one (Mongo.by_id (_id e)) (merged p m) (movies w ++ added)).
Proof.
  destruct (reconcile_added cfg E r p w) as (added & Hmov & Hadded).
  exists added. split; [done|]. unfold ingest. munfold.
  destruct (get_or_create_content_entry cfg E r p w) as [[[e|]|] w0]; simpl in *;
    try (by left).
  destruct (merge_release_outcome e p m w0) as [[_ ->]|[_ ->]]; simpl.
  - right. exists e. by rewrite Hmov.
  - by left.
Qed.

Lemma ingest_jobs cfg E r p m w : jobs (ingest cfg E r p m w).2 = jobs w.
Proof.
  unfold ingest. munfold.
  pose proof (reconcile_jobs cfg E r p w) as Hr.
  destruct (get_or_create_content_entry cfg E r p w) as [[[e|]|] w1]; simpl in *;
    try done.
  destruct (merge_release_frame e p m w1) as (Hj & _).
  destruct (merge_release e p m w1) as [[[]|] w2]; simpl in *; congruence.
Qed.

(** What a channel post does is an ingestion or nothing. *)
Lemma channel_post_cases cfg E post msg w :
  (telegram_webhook cfg E (mkupdate (Some post) msg) w).2 = w
  ∨ ∃ r p, telegram_webhook cfg E (mkupdate (Some post) msg) w
           = ingest cfg E r p (Post.message_id post) w.
Proof.
  unfold telegram_webhook, handle_channel_post. simpl.
  destruct (negb _); [by left|].
  destruct (_ ≫= _) as [filename|]; [|by left].
  destruct (parse_filename E filename) as [p|]; [|by left].
  destruct (Py.nonempty (Parsed.title p)) as [t|]; [|by left].
  right. by eexists _, _.
Qed.

Lemma message_event_movies cfg E msg w :
  movies (telegram_webhook cfg E (mkupdate None msg) w).2 = movies w.
Proof.
  unfold telegram_webhook. simpl. destruct msg as [msg|]; [|done]. munfold.
  pose proof (handle_message_movies cfg E msg w) as Hm.
  destruct (handle_message cfg E msg w) as [[[]|] w1]; simpl in *; by rewrite Hm.
Qed.

Lemma created_fresh E r t p :
  _id (created E r t p) = new_id E ∧ categories (created E r t p) = []
  ∧ type (created E r t p) = entry_type p.
Proof. unfold created. repeat case_match; done. Qed.

(** X4. No webhook event removes an entry, reorders the collection or
    changes the id, the descriptive fields or the categories of a stored
    entry; at most one entry is added, with the fresh id and without
    categories.  A message event leaves the collection as it is, a channel
    post leaves the pending jobs as they are. *)
Theorem webhook_keeps_entries cfg E data w :
  ∃ added,
    frozen_fields <$> movies (telegram_webhook cfg E data w).2
    = (frozen_fields <$> movies w) ++ (frozen_fields <$> added)
    ∧ (length added ≤ 1)%nat
    ∧ Forall (λ d, _id d = new_id E ∧ categories d = []) added
    ∧ (channel_post data = None →
       movies (telegram_webhook cfg E data w).2 = movies w)
    ∧ (is_Some (channel_post data) →
       jobs (telegram_webhook cfg E data w).2 = jobs w).
Proof.
  destruct data as [[post|] msg].
  - destruct (channel_post_cases cfg E post msg w) as [->|(r & p & ->)].
    { exists []. rewrite app_nil_r. split; [done|]. split; [simpl; lia|].
      split; [constructor|]. by split. }
    destruct (ingest_movies cfg E r p (Post.message_id post) w)
      as (added & Hadded & Hmov).
    exists added. split; [|split; [|split; [|split; [done|]]]].
    + destruct Hmov as [->|[e ->]]; [by rewrite fmap_app|].
      rewrite update_one_frame by apply merged_frozen. by rewrite fmap_app.
    + destruct Hadded as [->|[t ->]]; simpl; lia.
    + destruct Hadded as [->|[t ->]]; [constructor|].
      destruct (created_fresh E r t p) as (? & ? & _). by repeat constructor.
    + intros _. apply ingest_jobs.
  - exists []. rewrite app_nil_r. split; [|split; [simpl; lia|split; [constructor|]]].
    + by rewrite message_event_movies.
    + split; [|by intros [? [=]]]. intros _. apply message_event_movies.
Qed.

(** X5. A webhook event changes at most one stored entry: every other
    position of the collection holds the document it held before. *)
Theorem webhook_changes_one_entry cfg E data w :
  ∃ i, ∀ j d, j ≠ i → movies w !! j = Some d →
              movies (telegram_webhook cfg E data w).2 !! j = Some d.
Proof.
  destruct data as [[post|] msg].
  2:{ exists 0%nat. intros j d _ Hd. by rewrite message_event_movies. }
  destruct (channel_post_cases cfg E post msg w) as [->|(r & p & ->)].
  { exists 0%nat. by intros j d _ Hd. }
  destruct (ingest_movies cfg E r p (Post.message_id post) w)
    as (added & _ & [->|[e ->]]).
  - exists 0%nat. intros j d _ Hd. by apply lookup_app_l_Some.
  - destruct (update_one_lookup (Mongo.by_id (_id e)) (merged p (Post.message_id post))
                (movies w ++ added)) as (i & Hi & _).
    exists i. intros j d Hj Hd. rewrite Hi by done. by apply lookup_app_l_Some.
Qed.

(** X6. A channel post that was answered [ok] after an ingestion can be
    delivered again: as long as the parser and the catalog answer as
    before, the second delivery leaves the collection, the jobs and the
    call log as the first one left them. *)
Theorem repost_changes_nothing cfg E E' post msg w w1 :
  (∀ f, parse_filename E' f = parse_filename E f) →
  (∀ t ty y, get_tmdb_details_from_api E' t ty y = get_tmdb_details_from_api E t ty y) →
  telegram_webhook cfg E (mkupdate (Some post) msg) w = (Ok ok_reply, w1) →
  telegram_webhook cfg E' (mkupdate (Some post) msg) w1 = (Ok ok_reply, w1).
Proof.
  intros Hparse Hcat. unfold telegram_webhook, handle_channel_post. simpl.
  destruct (negb _); [done|].
  destruct (_ ≫= _) as [filename|]; [|done]. rewrite Hparse.
  destruct (parse_filename E filename) as [p|]; [|done].
  destruct (Py.nonempty (Parsed.title p)) as [t|]; [|done]. rewrite Hcat.
  apply ingest_idem.
Qed.

(** X7. A release whose type needs a key that the parser did not give
    (season or quality of a season pack, season or episode of an episode)
    makes the handler raise [KeyError] after reconciliation and before any
    update: a stored entry is left as it is, and for a new title the entry
    that reconciliation created stays in the collection without any
    release. *)
Theorem incomplete_release_is_rejected cfg E r p t m w :
  ¬ complete p →
  Parsed.title p = Some t →
  (∀ e w0, get_or_create_content_entry cfg E r p w = (Ok (Some e), w0) →
           ingest cfg E r p m w = (Raise KeyError, w0))
  ∧ (no_entry_for r t (movies w) →
     new_id E ∉ (_id <$> movies w) →
     ∃ cs, ingest cfg E r p m w
           = (Raise KeyError,
              mkworld (movies w ++ [created E r t p]) (jobs w) (sent w ++ cs))
           ∧ files (created E r t p) = []
           ∧ episodes (created E r t p) = []
           ∧ season_packs (created E r t p) = []).
Proof.
  intros Hc Ht.
  assert (Hraise : ∀ e w0, get_or_create_content_entry cfg E r p w = (Ok (Some e), w0) →
                           ingest cfg E r p m w = (Raise KeyError, w0)).
  { intros e w0 Hrec. unfold ingest. rewrite (bind_ok _ _ _ _ _ Hrec). cbn beta iota.
    destruct (merge_release_outcome e p m w0) as [[? _]|[_ Hm]]; [done|].
    by rewrite (bind_raise _ _ _ _ _ Hm). }
  split; [done|]. intros Hno Hfresh.
  destruct (reconcile_creates cfg E r p t w Ht Hno Hfresh) as (cs & Hrec & _).
  exists cs. split; [by apply Hraise in Hrec|].
  by destruct (created_fields E r t p) as (_ & ? & ? & ? & _).
Qed.

(** X8. Re-ingesting a season pack that is already stored, under another
    message reference: the stored reference is replaced and [season_packs]
    keeps its length; the packs of other seasons or qualities stay. *)
Theorem season_pack_reingest_replaces cfg E r p m w e s q old :
  get_or_create_content_entry cfg E r p w = (Ok (Some e), w) →
  Mongo.find_one (Mongo.by_id (_id e)) (movies w) = Some e →
  Parsed.type p = "series_pack" →
  Parsed.season p = Some s →
  Parsed.quality p = Some q →
  unique_packs e →
  Pack.mk s q old ∈ season_packs e →
  ∃ w' e',
    ingest cfg E r p m w = (Ok ok_reply, w')
    ∧ Mongo.find_one (Mongo.by_id (_id e)) (movies w') = Some e'
    ∧ length (season_packs e') = length (season_packs e)
    ∧ Pack.mk s q m ∈ season_packs e'
    ∧ (m ≠ old → Pack.mk s q old ∉ season_packs e')
    ∧ (∀ x, x ∈ season_packs e' → Pack.key x = (s, q) → x = Pack.mk s q m)
    ∧ (∀ x, Pack.key x ≠ (s, q) → x ∈ season_packs e' ↔ x ∈ season_packs e)
    ∧ unique_packs e'
    ∧ episodes e' = episodes e ∧ files e' = files e
    ∧ length (movies w') = length (movies w).
Proof.
  intros Hrec Hfind Ht Hs Hq Huniq Hold.
  assert (Hc : complete p).
  { unfold complete. rewrite Ht, Hs, Hq. split; [eauto | done]. }
  assert (Hpacks : season_packs (merged p m e)
                   = List.filter (λ x, negb ((Pack.season x =? s) && String.eqb (Pack.quality x) q))
                                 (season_packs e) ++ [Pack.mk s q m]).
  { unfold merged, Mongo.apply, addToSet_of. rewrite Ht, Hs, Hq. simpl.
    destruct (Parsed.languages p); done. }
  eexists _, (merged p m e). split; [by apply ingest_existing|]. simpl.
  split. { apply find_update_one; [done|]. rewrite <- merged_id with (p := p) (m := m) at 1.
           apply by_id_self. }
  rewrite Hpacks. pose proof (same_pack s q) as Hsame.
  split. { by apply (replace_length Pack.key _ (s, q) Hsame _ (Pack.mk s q old)). }
  split. { apply elem_of_app. right. by left. }
  split. { intros Hne Hin.
           apply (replace_lookup Pack.key _ (s, q) Hsame) in Hin; [|done..].
           by injection Hin as ->. }
  split. { intros x Hx Hk. by apply (replace_lookup Pack.key _ (s, q) Hsame) in Hx. }
  split. { intros x Hk. by apply (replace_others Pack.key _ (s, q) Hsame). }
  split. { unfold unique_packs. rewrite Hpacks.
           by apply (replace_NoDup Pack.key _ (s, q) (same_pack s q)). }
  split. { unfold merged, Mongo.apply, addToSet_of. rewrite Ht, Hs, Hq. simpl.
           destruct (Parsed.languages p); done. }
  split. { unfold merged, Mongo.apply, addToSet_of. rewrite Ht, Hs, Hq. simpl.
           destruct (Parsed.languages p); done. }
  apply update_one_length.
Qed.

Lemma find_one_split q l d :
  Mongo.find_one q l = Some d →
  ∃ l1 l2, l = l1 ++ d :: l2 ∧ ∀ x, x ∈ l1 → q x = false.
Proof.
  unfold Mongo.find_one. induction l as [|x l IH]; simpl; [done|].
  destruct (q x) eqn:Hx.
  - intros [= ->]. exists [], l. split; [done|]. by intros y ?%elem_of_nil.
  - intros H. destruct (IH H) as (l1 & l2 & -> & Hl1). exists (x :: l1), l2.
    split; [done|]. intros y [->|Hy]%elem_of_cons; [done | by apply Hl1].
Qed.

(** X9. When the catalog has nothing for the title, a stored entry without
    catalog id whose title is the parsed title up to the case of letters,
    of any script, is reused: the release is merged into the first entry of
    the collection that answers the shell query, which is that entry when
    no entry before it answers, no entry is created and no call is made. *)
Theorem shell_is_reused_up_to_case cfg E r p t m w s :
  r ≫= Tmdb.tmdb_id = None →
  Parsed.title p = Some t →
  complete p →
  s ∈ movies w →
  tmdb_id s = None →
  Mongo.caseless t (title s) = true →
  ∃ e l1 l2,
    movies w = l1 ++ e :: l2
    ∧ (∀ d, d ∈ l1 → Mongo.by_shell_title t d = false)
    ∧ Mongo.by_shell_title t e = true
    ∧ tmdb_id e = None
    ∧ ((∀ d, d ∈ movies w → Mongo.by_shell_title t d = true → d = s) → e = s)
    ∧ ingest cfg E r p m w
      = (Ok ok_reply,
         mkworld (Mongo.update_one (Mongo.by_id (_id e)) (merged p m) (movies w))
                 (jobs w) (sent w)).
Proof.
  intros Hr Ht Hc Hs Hid Hti.
  assert (Hq : Mongo.by_shell_title t s = true).
  { unfold Mongo.by_shell_title. rewrite Hti. by rewrite bool_decide_eq_true_2. }
  destruct (Mongo.find_one (Mongo.by_shell_title t) (movies w)) as [e|] eqn:Hfind.
  2:{ exfalso. apply find_one_none with (d := s) in Hfind; [|done]. congruence. }
  apply find_one_elem in Hfind as Hfound. destruct Hfound as [He HQ].
  destruct (find_one_split _ _ _ Hfind) as (l1 & l2 & Hl & Hl1).
  exists e, l1, l2. split; [done|]. split; [done|]. split; [done|].
  split. { unfold Mongo.by_shell_title in HQ. apply andb_true_iff in HQ as [_ Hn].
           by apply bool_decide_eq_true in Hn. }
  split; [intros Huniq; by apply Huniq|].
  apply ingest_existing; [done|].
  apply (reconcile_found cfg E r p w (Mongo.by_shell_title t)); [|done].
  unfold query_of. by rewrite Hr, Ht.
Qed.

(** ** From the channel to the requester *)

Lemma find_one_of_elem q l d :
  d ∈ l → q d = true → ∃ d0, Mongo.find_one q l = Some d0 ∧ q d0 = true.
Proof.
  intros Hd Hq. destruct (find_first q l d Hd Hq) as (y & Hy & _ & Hqy). by exists y.
Qed.

(** After pull and push, the first element under the key is the new one. *)
Lemma find_replaced {A} (same : A → bool) (l : list A) new :
  same new = true →
  List.find same (List.filter (λ x, negb (same x)) l ++ [new]) = Some new.
Proof.
  intros Hnew. induction l as [|x l IH]; simpl; [by rewrite Hnew|].
  destruct (same x) eqn:Hx; simpl; [done | by rewrite Hx].
Qed.

Lemma merged_type p m d : type (merged p m d) = type d ∧ title (merged p m d) = title d.
Proof.
  pose proof (merged_frozen p m d) as H. unfold frozen_fields, metadata in H.
  by simplify_eq.
Qed.

(** The link of a release decodes to a token that locates the message of
    the release in the entry it was merged into. *)
Lemma release_link_locates oid p m d link :
  (oid < 2 ^ 96)%N →
  release_link oid p = Some link →
  (∀ q, Parsed.quality p = Some q → part q = true) →
  Parsed.type p = "series_pack" ∨ type d = entry_type p →
  ∃ parts info,
    start_token link parts oid
    ∧ locate (merged p m d) parts = Ok (Some (m, info)).
Proof.
  intros Hoid Hlink Hq Hty. pose proof (ObjectId_oid_str oid Hoid) as Hid.
  destruct (merged_type p m d) as [Htype _].
  unfold release_link in Hlink. unfold entry_type in Hty.
  destruct (String.eqb_spec (Parsed.type p) "movie") as [Hm|Hm].
  { injection Hlink as <-. destruct Hty as [Hty|Hty]; [congruence|].
    set (q := default "HD" (Parsed.quality p)).
    assert (Hqp : part q = true).
    { unfold q. destruct (Parsed.quality p) as [q'|]; [by apply Hq | done]. }
    eexists _, _. split; [by apply file_link_decodes|].
    rewrite locate_file, Htype, Hty, String.eqb_refl, merged_files by done.
    fold q. by rewrite (find_replaced (λ f, String.eqb (File.quality f) q))
      by apply String.eqb_refl. }
  destruct (String.eqb_spec (Parsed.type p) "series_pack") as [Hp|Hp].
  { destruct (Parsed.season p) as [s|] eqn:Hs; [|done].
    destruct (Parsed.quality p) as [q|] eqn:Hqq; [|done]. injection Hlink as <-.
    eexists _, _. split.
    { apply (pack_link_decodes _ _ _ oid s); [done | apply int_pretty | by apply Hq]. }
    rewrite (locate_pack _ _ _ _ s) by apply int_pretty.
    assert (Hpacks : season_packs (merged p m d)
                     = List.filter (λ x, negb ((Pack.season x =? s)
                                               && String.eqb (Pack.quality x) q))
                                   (season_packs d) ++ [Pack.mk s q m]).
    { unfold merged, Mongo.apply, addToSet_of. rewrite Hp, Hs, Hqq. simpl.
      destruct (Parsed.languages p); done. }
    rewrite Hpacks.
    by rewrite (find_replaced (λ x, (Pack.season x =? s) && String.eqb (Pack.quality x) q))
      by (simpl; by rewrite Z.eqb_refl, String.eqb_refl). }
  destruct (String.eqb_spec (Parsed.type p) "series") as [Hse|Hse]; [|done].
  destruct (Parsed.season p) as [s|] eqn:Hs; [|done].
  destruct (Parsed.episode p) as [x|] eqn:Hx; [|done]. injection Hlink as <-.
  destruct Hty as [Hty|Hty]; [congruence|].
  eexists _, _. split.
  { apply (episode_link_decodes _ _ _ oid s x); [done | apply int_pretty..]. }
  rewrite (locate_episode _ _ _ _ s x) by apply int_pretty.
  rewrite Htype, Hty, String.eqb_refl, (merged_episodes p m d s x) by done.
  by rewrite (find_replaced (λ ep, (Episode.season ep =? s) && (Episode.episode_number ep =? x)))
    by (simpl; by rewrite !Z.eqb_refl).
Qed.

(** X10. From the channel to the requester: once a release is ingested,
    the link that the detail page of its entry shows for it makes the bot
    copy the very message that was ingested, under the title of the entry.
    The entry must be of the type the link is served for (movie for a
    file, series for an episode; a season pack is served for any type), and
    the quality must fit in one part of the token: it holds no ["_"] and no
    white space. *)
Theorem ingested_release_is_delivered cfg E E' chat r p m w w1 :
  ingest cfg E r p m w = (Ok ok_reply, w1) →
  Forall (λ d, (_id d < 2 ^ 96)%N) (movies w1) →
  (∀ q, Parsed.quality p = Some q → part q = true) →
  ∃ d,
    Mongo.find_one (Mongo.by_id (_id d)) (movies w1) = Some d
    ∧ ∀ link,
        release_link (_id d) p = Some link →
        Parsed.type p = "series_pack" ∨ type d = entry_type p →
        ∃ info res w2 cs,
          telegram_webhook cfg E' (start_update chat link) w1 = (res, w2)
          ∧ sent w2 = sent w1
                      ++ copyMessage chat (ADMIN_CHANNEL_ID cfg) m (title d) info :: cs
          ∧ Forall (λ c, is_copy c = false ∧ c ≠ notice chat NOT_FOUND_TEXT) cs
          ∧ movies w2 = movies w1.
Proof.
  intros Hrun Hids Hq.
  destruct (ingest_ok cfg E r p m w w1 Hrun) as (e & w0 & Hrec & Hc & ->).
  destruct (reconcile_spec cfg E r p w e w0 Hrec) as (Q & e0 & added & cs0 & _ & _ & _ & He & _).
  destruct (find_one_of_elem (Mongo.by_id (_id e)) (movies w0) e He (by_id_self e))
    as (d0 & Hd0 & Hid0).
  unfold Mongo.by_id in Hid0. apply bool_decide_eq_true in Hid0.
  assert (Hfind : Mongo.find_one (Mongo.by_id (_id e))
                    (Mongo.update_one (Mongo.by_id (_id e)) (merged p m) (movies w0))
                  = Some (merged p m d0)).
  { apply find_update_one; [done|]. unfold Mongo.by_id. apply bool_decide_eq_true.
    by rewrite merged_id. }
  exists (merged p m d0). cbn [movies sent] in *. rewrite merged_id, Hid0.
  split; [done|]. intros link Hlink Hty.
  assert (Hlt : (_id e < 2 ^ 96)%N).
  { apply find_one_elem in Hfind as [Hin _].
    rewrite Forall_forall in Hids. specialize (Hids _ Hin). by rewrite merged_id, Hid0 in Hids. }
  destruct (merged_type p m d0) as [Htype Htitle]. rewrite Htype in Hty.
  destruct (release_link_locates (_id e) p m d0 link Hlt Hlink Hq Hty)
    as (parts & info & Htok & Hloc).
  destruct (webhook_delivers cfg E' chat link parts (_id e) (merged p m d0) m info
              (mkworld (Mongo.update_one (Mongo.by_id (_id e)) (merged p m) (movies w0))
                       (jobs w0) (sent w0)) Htok Hfind Hloc)
    as (res & w2 & cs & Hweb & Hsent & Hcs & Hmov).
  by exists info, res, w2, cs.
Qed.

(** ** Tokens that cannot be read *)

(** X11. A token whose first part [ObjectId] refuses (in a token, which
    holds no white space, anything but 24 hexadecimal digits), a
    season-pack token whose season is not a number, in the digits of any
    script, and an episode token for a series whose season or episode is
    not a number: the one call is
    the error notice to the requester; nothing is copied, nothing is
    scheduled, and the webhook returns [ok] exactly when the notice goes
    through. *)
Theorem unreadable_token_is_reported cfg E chat text cmd token rest w :
  String.prefix "/start" text = true →
  Py.split_ws text = cmd :: token :: rest →
  Bson.ObjectId (default "" (head (Py.split "_" token))) = None
  ∨ (∃ oid content,
       Bson.ObjectId (default "" (head (Py.split "_" token))) = Some oid
       ∧ Mongo.find_one (Mongo.by_id oid) (movies w) = Some content
       ∧ ((∃ id_str sd q, Py.split "_" token = [id_str; String "S" sd; q]
                          ∧ Py.int sd = None)
          ∨ (∃ id_str sd ed, Py.split "_" token = [id_str; sd; ed]
                             ∧ String.prefix "S" sd = false
                             ∧ type content = "series"
                             ∧ (Py.int sd = None ∨ Py.int ed = None)))) →
  telegram_webhook cfg E (start_update chat text) w
  = (match telegram E (notice chat UNEXPECTED_TEXT) with
     | returns _ => Ok ok_reply
     | raises => Raise RequestException
     end,
     log [notice chat UNEXPECTED_TEXT] w).
Proof.
  intros Hp Hs Hbad.
  assert (Hbody : ∃ e, start_body cfg E chat token w = (Raise e, w)).
  { destruct Hbad as [Hid|(oid & content & Hid & Hfind & Hloc)].
    - exists InvalidId. unfold start_body. rewrite Hid. by munfold.
    - exists ValueError. rewrite (start_body_found cfg E chat token oid content w Hid Hfind).
      destruct Hloc as [(id_str & sd & q & -> & Hint)|(id_str & sd & ed & -> & HS & Hty & Hint)].
      + unfold locate.
        replace (String.prefix "S" (String "S" sd)) with true by (by destruct sd).
        replace (String.substring 1 (String.length (String "S" sd) - 1) (String "S" sd))
          with sd by (simpl; by rewrite Nat.sub_0_r, substring_all).
        by rewrite Hint.
      + unfold locate. rewrite HS, Hty, String.eqb_refl.
        destruct Hint as [->| ->]; [done|]. by destruct (Py.int sd). }
  destruct Hbody as [e Hbody].
  rewrite (webhook_start cfg E chat text cmd token rest w Hp Hs), Hbody.
  by destruct (telegram E _).
Qed.

(** X12. A [/start] command without a token is answered with the welcome
    message and the button to the site; when that call raises, the welcome
    message is sent again without the button, unguarded.  Neither the
    collection nor the jobs change. *)
Theorem plain_start_is_welcomed cfg E chat text w :
  String.prefix "/start" text = true →
  (∀ cmd token rest, Py.split_ws text ≠ cmd :: token :: rest) →
  let hello := sendMessage chat (welcome_message cfg) in
  telegram_webhook cfg E (start_update chat text) w
  = match telegram E (hello true) with
    | returns _ => (Ok ok_reply, log [hello true] w)
    | raises =>
        (match telegram E (hello false) with
         | returns _ => Ok ok_reply
         | raises => Raise RequestException
         end,
         log [hello true; hello false] w)
    end.
Proof.
  intros Hp Hs hello. unfold telegram_webhook, start_update, handle_message. simpl.
  rewrite Hp.
  destruct (Py.split_ws text) as [|cmd [|token rest]] eqn:Hw;
    [| |by destruct (Hs cmd token rest)]; munfold; unfold request; fold hello;
    destruct (telegram E (hello true)); try done;
    destruct (telegram E (hello false)); by rewrite log_log.
Qed.

(** ** Job ids *)

(** X13. The id of a deletion job determines the chat and the message, so
    a delivery that schedules the deletion of its copy never replaces the
    pending deletion of another message. *)
Theorem deletion_jobs_do_not_collide cfg E chat text parts oid content mid info n w :
  start_token text parts oid →
  Mongo.find_one (Mongo.by_id oid) (movies w) = Some content →
  locate content parts = Ok (Some (mid, info)) →
  telegram E (copyMessage chat (ADMIN_CHANNEL_ID cfg) mid (title content) info)
  = returns (mkresp true (Some n)) →
  ∃ w',
    telegram_webhook cfg E (start_update chat text) w = (Ok ok_reply, w')
    ∧ jobs w' !! job_id chat n = Some (Job.mk (now E + minutes 30) chat n)
    ∧ ∀ chat' n', (chat', n') ≠ (chat, n) →
                  jobs w' !! job_id chat' n' = jobs w !! job_id chat' n'.
Proof.
  intros Htok Hfind Hloc Hcopy. eexists. split; [by eapply delivery_ok|].
  cbn [jobs scheduled log]. split; [apply lookup_insert_eq|].
  intros chat' n' Hne. apply lookup_insert_ne. intros Heq.
  apply job_id_inj in Heq as [-> ->]. done.
Qed.

(** ** Announcements, call by call *)

(** The calls of an announcement: nothing; the photo; or the photo and,
    after an [ok] answer that carries a message id, for an entry tagged
    ["Trending Now"] and not ["Coming Soon"], the pin of that message. *)
Lemma notification_calls cfg E d w :
  ∃ cs,
    send_notification_to_channel cfg E d w = (Ok tt, log cs w)
    ∧ (cs = []
       ∨ ∃ ch url cap kb,
           Py.nonempty (NOTIFICATION_CHANNEL_ID cfg) = Some ch
           ∧ Py.nonempty (poster d) = Some url
           ∧ url ≠ PLACEHOLDER_POSTER
           ∧ ((("Coming Soon" ∈ categories d)
               ∧ cap = coming_soon_caption (title d) ∧ kb = None)
              ∨ (("Coming Soon" ∉ categories d)
                 ∧ is_Some (release_date d)
                 ∧ is_teaser (sendPhoto ch url cap kb) = false ∧ kb = Some (_id d)))
           ∧ (cs = [sendPhoto ch url cap kb]
              ∨ ∃ mid, cs = [sendPhoto ch url cap kb; pinChatMessage ch mid]
                       ∧ telegram E (sendPhoto ch url cap kb)
                         = returns (mkresp true (Some mid))
                       ∧ "Trending Now" ∈ categories d
                       ∧ ("Coming Soon" ∉ categories d))).
Proof.
  unfold send_notification_to_channel.
  destruct (Py.nonempty (NOTIFICATION_CHANNEL_ID cfg)) as [ch|] eqn:Hch.
  2:{ exists []. rewrite log_nil. split; [done | by left]. }
  unfold notification_body.
  destruct (Py.nonempty (poster d)) as [url|] eqn:Hp; munfold.
  2:{ exists []. rewrite log_nil. split; [done | by left]. }
  destruct (String.eqb_spec url PLACEHOLDER_POSTER) as [Hph|Hph].
  { exists []. rewrite log_nil. split; [done | by left]. }
  destruct (bool_decide ("Coming Soon" ∈ categories d)) eqn:Hcs.
  - apply bool_decide_eq_true in Hcs. unfold request. rewrite andb_false_r.
    eexists [_]. split; [by destruct (telegram E _) as [|[[] ?]]|].
    right. eexists ch, url, _, _. repeat (split; [done|]). split; [by left|]. by left.
  - apply bool_decide_eq_false in Hcs.
    destruct (release_date d) as [rd|] eqn:Hrd; simpl.
    2:{ exists []. rewrite log_nil. split; [done | by left]. }
    rewrite andb_true_r. unfold request.
    set (photo := sendPhoto ch url _ _).
    assert (Hshape : ∀ cs',
      cs' = [photo]
      ∨ (∃ mid, cs' = [photo; pinChatMessage ch mid]
                ∧ telegram E photo = returns (mkresp true (Some mid))
                ∧ "Trending Now" ∈ categories d ∧ ("Coming Soon" ∉ categories d)) →
      cs' = []
      ∨ ∃ ch0 url0 cap kb,
          Some ch = Some ch0 ∧ Some url = Some url0 ∧ url0 ≠ PLACEHOLDER_POSTER
          ∧ ((("Coming Soon" ∈ categories d) ∧ cap = coming_soon_caption (title d) ∧ kb = None)
             ∨ (("Coming Soon" ∉ categories d) ∧ is_Some (Some rd)
                ∧ is_teaser (sendPhoto ch0 url0 cap kb) = false ∧ kb = Some (_id d)))
          ∧ (cs' = [sendPhoto ch0 url0 cap kb]
             ∨ ∃ mid, cs' = [sendPhoto ch0 url0 cap kb; pinChatMessage ch0 mid]
                      ∧ telegram E (sendPhoto ch0 url0 cap kb)
                        = returns (mkresp true (Some mid))
                      ∧ "Trending Now" ∈ categories d ∧ ("Coming Soon" ∉ categories d))).
    { intros cs' Hcs'. right. unfold photo in Hcs'.
      eexists ch, url, (new_content_caption _ _ _ _), (Some (_id d)).
      split; [done|]. split; [done|]. split; [done|].
      split; [right; by eauto|]. exact Hcs'. }
    destruct (telegram E photo) as [|[[] mid]] eqn:Hphoto; simpl.
    + exists [photo]. split; [done|]. apply Hshape. by left.
    + destruct (bool_decide ("Trending Now" ∈ categories d)) eqn:Htr.
      * apply bool_decide_eq_true in Htr. destruct mid as [mid|]; simpl.
        -- exists [photo; pinChatMessage ch mid].
           split; [destruct (telegram E (pinChatMessage ch mid)); simpl; by rewrite log_log|].
           apply Hshape. right. by exists mid.
        -- exists [photo]. split; [done|]. apply Hshape. by left.
      * exists [photo]. split; [done|]. apply Hshape. by left.
    + exists [photo]. split; [done|]. apply Hshape. by left.
Qed.

(** X14. An announcement never raises and changes nothing but the call
    log; it makes at most two calls, all of them to the notification
    channel; and it makes none when no channel is configured, when the
    entry has no poster or the placeholder poster, or when the entry is not
    tagged ["Coming Soon"] and its release date is null. *)
Theorem announcement_is_contained cfg E d w :
  ∃ cs,
    send_notification_to_channel cfg E d w = (Ok tt, log cs w)
    ∧ (length cs ≤ 2)%nat
    ∧ (∀ c, c ∈ cs →
         ∃ ch, Py.nonempty (NOTIFICATION_CHANNEL_ID cfg) = Some ch
               ∧ ((∃ url cap kb, c = sendPhoto ch url cap kb ∧ poster d = Some url)
                  ∨ ∃ mid, c = pinChatMessage ch mid))
    ∧ (Py.nonempty (NOTIFICATION_CHANNEL_ID cfg) = None
       ∨ Py.nonempty (poster d) = None
       ∨ poster d = Some PLACEHOLDER_POSTER
       ∨ (("Coming Soon" ∉ categories d) ∧ release_date d = None) →
       cs = []).
Proof.
  destruct (notification_calls cfg E d w)
    as (cs & Hrun & [->|(ch & url & cap & kb & Hch & Hurl & Hph & Hcap & Hcs)]).
  { exists []. split; [done|]. split; [simpl; lia|].
    split; [by intros c ?%elem_of_nil | done]. }
  assert (Hposter : poster d = Some url).
  { destruct (poster d) as [[|? ?]|]; simpl in Hurl; congruence. }
  exists cs. split; [done|]. split; [|split].
  - destruct Hcs as [->|(mid & -> & _)]; simpl; lia.
  - intros c Hc. exists ch. split; [done|].
    destruct Hcs as [->|(mid & -> & _)].
    + apply list_elem_of_singleton in Hc as ->. left. by eexists _, _, _.
    + apply elem_of_cons in Hc as [->|Hc]; [left; by eexists _, _, _|].
      apply list_elem_of_singleton in Hc as ->. right. by exists mid.
  - intros [H|[H|[H|[Hsoon Hrd]]]]; [congruence | congruence | congruence |].
    destruct Hcap as [[? _]|(_ & [rd Hrd'] & _)]; congruence.
Qed.

(** X15. An entry tagged ["Coming Soon"] is announced by the teaser alone:
    one photo with the coming-soon caption and no button to the site, and no
    pin, also when the entry is tagged ["Trending Now"].  Whatever the entry,
    a pin follows the photo only for an entry tagged ["Trending Now"] and not
    ["Coming Soon"], after an [ok] answer, and it pins the message of that
    answer. *)
Theorem coming_soon_is_teaser_only cfg E d w :
  ∃ cs,
    send_notification_to_channel cfg E d w = (Ok tt, log cs w)
    ∧ ("Coming Soon" ∈ categories d →
       cs = [] ∨ ∃ ch url, cs = [sendPhoto ch url (coming_soon_caption (title d)) None])
    ∧ (("Coming Soon" ∉ categories d) → Forall (λ c, is_teaser c = false) cs)
    ∧ (∀ ch mid, pinChatMessage ch mid ∈ cs →
         "Trending Now" ∈ categories d
         ∧ ("Coming Soon" ∉ categories d)
         ∧ ∃ photo, cs = [photo; pinChatMessage ch mid]
                    ∧ telegram E photo = returns (mkresp true (Some mid))).
Proof.
  destruct (notification_calls cfg E d w)
    as (cs & Hrun & [->|(ch & url & cap & kb & Hch & Hurl & Hph & Hcap & Hcs)]).
  { exists []. split; [done|]. split; [by left|]. split; [by constructor|].
    by intros ch mid ?%elem_of_nil. }
  exists cs. split; [done|]. split; [|split].
  - intros Hsoon. right. exists ch, url.
    destruct Hcap as [(_ & -> & ->)|[? _]]; [|done].
    destruct Hcs as [->|(mid & _ & _ & _ & ?)]; done.
  - intros Hsoon. destruct Hcap as [[? _]|(_ & _ & Ht & _)]; [done|].
    destruct Hcs as [->|(mid & -> & _)]; by repeat constructor.
  - intros ch' mid' Hin.
    destruct Hcs as [->|(mid & -> & Hphoto & Htr & Hsoon)].
    + by apply list_elem_of_singleton in Hin.
    + apply elem_of_cons in Hin as [?|Hin]; [done|].
      apply list_elem_of_singleton in Hin as [= -> ->].
      split; [done|]. split; [done|]. by eexists.
Qed.

(** ** The admin routes *)

Lemma delete_one_none q l : Mongo.find_one q l = None → Mongo.delete_one q l = l.
Proof.
  unfold Mongo.find_one. induction l as [|x l IH]; simpl; [done|].
  destruct (q x); [done|]. intros H. by rewrite IH.
Qed.

(** The first answer to the query goes, the rest stays in place. *)
Lemma delete_one_some q l d :
  Mongo.find_one q l = Some d →
  ∃ l1 l2, l = l1 ++ d :: l2 ∧ Mongo.delete_one q l = l1 ++ l2
           ∧ ∀ x, x ∈ l1 → q x = false.
Proof.
  unfold Mongo.find_one. induction l as [|x l IH]; simpl; [done|].
  destruct (q x) eqn:Hx.
  - intros [= ->]. exists [], l. split; [done|]. split; [done|].
    by intros y ?%elem_of_nil.
  - intros H. destruct (IH H) as (l1 & l2 & -> & -> & Hl1).
    exists (x :: l1), l2. split; [done|]. split; [done|].
    intros y [->|Hy]%elem_of_cons; [done | by apply Hl1].
Qed.

Lemma delete_one_unique l (oid : Bson.t) :
  NoDup (_id <$> l) →
  ∀ d, d ∈ Mongo.delete_one (Mongo.by_id oid) l → Mongo.by_id oid d = false.
Proof.
  intros Hnd d Hd. destruct oid as [i|bs]; [|done].
  unfold Mongo.by_id. apply bool_decide_eq_false.
  destruct (Mongo.find_one (Mongo.by_id i) l) as [x|] eqn:Hfind.
  - destruct (delete_one_some _ _ _ Hfind) as (l1 & l2 & -> & Hdel & _).
    rewrite Hdel in Hd. apply find_one_elem in Hfind as [_ Hx].
    unfold Mongo.by_id in Hx. apply bool_decide_eq_true in Hx.
    rewrite fmap_app, fmap_cons in Hnd. apply NoDup_app in Hnd as (_ & Hdisj & Hnd2).
    apply NoDup_cons in Hnd2 as [Hx2 _]. intros Heq.
    apply elem_of_app in Hd as [Hd|Hd].
    + apply (Hdisj (_id d)); [by apply list_elem_of_fmap_2|]. rewrite Heq, <- Hx. by left.
    + apply Hx2. rewrite Hx, <- Heq. by apply list_elem_of_fmap_2.
  - rewrite delete_one_none in Hd by done.
    apply find_one_none with (d := d) in Hfind; [|done].
    unfold Mongo.by_id in Hfind. by apply bool_decide_eq_false in Hfind.
Qed.

Lemma delete_movie_authorized adm movie_id w :
  delete_movie adm movie_id
    (Some (mkauth (Some (ADMIN_USERNAME adm)) (Some (ADMIN_PASSWORD adm)))) w
  = match Bson.ObjectId movie_id with
    | Some oid =>
        (Ok (redirect "manage_content"),
         mkworld (Mongo.delete_one (Mongo.by_id oid) (movies w)) (jobs w) (sent w))
    | None => (Raise InvalidId, w)
    end.
Proof.
  unfold delete_movie, requires_auth, check_auth. simpl.
  rewrite !bool_decide_eq_true_2 by done. simpl.
  destruct (Bson.ObjectId movie_id); by munfold.
Qed.

Lemma delete_movie_redirects adm movie_id auth w w' endpoint :
  delete_movie adm movie_id auth w = (Ok (redirect endpoint), w') →
  ∃ oid, Bson.ObjectId movie_id = Some oid
         ∧ w' = mkworld (Mongo.delete_one (Mongo.by_id oid) (movies w)) (jobs w) (sent w).
Proof.
  unfold delete_movie, requires_auth.
  destruct auth as [a|]; [|done].
  destruct (negb _); [done|].
  destruct (Bson.ObjectId movie_id) as [oid|]; munfold; [|done].
  unfold db_delete_one. intros [= _ <-]. by exists oid.
Qed.

(** X17. Deleting an entry needs the administrator's credentials: without
    them the answer is 401 and nothing changes, whatever the id.  With them,
    an id that [ObjectId] refuses raises and changes nothing; an id that it
    accepts is answered with the redirect, the first document that has it is
    removed and nothing else, the other documents keep their order, and no
    job or call is made.  With one document per id, none with this id is
    left.  An id written with white space is accepted, with fewer than
    twelve bytes: it removes nothing. *)
Theorem delete_movie_removes_one_entry adm movie_id w :
  (∀ auth,
      auth = None
      ∨ (∃ a, auth = Some a
              ∧ (username a ≠ Some (ADMIN_USERNAME adm)
                 ∨ password a ≠ Some (ADMIN_PASSWORD adm))) →
      delete_movie adm movie_id auth w = (Ok Unauthorized, w))
  ∧ let auth := Some (mkauth (Some (ADMIN_USERNAME adm)) (Some (ADMIN_PASSWORD adm))) in
    (Bson.ObjectId movie_id = None →
     delete_movie adm movie_id auth w = (Raise InvalidId, w))
    ∧ (∀ oid, Bson.ObjectId movie_id = Some oid →
         ∃ w', delete_movie adm movie_id auth w = (Ok (redirect "manage_content"), w')
               ∧ jobs w' = jobs w
               ∧ sent w' = sent w
               ∧ (Mongo.find_one (Mongo.by_id oid) (movies w) = None →
                  movies w' = movies w)
               ∧ (∀ d, Mongo.find_one (Mongo.by_id oid) (movies w) = Some d →
                       oid = Bson.full (_id d)
                       ∧ ∃ l1 l2, movies w = l1 ++ d :: l2
                                  ∧ movies w' = l1 ++ l2
                                  ∧ ∀ x, x ∈ l1 → _id x ≠ _id d)
               ∧ (NoDup (_id <$> movies w) →
                  ∀ d, d ∈ movies w' → oid ≠ Bson.full (_id d))
               ∧ (∀ binary, oid = Bson.short binary → movies w' = movies w)).
Proof.
  split.
  - intros auth [->|(a & -> & Hbad)]; [done|].
    unfold delete_movie, requires_auth, check_auth.
    destruct Hbad as [Hu|Hp].
    + by rewrite (bool_decide_eq_false_2 _ Hu).
    + rewrite (bool_decide_eq_false_2 _ Hp), andb_false_r. done.
  - intros auth. split.
    + intros Hid. unfold auth. by rewrite delete_movie_authorized, Hid.
    + intros oid Hid. unfold auth. rewrite delete_movie_authorized, Hid.
      eexists. split; [done|]. cbn [movies jobs sent].
      split; [done|]. split; [done|]. split; [apply delete_one_none|].
      split; [|split].
      * intros d Hd. pose proof (find_by_id _ _ _ Hd) as ->. split; [done|].
        destruct (delete_one_some _ _ _ Hd) as (l1 & l2 & H1 & H2 & H3).
        exists l1, l2. split; [done|]. split; [done|]. intros x Hx.
        specialize (H3 x Hx). unfold Mongo.by_id in H3. by apply bool_decide_eq_false in H3.
      * intros Hnd d Hd ->. apply (delete_one_unique _ _ Hnd) in Hd.
        unfold Mongo.by_id in Hd. by apply bool_decide_eq_false in Hd.
      * intros bs ->. by apply delete_one_none, find_one_none.
Qed.

Lemma movie_detail_eq movie_id w :
  movie_detail movie_id w
  = (Ok match Bson.ObjectId movie_id with
        | Some oid =>
            match Mongo.find_one (Mongo.by_id oid) (movies w) with
            | Some movie => Rendered movie
            | None => NotFound
            end
        | None => BadRequest
        end, w).
Proof.
  unfold movie_detail. munfold.
  destruct (Bson.ObjectId movie_id) as [oid|]; simpl; [|done].
  by destruct (Mongo.find_one _ _).
Qed.

(** X18. Once an entry is deleted, with one document per id: its detail
    page answers 404, and every deep link that carries its id is met with
    silence (the webhook returns [ok] and makes no call), while the pending
    jobs stay as they were. *)
Theorem deleted_entry_is_gone adm cfg E movie_id auth w w' :
  delete_movie adm movie_id auth w = (Ok (redirect "manage_content"), w') →
  NoDup (_id <$> movies w) →
  ∃ oid,
    Bson.ObjectId movie_id = Some oid
    ∧ movie_detail movie_id w' = (Ok NotFound, w')
    ∧ jobs w' = jobs w
    ∧ ∀ chat text parts,
        start_token text parts oid →
        telegram_webhook cfg E (start_update chat text) w' = (Ok ok_reply, w').
Proof.
  intros Hdel Hnd. destruct (delete_movie_redirects _ _ _ _ _ _ Hdel) as (oid & Hid & ->).
  assert (Hgone : Mongo.find_one (Mongo.by_id oid)
                    (Mongo.delete_one (Mongo.by_id oid) (movies w)) = None).
  { apply find_one_none. intros d Hd. by apply (delete_one_unique (movies w)). }
  exists oid. split; [done|]. split; [|split; [done|]].
  - rewrite movie_detail_eq, Hid. cbn [movies]. by rewrite Hgone.
  - intros chat text parts (Hp & (cmd & token & rest & Hs & Hparts) & Hoid).
    rewrite (webhook_start cfg E chat text cmd token rest _ Hp Hs).
    unfold start_body. rewrite Hparts, Hoid. munfold. cbn [movies]. by rewrite Hgone.
Qed.

(** ** The trailer key *)

Lemma strip_sound p s s' : Re.strip p s = Some s' → s = p +:+ s'.
Proof.
  revert s. induction p as [|a p IH]; intros s; simpl.
  - by intros [= ->].
  - destruct s as [|b s]; [done|].
    destruct (Ascii.eqb_spec a b) as [->|]; [|done].
    intros H. by rewrite append_cons, <- (IH s H).
Qed.

Lemma strip_app p s : Re.strip p (p +:+ s) = Some s.
Proof.
  induction p as [|a p IH]; [by destruct s|].
  rewrite append_cons. simpl. by rewrite Ascii.eqb_refl.
Qed.

Lemma optional_sound p s t : t ∈ Re.optional p s → ∃ pre, s = pre +:+ t.
Proof.
  unfold Re.optional. destruct (Re.strip p s) as [s'|] eqn:Hs.
  - intros [->|Ht]%elem_of_cons.
    + exists p. by apply strip_sound.
    + apply list_elem_of_singleton in Ht as ->. by exists "".
  - intros ->%list_elem_of_singleton. by exists "".
Qed.

Lemma scheme_sound s t : t ∈ Re.scheme s → ∃ pre, s = pre +:+ t.
Proof.
  unfold Re.scheme. destruct (Re.strip "http" s) as [s1|] eqn:H1.
  2:{ intros ->%list_elem_of_singleton. by exists "". }
  intros [Ht|Ht]%elem_of_app.
  - apply list_elem_of_omap in Ht as (u & Hu & Hst).
    apply optional_sound in Hu as [pre Hpre]. apply strip_sound in Hst, H1.
    exists ("http" +:+ pre +:+ "://"). rewrite H1, Hpre, Hst.
    by rewrite !append_assoc.
  - apply list_elem_of_singleton in Ht as ->. by exists "".
Qed.

Lemma first_of_sound {A} (f : string → option A) l a :
  Re.first_of f l = Some a → ∃ s, s ∈ l ∧ f s = Some a.
Proof.
  induction l as [|s l IH]; simpl; [done|].
  destruct (f s) as [b|] eqn:Hs.
  - intros [= ->]. exists s. split; [by left | done].
  - intros H. destruct (IH H) as (t & Ht & Hf). exists t. split; [by right | done].
Qed.

Lemma substring_front n s :
  String.length (String.substring 0 n s) = n →
  ∃ post, s = String.substring 0 n s +:+ post.
Proof.
  revert s. induction n as [|n IH]; intros [|c s]; simpl; try done.
  - by exists "".
  - by exists (String c s).
  - intros [= H]. destruct (IH s H) as [post Hpost]. exists post.
    by rewrite append_cons, <- Hpost.
Qed.

Lemma substring_app_front k rest :
  String.substring 0 (String.length k) (k +:+ rest) = k.
Proof.
  induction k as [|c k IH]; [by destruct rest|].
  rewrite append_cons. simpl. by rewrite IH.
Qed.

(** What the group holds: eleven characters of the class, at the front. *)
Lemma group_sound s g :
  Re.group s = Some g →
  String.length g = 11%nat
  ∧ forallb Re.id_char (list_ascii_of_string g) = true
  ∧ ∃ post, s = g +:+ post.
Proof.
  unfold Re.group.
  destruct (_ =? 11)%nat eqn:Hlen; [|done].
  destruct (forallb _ _) eqn:Hall; [|done]. simpl.
  intros [= <-]. apply Nat.eqb_eq in Hlen. split; [done|]. split; [done|].
  by apply substring_front.
Qed.

Lemma group_app k rest :
  String.length k = 11%nat →
  forallb Re.id_char (list_ascii_of_string k) = true →
  Re.group (k +:+ rest) = Some k.
Proof.
  intros Hlen Hall. unfold Re.group. cbv zeta.
  rewrite <- Hlen, substring_app_front, Nat.eqb_refl, Hall. done.
Qed.

Lemma match_here_sound marker s g :
  Re.match_here marker s = Some g →
  String.length g = 11%nat
  ∧ forallb Re.id_char (list_ascii_of_string g) = true
  ∧ ∃ pre post, s = pre +:+ marker +:+ g +:+ post.
Proof.
  unfold Re.match_here. intros H.
  apply first_of_sound in H as (t & Ht & H).
  apply first_of_sound in H as (u & Hu & H).
  destruct (Re.strip marker u) as [v|] eqn:Hv; [|done]. simpl in H.
  apply group_sound in H as (Hlen & Hall & post & ->).
  split; [done|]. split; [done|].
  apply scheme_sound in Ht as [pre1 ->]. apply optional_sound in Hu as [pre2 ->].
  apply strip_sound in Hv as ->.
  exists (pre1 +:+ pre2), post. by rewrite !append_assoc.
Qed.

Lemma search_sound marker s g :
  Re.search marker s = Some g →
  String.length g = 11%nat
  ∧ forallb Re.id_char (list_ascii_of_string g) = true
  ∧ ∃ pre post, s = pre +:+ marker +:+ g +:+ post.
Proof.
  induction s as [|c s IH]; simpl.
  - destruct (Re.match_here marker "") as [g'|] eqn:Hm; [|done].
    intros [= ->]. by apply match_here_sound.
  - destruct (Re.match_here marker (String c s)) as [g'|] eqn:Hm.
    + intros [= ->]. by apply match_here_sound.
    + intros H. destruct (IH H) as (Hlen & Hall & pre & post & ->).
      split; [done|]. split; [done|]. by exists (String c pre), post.
Qed.

Lemma first_match_sound markers url g :
  first_match markers url = Some g →
  ∃ marker, marker ∈ markers ∧ Re.search marker url = Some g.
Proof.
  induction markers as [|m ms IH]; simpl; [done|].
  destruct (Re.search m url) as [g'|] eqn:Hs.
  - intros [= ->]. exists m. split; [by left | done].
  - intros H. destruct (IH H) as (m' & Hm' & Hs'). exists m'. split; [by right | done].
Qed.

Lemma extract_sound url key :
  extract_youtube_id url = Some key →
  String.length key = 11%nat
  ∧ forallb Re.id_char (list_ascii_of_string key) = true
  ∧ ∃ u marker pre post,
      url = Some u
      ∧ marker ∈ youtube_markers
      ∧ u = pre +:+ marker +:+ key +:+ post.
Proof.
  unfold extract_youtube_id.
  destruct url as [u|]; [|done]. destruct u as [|c u]; [done|]. cbn [Py.nonempty].
  intros H. apply first_match_sound in H as (marker & Hm & H).
  apply search_sound in H as (Hlen & Hall & pre & post & Hu).
  split; [done|]. split; [done|]. by exists (String c u), marker, pre, post.
Qed.

(** X19. What [extract_youtube_id] returns is a key of eleven characters
    among letters, digits, [_] and [-], and it stands in the URL right
    after one of the three markers. *)
Theorem extract_youtube_id_sound url key :
  extract_youtube_id url = Some key →
  String.length key = 11%nat
  ∧ forallb Re.id_char (list_ascii_of_string key) = true
  ∧ ∃ u marker pre post,
      url = Some u
      ∧ marker ∈ youtube_markers
      ∧ u = pre +:+ marker +:+ key +:+ post.
Proof. apply extract_sound. Qed.

Lemma extract_watch_url key rest :
  String.length key = 11%nat →
  forallb Re.id_char (list_ascii_of_string key) = true →
  extract_youtube_id (Some ("https://www.youtube.com/watch?v=" +:+ key +:+ rest)) = Some key.
Proof.
  intros Hlen Hall. unfold extract_youtube_id.
  rewrite !append_cons, append_nil. cbn [Py.nonempty].
  unfold youtube_markers, first_match, Re.search.
  assert (Hm : ∀ s, Re.match_here "youtube.com/watch?v="
                      (String "h" (String "t" (String "t" (String "p" (String "s"
                       (String ":" (String "/" (String "/" (String "w" (String "w"
                        (String "w" (String "."
                         ("youtube.com/watch?v=" +:+ s))))))))))))) = Re.group s).
  { intros s. rewrite !append_cons, append_nil.
    unfold Re.match_here, Re.scheme, Re.optional. cbn -[Re.group].
    by destruct (Re.group s). }
  change (String "y" (String "o" (String "u" (String "t" (String "u" (String "b"
          (String "e" (String "." (String "c" (String "o" (String "m" (String "/"
           (String "w" (String "a" (String "t" (String "c" (String "h" (String "?"
            (String "v" (String "=" (key +:+ rest)))))))))))))))))))))
    with ("youtube.com/watch?v=" +:+ (key +:+ rest)).
  destruct rest as [|c rest]; rewrite Hm, group_app by done; done.
Qed.

(** X20. The edit form shows the stored trailer key inside a watch URL, and
    saving reads the key back from that URL: the key survives exactly when
    it is eleven characters among letters, digits, [_] and [-].  So does
    every key that [extract_youtube_id] itself produced; an entry without
    trailer stays without. *)
Theorem trailer_key_survives_edit :
  (∀ key,
      extract_youtube_id (Some (trailer_link_value (Some key))) = Some key
      ↔ String.length key = 11%nat
        ∧ forallb Re.id_char (list_ascii_of_string key) = true)
  ∧ (∀ url key,
        extract_youtube_id url = Some key →
        extract_youtube_id (Some (trailer_link_value (Some key))) = Some key)
  ∧ extract_youtube_id (Some (trailer_link_value None)) = None.
Proof.
  assert (Hback : ∀ key, String.length key = 11%nat →
                         forallb Re.id_char (list_ascii_of_string key) = true →
                         extract_youtube_id (Some (trailer_link_value (Some key))) = Some key).
  { intros key Hlen Hall. unfold trailer_link_value. simpl.
    pose proof (extract_watch_url key "" Hlen Hall) as H.
    replace (key +:+ "") with key in H; [done|].
    clear. induction key as [|c k IH]; [done|]. by rewrite append_cons, <- IH. }
  split; [|split].
  - intros key. split.
    + intros H. apply extract_sound in H. tauto.
    + intros [Hlen Hall]. by apply Hback.
  - intros url key H. apply extract_sound in H as (Hlen & Hall & _).
    by apply Hback.
  - reflexivity.
Qed.

(** ** Escaping *)

Lemma reserved_not_backslash c : markdown_reserved c = true → c ≠ backslash.
Proof. intros H ->. by vm_compute in H. Qed.

(** X21. [escape_markdown] puts a backslash before each character that
    MarkdownV2 reserves and changes nothing else: a text without a backslash
    is read back by MarkdownV2 as it was written, and a text without
    reserved characters comes out as it went in.  A backslash of the text
    itself is not escaped: before a reserved character it undoes the
    escaping. *)
Theorem escape_markdown_reads_back text :
  backslash ∉ list_ascii_of_string text →
  plain_text (escape_markdown (Some text)) = Some text
  ∧ (forallb (λ c, negb (markdown_reserved c)) (list_ascii_of_string text) = true →
     escape_markdown (Some text) = text)
  ∧ plain_text (escape_markdown (Some (String backslash "_"))) = None.
Proof.
  intros Hno. unfold escape_markdown. split; [|split; [|reflexivity]].
  - induction text as [|c s IH]; [done|]. simpl in *.
    apply not_elem_of_cons in Hno as [Hc Hs].
    destruct (markdown_reserved c) eqn:Hr.
    + cbn [plain_text]. rewrite Ascii.eqb_refl. by rewrite IH.
    + cbn [plain_text]. destruct (Ascii.eqb_spec c backslash) as [->|_]; [done|].
      by rewrite Hr, IH.
  - clear Hno. induction text as [|c s IH]; [done|]. simpl.
    intros [Hc Hs]%andb_true_iff. apply negb_true_iff in Hc. by rewrite Hc, IH.
Qed.

(** ** The home page *)

(** The filter of the home page: the first [categories] item of the
    dictionary is overwritten by the second. *)
Lemma home_filter category :
  Py.dict [("categories", Mongo.has category); ("categories", Mongo.nin ["Coming Soon"])]
  = {["categories" := Mongo.nin ["Coming Soon"]]}.
Proof. unfold Py.dict. simpl. by rewrite insert_insert_eq, insert_empty. Qed.

Lemma matches_singleton k c d :
  Mongo.matches {[k := c]} d = Mongo.holds c (Mongo.array_field k d).
Proof. unfold Mongo.matches. rewrite map_to_list_singleton. simpl. apply andb_true_r. Qed.

Lemma matches_home category d :
  Mongo.matches
    (Py.dict [("categories", Mongo.has category); ("categories", Mongo.nin ["Coming Soon"])])
    d
  = negb (bool_decide ("Coming Soon" ∈ categories d)).
Proof. rewrite home_filter, matches_singleton. simpl. apply andb_true_r. Qed.

Lemma matches_category category d :
  Mongo.matches (Py.dict [("categories", Mongo.has category)]) d
  = bool_decide (category ∈ categories d).
Proof.
  unfold Py.dict. simpl. rewrite insert_empty. by rewrite matches_singleton.
Qed.

Lemma elem_of_find q l d : d ∈ Mongo.find q l ↔ d ∈ l ∧ Mongo.matches q d = true.
Proof. unfold Mongo.find. by rewrite list_elem_of_In, filter_In, <- list_elem_of_In. Qed.

Lemma elem_of_sort_id_desc l d : d ∈ Mongo.sort_id_desc l ↔ d ∈ l.
Proof. unfold Mongo.sort_id_desc. by rewrite merge_sort_Permutation. Qed.

Lemma newer_trans : Transitive Mongo.newer.
Proof. unfold Mongo.newer. intros x y z Hxy Hyz. lia. Qed.

Lemma newer_total : Total Mongo.newer.
Proof. unfold Mongo.newer. intros x y. lia. Qed.

Lemma StronglySorted_take {A} (R : relation A) n l :
  StronglySorted R l → StronglySorted R (take n l).
Proof.
  intros Hl. revert n. induction Hl as [|x l Hl IH Hx]; intros [|n]; simpl;
    try constructor; [apply IH|].
  by apply Forall_take.
Qed.

(** X22. The rows of the home page do not depend on their category: the
    filter is written with the key [categories] twice, and the second
    condition replaces the first.  Every row is the same list, the (at most
    twelve) newest entries that are not tagged ["Coming Soon"], newest
    first; an entry shows in a row whether or not it has the category of
    the row.  The category page does filter by its category. *)
Theorem home_rows_ignore_category movies :
  (∀ c c', category_movies c movies = category_movies c' movies)
  ∧ (∀ c d, d ∈ category_movies c movies → d ∈ movies ∧ ("Coming Soon" ∉ categories d))
  ∧ (∀ c d, d ∈ movies → ("Coming Soon" ∉ categories d) → (length movies ≤ 12)%nat →
            d ∈ category_movies c movies)
  ∧ (∀ c, (length (category_movies c movies) ≤ 12)%nat
          ∧ StronglySorted Mongo.newer (category_movies c movies))
  ∧ (∀ c row, (c, row) ∈ home_content movies →
              c ∈ homepage_categories ∧ row ≠ []
              ∧ ∀ c', c' ∈ homepage_categories → (c', row) ∈ home_content movies)
  ∧ (∀ c d, d ∈ category_page c movies ↔ d ∈ movies ∧ c ∈ categories d).
Proof.
  assert (Hsame : ∀ c, category_movies c movies
                       = Mongo.limit 12 (Mongo.sort_id_desc
                           (List.filter (λ d, negb (bool_decide ("Coming Soon" ∈ categories d)))
                                        movies))).
  { intros c. unfold category_movies, Mongo.find. f_equal. f_equal.
    apply filter_ext. intros d. apply matches_home. }
  split; [|split; [|split; [|split; [|split]]]].
  - intros c c'. by rewrite !Hsame.
  - intros c d Hd. unfold category_movies, Mongo.limit in Hd.
    apply elem_of_take in Hd as (i & Hd & _). apply list_elem_of_lookup_2 in Hd.
    apply elem_of_sort_id_desc, elem_of_find in Hd as [Hin Hm].
    rewrite matches_home in Hm. apply negb_true_iff, bool_decide_eq_false in Hm. done.
  - intros c d Hd Hsoon Hlen. unfold category_movies, Mongo.limit.
    rewrite take_ge.
    + apply elem_of_sort_id_desc, elem_of_find. split; [done|].
      rewrite matches_home. by apply negb_true_iff, bool_decide_eq_false.
    + unfold Mongo.sort_id_desc. rewrite merge_sort_Permutation. unfold Mongo.find.
      etrans; [apply filter_length_le | done].
  - intros c. unfold category_movies, Mongo.limit. split.
    + rewrite length_take. lia.
    + apply StronglySorted_take. unfold Mongo.sort_id_desc.
      apply (@StronglySorted_merge_sort _ _ _ newer_trans newer_total).
  - intros c row. unfold home_content, homepage_categories. cbn [foldl].
    rewrite !Hsame. set (r := Mongo.limit 12 _).
    destruct r as [|x r]; [by intros ?%elem_of_nil|].
    cbn [app]. intros Hin.
    assert (Hrow : row = x :: r ∧ c ∈ homepage_categories).
    { unfold homepage_categories.
      repeat (apply elem_of_cons in Hin as [[= -> ->]|Hin];
              [split; [done|]; repeat (first [left; done | right])|]).
      by apply elem_of_nil in Hin. }
    destruct Hrow as [-> Hc]. split; [done|]. split; [done|].
    intros c' Hc'. unfold homepage_categories in Hc'.
    repeat (apply elem_of_cons in Hc' as [->|Hc'];
            [repeat (first [left; done | right])|]).
    by apply elem_of_nil in Hc'.
  - intros c d. unfold category_page.
    rewrite elem_of_sort_id_desc, elem_of_find, matches_category.
    by rewrite bool_decide_eq_true.
Qed.

(** ** What gets in, and what cannot get out *)

(** X23. A channel post changes the world only as an ingestion: when
    anything changes, the post came from the source channel, carried a file
    name, and the parser gave a title for it.  A message in the same update
    is not looked at. *)
Theorem only_source_channel_files_are_ingested cfg E post msg w :
  (telegram_webhook cfg E (mkupdate (Some post) msg) w).2 ≠ w →
  ∃ filename p t,
    carries cfg post filename
    ∧ parse_filename E filename = Some p
    ∧ Py.nonempty (Parsed.title p) = Some t
    ∧ telegram_webhook cfg E (mkupdate (Some post) msg) w
      = ingest cfg E (get_tmdb_details_from_api E t (Parsed.type p) (Parsed.year p))
               p (Post.message_id post) w.
Proof.
  unfold telegram_webhook, handle_channel_post, carries. simpl.
  destruct (String.eqb_spec (Py.str (Post.chat_id post)) (ADMIN_CHANNEL_ID cfg))
    as [Hchat|Hchat]; simpl; [|done].
  destruct (_ ≫= _) as [filename|] eqn:Hfile; [|done].
  destruct (parse_filename E filename) as [p|] eqn:Hp; [|done].
  destruct (Py.nonempty (Parsed.title p)) as [t|] eqn:Ht; [|done].
  intros _. exists filename, p, t. split; [|done]. split; [done|].
  by destruct (Post.video post).
Qed.

(** X24. Reconciliation does not look at the type of the entry it finds,
    the [/start] command does: an episode that is merged into an entry of
    type movie is stored there, but its link is answered with the not-found
    notice and nothing is copied. *)
Theorem episode_of_movie_entry_is_not_served cfg E E' chat r p m w e s x :
  get_or_create_content_entry cfg E r p w = (Ok (Some e), w) →
  Mongo.find_one (Mongo.by_id (_id e)) (movies w) = Some e →
  type e = "movie" →
  Parsed.type p = "series" →
  Parsed.season p = Some s →
  Parsed.episode p = Some x →
  (_id e < 2 ^ 96)%N →
  ∃ w1 e',
    ingest cfg E r p m w = (Ok ok_reply, w1)
    ∧ Mongo.find_one (Mongo.by_id (_id e)) (movies w1) = Some e'
    ∧ Episode.mk s x m ∈ episodes e'
    ∧ release_link (_id e) p
      = Some (episode_link (oid_str (_id e)) (pretty s) (pretty x))
    ∧ ∃ res w2 cs,
        telegram_webhook cfg E' (start_update chat
          (episode_link (oid_str (_id e)) (pretty s) (pretty x))) w1 = (res, w2)
        ∧ sent w2 = sent w1 ++ notice chat NOT_FOUND_TEXT :: cs
        ∧ Forall (λ c, is_copy c = false) cs
        ∧ jobs w2 = jobs w1.
Proof.
  intros Hrec Hfind Hty Ht Hs Hx Hlt.
  assert (Hc : complete p).
  { unfold complete. rewrite Ht, Hs, Hx. split; [done | eauto]. }
  eexists _, (merged p m e). split; [by apply ingest_existing|]. cbn [movies].
  assert (Hfind1 : Mongo.find_one (Mongo.by_id (_id e))
                     (Mongo.update_one (Mongo.by_id (_id e)) (merged p m) (movies w))
                   = Some (merged p m e)).
  { apply find_update_one; [done|]. rewrite <- merged_id with (p := p) (m := m) at 1.
    apply by_id_self. }
  split; [done|].
  split. { rewrite (merged_episodes p m e s x Ht Hs Hx). apply elem_of_app. right. by left. }
  split. { unfold release_link. by rewrite Ht, Hs, Hx. }
  pose proof (episode_link_decodes (oid_str (_id e)) (pretty s) (pretty x) (_id e) s x
                (ObjectId_oid_str _ Hlt) (int_pretty s) (int_pretty x)) as Htok.
  assert (Hloc : locate (merged p m e) [oid_str (_id e); pretty s; pretty x] = Ok None).
  { rewrite (locate_episode _ _ _ _ s x) by apply int_pretty.
    destruct (merged_type p m e) as [-> _]. by rewrite Hty. }
  destruct (webhook_not_found cfg E' chat _ _ (_id e) (merged p m e)
              (mkworld (Mongo.update_one (Mongo.by_id (_id e)) (merged p m) (movies w))
                       (jobs w) (sent w)) Htok Hfind1 Hloc)
    as (res & w2 & cs & Hrun & Hsent & Hcs & Hjobs & _).
  by exists res, w2, cs.
Qed.

(** ** Histories *)

Lemma delete_one_Forall (P : doc → Prop) q l : Forall P l → Forall P (Mongo.delete_one q l).
Proof.
  induction 1 as [|x l Hx Hl IH]; simpl; [constructor|].
  destruct (q x); [done | by constructor].
Qed.

Lemma delete_movie_world adm movie_id auth w :
  (delete_movie adm movie_id auth w).2 = w
  ∨ ∃ oid, (delete_movie adm movie_id auth w).2
           = mkworld (Mongo.delete_one (Mongo.by_id oid) (movies w)) (jobs w) (sent w).
Proof.
  unfold delete_movie, requires_auth.
  destruct auth as [a|]; [|by left].
  destruct (negb _); [by left|].
  destruct (Bson.ObjectId movie_id) as [oid|]; munfold; [|by left].
  right. by exists oid.
Qed.

Lemma step_keeps_invariants cfg adm ev w :
  Forall well_formed (movies w) → keyed (jobs w) →
  Forall well_formed (movies (step cfg adm ev w)) ∧ keyed (jobs (step cfg adm ev w)).
Proof.
  intros Hw Hk. destruct ev as [E data|movie_id auth|E t]; simpl.
  - split; [by apply webhook_well_formed | by apply webhook_keyed].
  - destruct (delete_movie_world adm movie_id auth w) as [->|[oid ->]]; [done|].
    split; [by apply delete_one_Forall | done].
  - rewrite wake_up_eq. split; [done|]. cbn [jobs].
    intros k j Hj. apply map_lookup_filter_Some in Hj as [Hj _]. by apply Hk.
Qed.

(** X25. Whatever the history of webhook events, deletions by the
    administrator and wake-ups of the scheduler, the invariants of the data
    model hold: every entry has at most one file per quality, one episode
    per (season, episode), one pack per (season, quality) and no language
    twice, and every pending job sits under the id of its chat and
    message. *)
Theorem history_keeps_invariants cfg adm history w :
  Forall well_formed (movies w) →
  keyed (jobs w) →
  Forall well_formed (movies (run cfg adm history w))
  ∧ keyed (jobs (run cfg adm history w)).
Proof.
  revert w. induction history as [|ev history IH]; intros w Hw Hk; [done|].
  simpl. destruct (step_keeps_invariants cfg adm ev w Hw Hk) as [Hw' Hk'].
  by apply IH.
Qed.

(** * The further properties on the sample store *)

Example extract_youtube_id_ex :
  extract_youtube_id (Some "https://www.youtube.com/watch?v=dQw4w9WgXcQ&t=1") = Some "dQw4w9WgXcQ"
  ∧ extract_youtube_id (Some "see http://youtu.be/dQw4w9WgXcQ") = Some "dQw4w9WgXcQ"
  ∧ extract_youtube_id (Some "youtube.com/embed/dQw4w9WgXc") = None
  ∧ extract_youtube_id None = None.
Proof. repeat split. Qed.

Example home_ex :
  (_id <$> category_movies "Hindi" (movies Sample.w1)) = [4%N; 3%N]
  ∧ (_id <$> category_page "Hindi" (movies Sample.w1)) = []
  ∧ (_id <$> category_page "Trending Now" (movies Sample.w1)) = [4%N].
Proof. repeat split. Qed.

Example delete_movie_ex :
  delete_movie Demo.adm Demo.film_id Demo.login Sample.w1
  = (Ok (redirect "manage_content"), Sample.w0)
  ∧ delete_movie Demo.adm Demo.film_id None Sample.w1 = (Ok Unauthorized, Sample.w1)
  ∧ delete_movie Demo.adm "4" Demo.login Sample.w1 = (Raise InvalidId, Sample.w1).
Proof. repeat split. Qed.

(** An id written with white space between its bytes is accepted and
    removes nothing; its detail page answers 404. *)
Example delete_movie_short_ex :
  delete_movie Demo.adm "00 00 00 00 00 00 00 04 " Demo.login Sample.w1
  = (Ok (redirect "manage_content"), Sample.w1)
  ∧ movie_detail "00 00 00 00 00 00 00 04 " Sample.w1 = (Ok NotFound, Sample.w1).
Proof. by vm_compute. Qed.

(** White space of any kind ends the token, and digits of any script are
    read: a quality cut at a no-break space, a season written with an
    Arabic-Indic digit and a token after a no-break space all get the
    season pack of the sample. *)
Example start_unicode_ex :
  let delivered text :=
    sent (telegram_webhook Sample.cfg (Sample.E 7 0 Sample.accepts)
            (start_update 42 text) Sample.w0).2
    = [copyMessage 42 "-100123" 30 "Show Name" "Complete Season 2 (1080p)"] in
  delivered ("/start 000000000000000000000003_S2_1080p" +:+ Sample.nbsp +:+ "HEVC")
  ∧ delivered "/start 000000000000000000000003_S٢_1080p"
  ∧ delivered ("/start" +:+ Sample.nbsp +:+ "000000000000000000000003_S2_1080p").
Proof. by vm_compute. Qed.

Lemma episode_link_resolves_witness :
  ∃ first res w' cs,
    telegram_webhook Sample.cfg (Sample.E 7 0 Sample.accepts)
      (start_update 42 (episode_link Demo.show_id "1" "04")) Sample.w0 = (res, w')
    ∧ first ∈ episodes Sample.show
    ∧ Episode.key first = (1, 4)
    ∧ (unique_episodes Sample.show → first = Episode.mk 1 4 21)
    ∧ sent w' = sent Sample.w0
                ++ copyMessage 42 "-100123" (Episode.message_id first) "Show Name"
                     ("S" +:+ fmt_02d 1 +:+ "E" +:+ fmt_02d 4)
                   :: cs
    ∧ Forall (λ c, is_copy c = false ∧ c ≠ notice 42 NOT_FOUND_TEXT) cs.
Proof.
  apply (proj1 (episode_link_resolves Sample.cfg (Sample.E 7 0 Sample.accepts) 42
                  Demo.show_id "1" "04" 3%N 1 4 Sample.show Sample.w0
                  eq_refl eq_refl eq_refl eq_refl) eq_refl (Episode.mk 1 4 21));
    [right; left | reflexivity].
Defined.

Lemma file_link_resolves_witness :
  ∃ first res w' cs,
    telegram_webhook Sample.cfg (Sample.E 7 0 Sample.accepts)
      (start_update 42 (file_link Demo.film_id "720p")) Sample.w1 = (res, w')
    ∧ first ∈ files Sample.film
    ∧ File.quality first = "720p"
    ∧ (unique_qualities Sample.film → first = File.mk "720p" 40)
    ∧ sent w' = sent Sample.w1
                ++ copyMessage 42 "-100123" (File.message_id first) "Example Movie"
                     ("(" +:+ "720p" +:+ ")")
                   :: cs
    ∧ Forall (λ c, is_copy c = false ∧ c ≠ notice 42 NOT_FOUND_TEXT) cs.
Proof.
  apply (proj1 (file_link_resolves Sample.cfg (Sample.E 7 0 Sample.accepts) 42
                  Demo.film_id "720p" 4%N Sample.film Sample.w1
                  eq_refl eq_refl eq_refl) eq_refl (File.mk "720p" 40));
    [left | reflexivity].
Defined.

Lemma unknown_entry_is_silent_witness :
  telegram_webhook Sample.cfg (Sample.E 7 0 Sample.accepts)
    (start_update 42 Sample.pack_link) (mkworld [Sample.film] ∅ [])
  = (Ok ok_reply, mkworld [Sample.film] ∅ []).
Proof.
  apply (unknown_entry_is_silent Sample.cfg (Sample.E 7 0 Sample.accepts) 42
           Sample.pack_link [Demo.show_id; "S2"; "1080p"] 3%N
           (mkworld [Sample.film] ∅ []) sample_token).
  reflexivity.
Defined.

Lemma repost_changes_nothing_witness :
  let first := telegram_webhook Sample.cfg (Demo.E 7 0 Sample.accepts)
                 (Demo.post "Example.Movie.2021.1080p.mkv" 10) Sample.w0 in
  first.1 = Ok ok_reply
  ∧ length (movies first.2) = 2%nat
  ∧ telegram_webhook Sample.cfg (Demo.E 8 60 Sample.refuses)
      (Demo.post "Example.Movie.2021.1080p.mkv" 10) first.2
    = (Ok ok_reply, first.2).
Proof.
  split; [reflexivity|]. split; [reflexivity|].
  apply (repost_changes_nothing Sample.cfg (Demo.E 7 0 Sample.accepts)
           (Demo.E 8 60 Sample.refuses) _ None Sample.w0); reflexivity.
Defined.

Lemma incomplete_release_is_rejected_witness :
  let p := Sample.parsed "New Show" "series" "720p" (Some 1) None in
  let E := Sample.E 7 0 Sample.accepts in
  (∀ e w0, get_or_create_content_entry Sample.cfg E None p Sample.w0 = (Ok (Some e), w0) →
           ingest Sample.cfg E None p 50 Sample.w0 = (Raise KeyError, w0))
  ∧ (no_entry_for None "New Show" (movies Sample.w0) →
     new_id E ∉ (_id <$> movies Sample.w0) →
     ∃ cs, ingest Sample.cfg E None p 50 Sample.w0
           = (Raise KeyError,
              mkworld (movies Sample.w0 ++ [created E None "New Show" p])
                      (jobs Sample.w0) (sent Sample.w0 ++ cs))
           ∧ files (created E None "New Show" p) = []
           ∧ episodes (created E None "New Show" p) = []
           ∧ season_packs (created E None "New Show" p) = []).
Proof.
  apply (incomplete_release_is_rejected Sample.cfg (Sample.E 7 0 Sample.accepts) None
           (Sample.parsed "New Show" "series" "720p" (Some 1) None) "New Show" 50%positive
           Sample.w0); [|reflexivity].
  intros [_ H]. destruct (H eq_refl) as [_ [x Hx]]. discriminate.
Defined.

Lemma season_pack_reingest_replaces_witness :
  ∃ w' e',
    ingest Sample.cfg (Sample.E 7 0 Sample.accepts) None
           (Sample.parsed "show name" "series_pack" "1080p" (Some 2) None) 99 Sample.w0
    = (Ok ok_reply, w')
    ∧ Mongo.find_one (Mongo.by_id 3) (movies w') = Some e'
    ∧ length (season_packs e') = 1%nat
    ∧ Pack.mk 2 "1080p" 99 ∈ season_packs e'
    ∧ (99%positive ≠ 30%positive → Pack.mk 2 "1080p" 30 ∉ season_packs e')
    ∧ (∀ x, x ∈ season_packs e' → Pack.key x = (2, "1080p") → x = Pack.mk 2 "1080p" 99)
    ∧ (∀ x, Pack.key x ≠ (2, "1080p") → x ∈ season_packs e' ↔ x ∈ season_packs Sample.show)
    ∧ unique_packs e'
    ∧ episodes e' = episodes Sample.show ∧ files e' = files Sample.show
    ∧ length (movies w') = 1%nat.
Proof.
  apply (season_pack_reingest_replaces Sample.cfg (Sample.E 7 0 Sample.accepts) None
           (Sample.parsed "show name" "series_pack" "1080p" (Some 2) None) 99%positive
           Sample.w0 Sample.show 2 "1080p" 30%positive); try reflexivity.
  - unfold unique_packs. simpl. repeat constructor. by intros ?%elem_of_nil.
  - left.
Defined.

Lemma shell_is_reused_up_to_case_witness :
  ∃ e l1 l2,
    movies Sample.w0 = l1 ++ e :: l2
    ∧ (∀ d, d ∈ l1 → Mongo.by_shell_title "SHOW NAME" d = false)
    ∧ Mongo.by_shell_title "SHOW NAME" e = true
    ∧ tmdb_id e = None
    ∧ ((∀ d, d ∈ movies Sample.w0 → Mongo.by_shell_title "SHOW NAME" d = true →
             d = Sample.show) →
       e = Sample.show)
    ∧ ingest Sample.cfg (Sample.E 7 0 Sample.accepts) None
             (Sample.parsed "SHOW NAME" "series" "720p" (Some 1) (Some 9)) 60 Sample.w0
      = (Ok ok_reply,
         mkworld (Mongo.update_one (Mongo.by_id (_id e))
                    (merged (Sample.parsed "SHOW NAME" "series" "720p" (Some 1) (Some 9)) 60)
                    (movies Sample.w0))
                 (jobs Sample.w0) (sent Sample.w0)).
Proof.
  apply (shell_is_reused_up_to_case Sample.cfg (Sample.E 7 0 Sample.accepts) None
           (Sample.parsed "SHOW NAME" "series" "720p" (Some 1) (Some 9)) "SHOW NAME"
           60%positive Sample.w0 Sample.show); try reflexivity.
  - split; intros _; split; eexists; reflexivity.
  - left.
Defined.

(** Of two shells whose titles differ by case only, outside ASCII, the
    first of the collection gets the release. *)
Example reuse_first_ex :
  let shell i t := mkdoc i None t None (Some PLACEHOLDER_POSTER) None 0 [] None "movie"
                         [] [] [] [] [] in
  let p := Parsed.mk (Some "école") "movie" None None None (Some "720p") [] in
  movies (ingest Sample.cfg (Sample.E 7 0 Sample.accepts) None p 60
                 (mkworld [shell 1%N "ÉCOLE"; shell 2%N "école"] ∅ [])).2
  = [set_files [File.mk "720p" 60] (shell 1%N "ÉCOLE"); shell 2%N "école"].
Proof. by vm_compute. Qed.

Lemma ingested_release_is_delivered_witness :
  let p := Sample.parsed "Example Movie" "movie" "1080p" None None in
  let w1 := (ingest Sample.cfg (Sample.E 7 0 Sample.accepts) (Some Sample.details) p 10
               Sample.w0).2 in
  ∃ d,
    Mongo.find_one (Mongo.by_id (_id d)) (movies w1) = Some d
    ∧ ∀ link,
        release_link (_id d) p = Some link →
        Parsed.type p = "series_pack" ∨ type d = entry_type p →
        ∃ info res w2 cs,
          telegram_webhook Sample.cfg (Sample.E 8 60 Sample.accepts)
            (start_update 42 link) w1 = (res, w2)
          ∧ sent w2 = sent w1 ++ copyMessage 42 "-100123" 10 (title d) info :: cs
          ∧ Forall (λ c, is_copy c = false ∧ c ≠ notice 42 NOT_FOUND_TEXT) cs
          ∧ movies w2 = movies w1.
Proof.
  apply (ingested_release_is_delivered Sample.cfg (Sample.E 7 0 Sample.accepts)
           (Sample.E 8 60 Sample.accepts) 42 (Some Sample.details)
           (Sample.parsed "Example Movie" "movie" "1080p" None None) 10%positive Sample.w0).
  - reflexivity.
  - repeat constructor.
  - intros q [= <-]. reflexivity.
Defined.

Lemma unreadable_token_is_reported_witness :
  telegram_webhook Sample.cfg (Sample.E 7 0 Sample.accepts)
    (start_update 42 "/start 3_S2_1080p") Sample.w0
  = (Ok ok_reply, log [notice 42 UNEXPECTED_TEXT] Sample.w0).
Proof.
  apply (unreadable_token_is_reported Sample.cfg (Sample.E 7 0 Sample.accepts) 42
           "/start 3_S2_1080p" "/start" "3_S2_1080p" [] Sample.w0); try reflexivity.
  by left.
Defined.

Lemma plain_start_is_welcomed_witness :
  telegram_webhook Sample.cfg (Sample.E 7 0 Sample.accepts) (start_update 42 "/start")
    Sample.w0
  = (Ok ok_reply, log [sendMessage 42 (welcome_message Sample.cfg) true] Sample.w0).
Proof.
  apply (plain_start_is_welcomed Sample.cfg (Sample.E 7 0 Sample.accepts) 42 "/start"
           Sample.w0); [reflexivity|].
  intros cmd token rest H. discriminate H.
Defined.

Lemma deletion_jobs_do_not_collide_witness :
  ∃ w',
    telegram_webhook Sample.cfg (Sample.E 7 0 Sample.accepts)
      (start_update 42 Sample.pack_link) Sample.w0 = (Ok ok_reply, w')
    ∧ jobs w' !! job_id 42 55 = Some (Job.mk (0 + minutes 30) 42 55)
    ∧ ∀ chat' n', (chat', n') ≠ (42, 55%positive) →
                  jobs w' !! job_id chat' n' = jobs Sample.w0 !! job_id chat' n'.
Proof.
  apply (deletion_jobs_do_not_collide Sample.cfg (Sample.E 7 0 Sample.accepts) 42
           Sample.pack_link [Demo.show_id; "S2"; "1080p"] 3%N Sample.show
           30%positive "Complete Season 2 (1080p)" 55%positive Sample.w0 sample_token);
    reflexivity.
Defined.

Lemma deleted_entry_is_gone_witness :
  ∃ oid,
    Bson.ObjectId Demo.film_id = Some oid
    ∧ movie_detail Demo.film_id Sample.w0 = (Ok NotFound, Sample.w0)
    ∧ jobs Sample.w0 = jobs Sample.w1
    ∧ ∀ chat text parts,
        start_token text parts oid →
        telegram_webhook Sample.cfg (Sample.E 7 0 Sample.accepts)
          (start_update chat text) Sample.w0 = (Ok ok_reply, Sample.w0).
Proof.
  apply (deleted_entry_is_gone Demo.adm Sample.cfg (Sample.E 7 0 Sample.accepts)
           Demo.film_id Demo.login Sample.w1 Sample.w0); [reflexivity|].
  simpl. repeat constructor.
  - by intros ?%list_elem_of_singleton.
  - by intros ?%elem_of_nil.
Defined.

Lemma extract_youtube_id_sound_witness :
  String.length "dQw4w9WgXcQ" = 11%nat
  ∧ forallb Re.id_char (list_ascii_of_string "dQw4w9WgXcQ") = true
  ∧ ∃ u marker pre post,
      Some "https://youtu.be/dQw4w9WgXcQ?t=3" = Some u
      ∧ marker ∈ youtube_markers
      ∧ u = pre +:+ marker +:+ "dQw4w9WgXcQ" +:+ post.
Proof.
  apply (extract_youtube_id_sound (Some "https://youtu.be/dQw4w9WgXcQ?t=3") "dQw4w9WgXcQ").
  reflexivity.
Defined.

Lemma escape_markdown_reads_back_witness :
  plain_text (escape_markdown (Some "Mr. Robot (2015)")) = Some "Mr. Robot (2015)"
  ∧ (forallb (λ c, negb (markdown_reserved c)) (list_ascii_of_string "Mr. Robot (2015)") = true →
     escape_markdown (Some "Mr. Robot (2015)") = "Mr. Robot (2015)")
  ∧ plain_text (escape_markdown (Some (String backslash "_"))) = None.
Proof.
  apply (escape_markdown_reads_back "Mr. Robot (2015)").
  apply (bool_decide_unpack _). reflexivity.
Defined.

Lemma only_source_channel_files_are_ingested_witness :
  ∃ filename p t,
    carries Sample.cfg (Post.mk (Some (-100123)) None
                          (Some (Attachment.mk (Some "Example.Movie.2021.1080p.mkv"))) 10)
            filename
    ∧ parse_filename (Demo.E 7 0 Sample.accepts) filename = Some p
    ∧ Py.nonempty (Parsed.title p) = Some t
    ∧ telegram_webhook Sample.cfg (Demo.E 7 0 Sample.accepts)
        (Demo.post "Example.Movie.2021.1080p.mkv" 10) Sample.w0
      = ingest Sample.cfg (Demo.E 7 0 Sample.accepts)
               (get_tmdb_details_from_api (Demo.E 7 0 Sample.accepts) t (Parsed.type p)
                                          (Parsed.year p))
               p 10 Sample.w0.
Proof.
  apply (only_source_channel_files_are_ingested Sample.cfg (Demo.E 7 0 Sample.accepts)
           (Post.mk (Some (-100123)) None
                    (Some (Attachment.mk (Some "Example.Movie.2021.1080p.mkv"))) 10)
           None Sample.w0).
  intros H. apply (f_equal (λ w, length (movies w))) in H. discriminate H.
Defined.

Lemma episode_of_movie_entry_is_not_served_witness :
  let p := Sample.parsed "Example Movie" "series" "720p" (Some 1) (Some 2) in
  ∃ w1 e',
    ingest Sample.cfg (Sample.E 7 0 Sample.accepts) (Some Sample.details) p 70 Sample.w1
    = (Ok ok_reply, w1)
    ∧ Mongo.find_one (Mongo.by_id 4) (movies w1) = Some e'
    ∧ Episode.mk 1 2 70 ∈ episodes e'
    ∧ release_link 4 p = Some (episode_link (oid_str 4) (pretty 1) (pretty 2))
    ∧ ∃ res w2 cs,
        telegram_webhook Sample.cfg (Sample.E 8 60 Sample.accepts)
          (start_update 42 (episode_link (oid_str 4) (pretty 1) (pretty 2))) w1 = (res, w2)
        ∧ sent w2 = sent w1 ++ notice 42 NOT_FOUND_TEXT :: cs
        ∧ Forall (λ c, is_copy c = false) cs
        ∧ jobs w2 = jobs w1.
Proof.
  apply (episode_of_movie_entry_is_not_served Sample.cfg (Sample.E 7 0 Sample.accepts)
           (Sample.E 8 60 Sample.accepts) 42 (Some Sample.details)
           (Sample.parsed "Example Movie" "series" "720p" (Some 1) (Some 2)) 70%positive
           Sample.w1 Sample.film 1 2); reflexivity.
Defined.

Lemma history_keeps_invariants_witness :
  let history := [Webhook (Demo.E 7 0 Sample.accepts) (Demo.post "Example.Movie.2021.1080p.mkv" 10);
                  Webhook (Sample.E 8 5 Sample.accepts)
                          (start_update 42 (file_link "000000000000000000000007" "1080p"));
                  DeleteMovie "000000000000000000000007" Demo.login;
                  WakeUp (Sample.E 9 4000 Sample.refuses) 4000] in
  Forall well_formed (movies (run Sample.cfg Demo.adm history (mkworld [] ∅ [])))
  ∧ keyed (jobs (run Sample.cfg Demo.adm history (mkworld [] ∅ []))).
Proof.
  apply (history_keeps_invariants Sample.cfg Demo.adm _ (mkworld [] ∅ [])).
  - constructor.
  - exact keyed_empty.
Defined.

Example history_ex :
  let history := [Webhook (Demo.E 7 0 Sample.accepts) (Demo.post "Example.Movie.2021.1080p.mkv" 10);
                  Webhook (Sample.E 8 5 Sample.accepts)
                          (start_update 42 (file_link "000000000000000000000007" "1080p"));
                  DeleteMovie "000000000000000000000007" Demo.login;
                  WakeUp (Sample.E 9 1805 Sample.refuses) 1805] in
  run Sample.cfg Demo.adm history (mkworld [] ∅ [])
  = mkworld [] ∅
      [sendPhoto "@news" "https://img/p.jpg"
         (new_content_caption "Example Movie" (Some "2021") (Some "Action, Drama")
                              (Some (7.5)%Q))
         (Some 7%N);
       copyMessage 42 "-100123" 10 "Example Movie" "(1080p)";
       deleteMessage 42 55].
Proof. vm_compute. reflexivity. Qed.

(** A scheduler that wakes up too late drops the job: the copy stays. *)
Example late_wake_up_ex :
  let history := [Webhook (Demo.E 7 0 Sample.accepts) (Demo.post "Example.Movie.2021.1080p.mkv" 10);
                  Webhook (Sample.E 8 5 Sample.accepts)
                          (start_update 42 (file_link "000000000000000000000007" "1080p"));
                  WakeUp (Sample.E 9 4000 Sample.accepts) 4000;
                  WakeUp (Sample.E 9 4001 Sample.accepts) 4001] in
  jobs (run Sample.cfg Demo.adm history (mkworld [] ∅ [])) = ∅
  ∧ sent (run Sample.cfg Demo.adm history (mkworld [] ∅ []))
    = [sendPhoto "@news" "https://img/p.jpg"
         (new_content_caption "Example Movie" (Some "2021") (Some "Action, Drama")
                              (Some (7.5)%Q))
         (Some 7%N);
       copyMessage 42 "-100123" 10 "Example Movie" "(1080p)"].
Proof. by vm_compute. Qed.
